(** * nua-backend: share lifecycle, access resolution and upload compression

    A shallow embedding of the share and file controllers, the Share
    model, the helpers of [utils/helpers], the audit service and the
    compression service, with the properties the specification states
    about them.

    Conventions.
    - A [Date] is its time value: milliseconds since the epoch, a [Z].
      Comparing two Dates with [>] or [<=] in the source compares these.
    - An ObjectId is its canonical hex string; [a.toString() === b.toString()]
      is equality of these strings.
    - A collection is the list of its documents in insertion order;
      [findOne] returns the first document that satisfies the query.
    - [null] and [undefined] of an optional field are both [None]: the
      queries of the source ([{expiresAt: null}]) and its truthiness tests
      do not distinguish them.
    - Mongoose's [createdAt]/[updatedAt] bookkeeping is not part of the
      model; the documents carry the fields the schemas declare. *)

From stdpp Require Import base decidable option list strings gmap.
From Stdlib Require Import Ascii ZArith QArith Lia.

Open Scope Z_scope.

(** ** Types ([types/index.ts]) *)

Definition ObjectId := string.
Definition Date := Z.
Definition Bytes := list Byte.byte.

Inductive ShareType := user_share | link_share.
Inductive Permission := view | download.

Inductive AuditAction :=
  | file_upload | file_download | file_delete | file_share_user
  | file_share_link | share_revoke | share_access | file_view.

Global Instance ShareType_eq_dec : EqDecision ShareType.
Proof. solve_decision. Defined.
Global Instance Permission_eq_dec : EqDecision Permission.
Proof. solve_decision. Defined.
Global Instance AuditAction_eq_dec : EqDecision AuditAction.
Proof. solve_decision. Defined.

Record IUser := mkUser {
  u_id : ObjectId;
  u_email : string;
  u_name : string
}.

Record IFile := mkFile {
  f_id : ObjectId;
  f_filename : string;
  f_originalName : string;
  f_mimeType : string;
  f_size : Z;
  f_path : string;
  f_url : string;
  f_owner : ObjectId;
  f_isCompressed : bool;
  f_originalSize : option Z
}.

Record IShare := mkShare {
  s_id : ObjectId;
  s_file : ObjectId;
  s_owner : ObjectId;
  s_shareType : ShareType;
  s_sharedWith : option ObjectId;
  s_shareLink : option string;
  s_permission : Permission;
  s_expiresAt : option Date;
  s_isActive : bool
}.

(** The [details] objects the controllers pass to [logAudit]. *)
Inductive Details :=
  | NoDetails
  | ShareUserDetails (sharedWith : ObjectId) (permission : option Permission)
      (expiresAt : option string)
  | ShareLinkDetails (permission : option Permission) (expiresAt : option string)
  | DeleteDetails (filename : string).

Record IAuditLog := mkAudit {
  a_user : ObjectId;
  a_action : AuditAction;
  a_file : option ObjectId;
  a_share : option ObjectId;
  a_details : Details;
  a_ipAddress : option string;
  a_userAgent : option string
}.

(** What a handler sends: [res.status(c).json({success, message|error, data})]
    or [res.download(path, name)]. *)
Inductive Payload :=
  | NoData
  | ShareData (s : IShare)
  | LinkData (s : IShare) (fullShareLink : string)
  | AccessData (s : IShare) (f : option IFile) (owner : option IUser)
  | FileData (f : IFile) (owner : IUser).

Inductive Response :=
  | Json (status : Z) (success : bool) (text : string) (data : Payload)
  | SendFile (path name : string).

Definition fail (status : Z) (error : string) : Response :=
  Json status false error NoData.

(** The state the handlers run against: the four collections and the
    upload directory. *)
Record World := mkWorld {
  users : list IUser;
  files : list IFile;
  shares : list IShare;
  auditlogs : list IAuditLog;
  disk : gmap string Bytes
}.

Definition with_shares (w : World) (l : list IShare) : World :=
  mkWorld (users w) (files w) l (auditlogs w) (disk w).

Definition with_auditlogs (w : World) (l : list IAuditLog) : World :=
  mkWorld (users w) (files w) (shares w) l (disk w).

(** JavaScript's [a || b] on values that are falsy exactly when absent. *)
Definition or_else {A} (a b : option A) : option A :=
  match a with Some x => Some x | None => b end.

(** ** Helpers ([utils/helpers]) *)

(** [uuidv4().replace(/-/g, '')], on the uuid the generator returned. *)
Fixpoint remove_dashes (s : string) : string :=
  match s with
  | EmptyString => EmptyString
  | String c r =>
      if Ascii.eqb c "-"%char then remove_dashes r else String c (remove_dashes r)
  end.

Definition generateShareLink (uuid : string) : string := remove_dashes uuid.

(** [isExpired(date)], read at clock value [now]. *)
Definition isExpired (now : Date) (date : option Date) : bool :=
  match date with
  | None => false
  | Some d => now >? d
  end.

Section Model.

(** The time value of [new Date(s)]; [None] when it is NaN (Invalid Date). *)
Variable Date_parse : string -> option Date.

(** Node's [path.extname], [path.dirname], [path.basename(p, ext)] and
    [path.join(dir, name)]. *)
Variable path_extname : string -> string.
Variable path_dirname : string -> string.
Variable path_basename : string -> string -> string.
Variable path_join : string -> string -> string.

(** The bytes [archiver('zip', { zlib: { level: 9 } })] has written when its
    output closes, after [archive.file(p, { name })] and [finalize()], as a
    function of the entry's name and of the bytes it read from [p]. *)
Variable archiver_zip : string -> Bytes -> Bytes.

Definition parseExpiration (now : Date) (expiration : option string) : option Date :=
  match expiration with
  | None => None
  | Some "" => None
  | Some s =>
      match Date_parse s with
      | None => None
      | Some date => if date <=? now then None else Some date
      end
  end.

(** ** The Share model ([models]) *)

(** The virtuals [isExpired] and [isValid] of a Share document. *)
Definition share_isExpired (now : Date) (s : IShare) : bool :=
  match s_expiresAt s with
  | None => false
  | Some e => now >? e
  end.

Definition share_isValid (now : Date) (s : IShare) : bool :=
  if negb (s_isActive s) then false
  else match s_expiresAt s with
       | Some e => if now >? e then false else true
       | None => true
       end.

(** The query fragment
    [$or: [{expiresAt: null}, {expiresAt: {$gt: new Date()}}]]. *)
Definition unexpired_query (now : Date) (s : IShare) : bool :=
  match s_expiresAt s with
  | None => true
  | Some e => e >? now
  end.

Definition Share_findOne (q : IShare -> bool) (l : list IShare) : option IShare :=
  find q l.

Definition Share_findById (id : ObjectId) (l : list IShare) : option IShare :=
  find (fun s => bool_decide (s_id s = id)) l.

Definition File_findById (id : ObjectId) (l : list IFile) : option IFile :=
  find (fun f => bool_decide (f_id f = id)) l.

Definition User_findById (id : ObjectId) (l : list IUser) : option IUser :=
  find (fun u => bool_decide (u_id u = id)) l.

(** The statics [findValidShareForUser] and [findValidShareByLink]. *)
Definition findValidShareForUser (now : Date) (fileId userId : ObjectId)
    (l : list IShare) : option IShare :=
  Share_findOne (fun s =>
    bool_decide (s_file s = fileId)
    && bool_decide (s_shareType s = user_share)
    && bool_decide (s_sharedWith s = Some userId)
    && s_isActive s
    && unexpired_query now s) l.

Definition findValidShareByLink (now : Date) (shareLink : string)
    (l : list IShare) : option IShare :=
  Share_findOne (fun s =>
    bool_decide (s_shareLink s = Some shareLink)
    && bool_decide (s_shareType s = link_share)
    && s_isActive s
    && unexpired_query now s) l.

(** [doc.save()] of a document that was read from the collection: the stored
    document with that [_id] is replaced; [None] when there is none (the
    driver's DocumentNotFoundError). *)
Fixpoint Share_save (doc : IShare) (l : list IShare) : option (list IShare) :=
  match l with
  | [] => None
  | s :: r =>
      if bool_decide (s_id s = s_id doc) then Some (doc :: r)
      else match Share_save doc r with
           | Some r' => Some (s :: r')
           | None => None
           end
  end.

(** The unique indexes of the collection: [_id], and [shareLink]
    ([unique: true, sparse: true]: only documents that have one compete). *)
Definition duplicate_key (doc : IShare) (l : list IShare) : bool :=
  existsb (fun s =>
    bool_decide (s_id s = s_id doc)
    || match s_shareLink doc with
       | Some t => bool_decide (s_shareLink s = Some t)
       | None => false
       end) l.

(** [Share.create(doc)]: [None] is the duplicate-key error (E11000). *)
Definition Share_create (doc : IShare) (l : list IShare) : option (list IShare) :=
  if duplicate_key doc l then None else Some (l ++ [doc]).

(** ** Audit service ([services/auditService.ts]) *)

Record AuditOptions := mkOptions {
  fileId : option ObjectId;
  shareId : option ObjectId;
  details : Details;
  ipAddress : option string;
  userAgent : option string
}.

(** [logAudit]: one document appended to the audit collection. A failing
    write is caught and logged by the source and changes nothing; the store
    is taken to accept the write. *)
Definition logAudit (userId : ObjectId) (action : AuditAction)
    (options : AuditOptions) (w : World) : World :=
  with_auditlogs w
    (auditlogs w ++
     [mkAudit userId action (fileId options) (shareId options)
        (details options) (ipAddress options) (userAgent options)]).

(** ** Requests *)

Record AuthRequest := mkReq {
  req_user : option IUser;          (* set by the [authenticate] middleware *)
  req_errors : list string;         (* [validationResult(req).array()] *)
  req_ip : option string;
  req_userAgent : option string
}.

Definition Handled := (World * Response)%type.

(** ** Share controller ([controllers/shareController.ts]) *)

(** The query [{file: fileId, sharedWith: userId, shareType: 'user'}]. *)
Definition user_share_query (fileId userId : ObjectId) (s : IShare) : bool :=
  bool_decide (s_file s = fileId)
  && bool_decide (s_sharedWith s = Some userId)
  && bool_decide (s_shareType s = user_share).

(** The update of the re-grant branch, on the document read. *)
Definition regrant (now : Date) (permission : option Permission)
    (expiresAt : option string) (existingShare : IShare) : IShare :=
  mkShare (s_id existingShare) (s_file existingShare) (s_owner existingShare)
    (s_shareType existingShare) (s_sharedWith existingShare)
    (s_shareLink existingShare)
    (default (s_permission existingShare) permission)
    (or_else (parseExpiration now expiresAt) (s_expiresAt existingShare))
    true.

(** [shareWithUser], POST /api/shares/user. [fresh] is the [_id] Mongoose
    gives a document it creates. *)
Definition shareWithUser (now : Date) (fresh : ObjectId) (req : AuthRequest)
    (fileId userId : ObjectId) (permission : option Permission)
    (expiresAt : option string) (w : World) : Handled :=
  match req_errors req with
  | msg :: _ => (w, fail 400 msg)
  | [] =>
  match req_user req with
  | None => (w, fail 401 "Not authenticated")
  | Some user =>
  match File_findById fileId (files w) with
  | None => (w, fail 404 "File not found")
  | Some file =>
  if negb (bool_decide (f_owner file = u_id user))
  then (w, fail 403 "Only the owner can share this file")
  else if bool_decide (userId = u_id user)
  then (w, fail 400 "Cannot share with yourself")
  else
  match Share_findOne (user_share_query fileId userId) (shares w) with
  | Some existingShare =>
      let updated := regrant now permission expiresAt existingShare in
      match Share_save updated (shares w) with
      | None => (w, fail 500 "Failed to share file")
      | Some l =>
          (with_shares w l,
           Json 200 true "Share updated successfully" (ShareData updated))
      end
  | None =>
      let share :=
        mkShare fresh fileId (u_id user) user_share (Some userId) None
          (default view permission) (parseExpiration now expiresAt) true in
      match Share_create share (shares w) with
      | None => (w, fail 500 "Failed to share file")
      | Some l =>
          let w1 := with_shares w l in
          let w2 :=
            logAudit (u_id user) file_share_user
              (mkOptions (Some fileId) (Some (s_id share))
                 (ShareUserDetails userId permission expiresAt)
                 (req_ip req) (req_userAgent req)) w1 in
          (w2, Json 201 true "File shared successfully" (ShareData share))
      end
  end
  end
  end
  end.

(** [shareViaLink], POST /api/shares/link. [uuid] is what [uuidv4()]
    returned, [frontend] the configured front-end URL. *)
Definition shareViaLink (now : Date) (fresh : ObjectId) (uuid frontend : string)
    (req : AuthRequest) (fileId : ObjectId) (permission : option Permission)
    (expiresAt : option string) (w : World) : Handled :=
  match req_errors req with
  | msg :: _ => (w, fail 400 msg)
  | [] =>
  match req_user req with
  | None => (w, fail 401 "Not authenticated")
  | Some user =>
  match File_findById fileId (files w) with
  | None => (w, fail 404 "File not found")
  | Some file =>
  if negb (bool_decide (f_owner file = u_id user))
  then (w, fail 403 "Only the owner can share this file")
  else
  let shareLink := generateShareLink uuid in
  let share :=
    mkShare fresh fileId (u_id user) link_share None (Some shareLink)
      (default view permission) (parseExpiration now expiresAt) true in
  match Share_create share (shares w) with
  | None => (w, fail 500 "Failed to create share link")
  | Some l =>
      let w1 := with_shares w l in
      let w2 :=
        logAudit (u_id user) file_share_link
          (mkOptions (Some fileId) (Some (s_id share))
             (ShareLinkDetails permission expiresAt)
             (req_ip req) (req_userAgent req)) w1 in
      (w2, Json 201 true "Share link created successfully"
             (LinkData share (frontend +:+ "/shared/" +:+ shareLink)))
  end
  end
  end
  end.

(** [accessViaLink], GET /api/shares/link/:shareLink. The share is read
    with [file] and [owner] populated; the audit call dereferences the
    populated file, which throws when the file is gone. *)
Definition accessViaLink (now : Date) (req : AuthRequest) (shareLink : string)
    (w : World) : Handled :=
  match req_user req with
  | None => (w, fail 401 "You must be logged in to access shared files")
  | Some user =>
  match Share_findOne (fun s =>
          bool_decide (s_shareLink s = Some shareLink)
          && bool_decide (s_shareType s = link_share)
          && s_isActive s) (shares w) with
  | None => (w, fail 404 "Share link not found or has been revoked")
  | Some share =>
  if isExpired now (s_expiresAt share)
  then (w, fail 403 "This share link has expired")
  else
  match File_findById (s_file share) (files w) with
  | None => (w, fail 500 "Failed to access shared file")
  | Some file =>
      let w1 :=
        logAudit (u_id user) share_access
          (mkOptions (Some (f_id file)) (Some (s_id share)) NoDetails
             (req_ip req) (req_userAgent req)) w in
      (w1, Json 200 true ""
             (AccessData share (Some file)
                (User_findById (s_owner share) (users w))))
  end
  end
  end.

(** [downloadViaLink], GET /api/shares/link/:shareLink/download. *)
Definition downloadViaLink (now : Date) (req : AuthRequest) (shareLink : string)
    (w : World) : Handled :=
  match req_user req with
  | None => (w, fail 401 "You must be logged in to download shared files")
  | Some user =>
  match Share_findOne (fun s =>
          bool_decide (s_shareLink s = Some shareLink)
          && bool_decide (s_shareType s = link_share)
          && s_isActive s
          && bool_decide (s_permission s = download)) (shares w) with
  | None =>
      (w, fail 403 "Share link not found or does not have download permission")
  | Some share =>
  if isExpired now (s_expiresAt share)
  then (w, fail 403 "This share link has expired")
  else
  match File_findById (s_file share) (files w) with
  | None => (w, fail 500 "Failed to download file")
  | Some file =>
      let w1 :=
        logAudit (u_id user) file_download
          (mkOptions (Some (f_id file)) (Some (s_id share)) NoDetails
             (req_ip req) (req_userAgent req)) w in
      (w1, SendFile (f_path file) (f_originalName file))
  end
  end
  end.

Definition set_isActive (b : bool) (s : IShare) : IShare :=
  mkShare (s_id s) (s_file s) (s_owner s) (s_shareType s) (s_sharedWith s)
    (s_shareLink s) (s_permission s) (s_expiresAt s) b.

Definition set_expiresAt (e : option Date) (s : IShare) : IShare :=
  mkShare (s_id s) (s_file s) (s_owner s) (s_shareType s) (s_sharedWith s)
    (s_shareLink s) (s_permission s) e (s_isActive s).

(** [revokeShare], DELETE /api/shares/:shareId. *)
Definition revokeShare (req : AuthRequest) (id : ObjectId) (w : World) : Handled :=
  match req_user req with
  | None => (w, fail 401 "Not authenticated")
  | Some user =>
  match Share_findById id (shares w) with
  | None => (w, fail 404 "Share not found")
  | Some share =>
  if negb (bool_decide (s_owner share = u_id user))
  then (w, fail 403 "Only the owner can revoke this share")
  else
  let revoked := set_isActive false share in
  match Share_save revoked (shares w) with
  | None => (w, fail 500 "Failed to revoke share")
  | Some l =>
      let w1 :=
        logAudit (u_id user) share_revoke
          (mkOptions (Some (s_file revoked)) (Some (s_id revoked)) NoDetails
             (req_ip req) (req_userAgent req)) (with_shares w l) in
      (w1, Json 200 true "Share revoked successfully" NoData)
  end
  end
  end.

(** [updateShareExpiration], PATCH /api/shares/:shareId/expiration:
    [share.expiresAt = parseExpiration(expiresAt) || undefined]. *)
Definition updateShareExpiration (now : Date) (req : AuthRequest)
    (id : ObjectId) (expiresAt : option string) (w : World) : Handled :=
  match req_user req with
  | None => (w, fail 401 "Not authenticated")
  | Some user =>
  match Share_findById id (shares w) with
  | None => (w, fail 404 "Share not found")
  | Some share =>
  if negb (bool_decide (s_owner share = u_id user))
  then (w, fail 403 "Only the owner can update this share")
  else
  let updated := set_expiresAt (or_else (parseExpiration now expiresAt) None) share in
  match Share_save updated (shares w) with
  | None => (w, fail 500 "Failed to update share")
  | Some l =>
      (with_shares w l, Json 200 true "Share expiration updated" (ShareData updated))
  end
  end
  end.

(** ** File controller ([controllers]: [getFileById], [downloadFile]) *)

(** The access query of [getFileById]. *)
Definition view_access_query (now : Date) (id userId : ObjectId) (s : IShare) : bool :=
  bool_decide (s_file s = id)
  && bool_decide (s_sharedWith s = Some userId)
  && bool_decide (s_shareType s = user_share)
  && s_isActive s
  && unexpired_query now s.

(** The access query of [downloadFile]. *)
Definition download_access_query (now : Date) (id userId : ObjectId) (s : IShare) : bool :=
  bool_decide (s_file s = id)
  && bool_decide (s_sharedWith s = Some userId)
  && bool_decide (s_shareType s = user_share)
  && bool_decide (s_permission s = download)
  && s_isActive s
  && unexpired_query now s.

(** [getFileById], GET /api/files/:id. The file is read with [owner]
    populated; [file.owner._id] throws when the owner document is gone. *)
Definition getFileById (now : Date) (req : AuthRequest) (id : ObjectId)
    (w : World) : Handled :=
  match req_user req with
  | None => (w, fail 401 "Not authenticated")
  | Some user =>
  match File_findById id (files w) with
  | None => (w, fail 404 "File not found")
  | Some file =>
  match User_findById (f_owner file) (users w) with
  | None => (w, fail 500 "Failed to get file")
  | Some owner =>
  let isOwner := bool_decide (u_id owner = u_id user) in
  let denied :=
    if isOwner then false
    else match Share_findOne (view_access_query now id (u_id user)) (shares w) with
         | None => true
         | Some _ => false
         end in
  if denied then (w, fail 403 "Access denied")
  else
    let w1 :=
      logAudit (u_id user) file_view
        (mkOptions (Some id) None NoDetails (req_ip req) (req_userAgent req)) w in
    (w1, Json 200 true "" (FileData file owner))
  end
  end
  end.

(** [downloadFile], GET /api/files/:id/download. *)
Definition downloadFile (now : Date) (req : AuthRequest) (id : ObjectId)
    (w : World) : Handled :=
  match req_user req with
  | None => (w, fail 401 "Not authenticated")
  | Some user =>
  match File_findById id (files w) with
  | None => (w, fail 404 "File not found")
  | Some file =>
  let isOwner := bool_decide (f_owner file = u_id user) in
  let denied :=
    if isOwner then false
    else match Share_findOne (download_access_query now id (u_id user)) (shares w) with
         | None => true
         | Some _ => false
         end in
  if denied
  then (w, fail 403 "Access denied. You do not have download permission.")
  else
  match disk w !! f_path file with
  | None => (w, fail 404 "File not found on server")
  | Some _ =>
      let w1 :=
        logAudit (u_id user) file_download
          (mkOptions (Some id) None NoDetails (req_ip req) (req_userAgent req)) w in
      (w1, SendFile (f_path file) (f_originalName file))
  end
  end
  end.

(** ** Compression service ([services]: [compressFile] and its parts) *)

Record CompressionResult := mkResult {
  success : bool;
  originalSize : Z;
  compressedSize : Z;
  compressionRatio : Q;
  newPath : option string
}.

(** [fs.statSync(p).size] of stored bytes. *)
Definition byte_size (b : Bytes) : Z := Z.of_nat (length b).

(** The result every non-compressing path of the service returns. *)
Definition not_compressed (originalSize : Z) : CompressionResult :=
  mkResult false originalSize originalSize 1%Q None.

(** [compressedSize / originalSize], as the exact quotient. *)
Definition ratio (compressedSize originalSize : Z) : Q :=
  (inject_Z compressedSize / inject_Z originalSize)%Q.

(** What [sharpInstance.toFile(compressedPath)] did: it wrote the encoded
    image, or it threw, possibly leaving a partial file behind. *)
Inductive SharpOutcome :=
  | Written (out : Bytes)
  | SharpThrew (partial : option Bytes).

Definition sharp_supported (mimeType : string) : bool :=
  bool_decide (mimeType = "image/jpeg") || bool_decide (mimeType = "image/jpg")
  || bool_decide (mimeType = "image/png") || bool_decide (mimeType = "image/webp").

Definition compressedPathOf (filePath : string) : string :=
  let ext := path_extname filePath in
  let dir := path_dirname filePath in
  let basename := path_basename filePath ext in
  path_join dir (basename +:+ "_compressed" +:+ ext).

(** [fs.renameSync(a, b)] once [a] is known to exist with content [v]. *)
Definition renameSync (a b : string) (v : Bytes) (fs : gmap string Bytes)
    : gmap string Bytes :=
  <[b := v]> (delete a fs).

(** The [catch] block's clean-up:
    [if (fs.existsSync(p)) fs.unlinkSync(p)]. *)
Definition unlink_if_exists (p : string) (fs : gmap string Bytes)
    : gmap string Bytes :=
  match fs !! p with
  | Some _ => delete p fs
  | None => fs
  end.

(** [compressImage]. [None] is the exception of the first [statSync], which
    is outside the [try]. *)
Definition compressImage (sharp : SharpOutcome) (filePath mimeType : string)
    (fs : gmap string Bytes) : option (gmap string Bytes * CompressionResult) :=
  match fs !! filePath with
  | None => None
  | Some original =>
      let originalSize := byte_size original in
      if originalSize <? 100 * 1024 then Some (fs, not_compressed originalSize)
      else
        let compressedPath := compressedPathOf filePath in
        if negb (sharp_supported mimeType)
        then Some (fs, not_compressed originalSize)
        else
          match sharp with
          | Written out =>
              let fs1 := <[compressedPath := out]> fs in
              let compressedSize := byte_size out in
              if compressedSize <? originalSize then
                let fs2 := delete filePath fs1 in
                match fs2 !! compressedPath with
                | Some v =>
                    Some (renameSync compressedPath filePath v fs2,
                          mkResult true originalSize compressedSize
                            (ratio compressedSize originalSize) (Some filePath))
                | None =>
                    Some (unlink_if_exists compressedPath fs2,
                          not_compressed originalSize)
                end
              else Some (delete compressedPath fs1, not_compressed originalSize)
          | SharpThrew partial =>
              let fs1 :=
                match partial with
                | Some b => <[compressedPath := b]> fs
                | None => fs
                end in
              Some (unlink_if_exists compressedPath fs1, not_compressed originalSize)
          end
  end.

(** How the archive stream ended: the output closed after the archive was
    written, the archiver emitted [error] (possibly after a partial write),
    or setting the streams up threw, before or after [createWriteStream]
    had been called. *)
Inductive ArchiveOutcome :=
  | Closed
  | ArchiveError (partial : option Bytes)
  | SetupThrew (opened : bool).

Definition zipPathOf (filePath : string) : string :=
  let dir := path_dirname filePath in
  let basename := path_basename filePath (path_extname filePath) in
  path_join dir (basename +:+ ".zip").

(** [fs.createWriteStream(zipPath)] opens [zipPath] with flag [w]: the file
    is created, or truncated when it exists. *)
Definition createWriteStream (zipPath : string) (fs : gmap string Bytes)
    : gmap string Bytes :=
  <[zipPath := ([] : Bytes)]> fs.

(** What [archive.file(filePath, ...)] reads. The output stream is opened
    first, so when [zipPath] is [filePath] itself the archiver reads the
    file the stream has just truncated. *)
Definition archived_bytes (zipPath filePath : string) (fs : gmap string Bytes)
    : Bytes :=
  default ([] : Bytes) (createWriteStream zipPath fs !! filePath).

(** [createZipArchive]. [None] is the exception of the first [statSync],
    which is outside the [try]. The test
    [compressedSize < originalSize * 0.9] is on doubles in the source; for
    sizes below 2^53 it holds exactly when
    [10 * compressedSize < 9 * originalSize], which is how it is written
    here. *)
Definition createZipArchive (archive : ArchiveOutcome) (filePath originalName : string)
    (fs : gmap string Bytes) : option (gmap string Bytes * CompressionResult) :=
  match fs !! filePath with
  | None => None
  | Some original =>
      let originalSize := byte_size original in
      let zipPath := zipPathOf filePath in
      match archive with
      | Closed =>
          let zip := archiver_zip originalName (archived_bytes zipPath filePath fs) in
          let fs1 := <[zipPath := zip]> (createWriteStream zipPath fs) in
          let compressedSize := byte_size zip in
          if 10 * compressedSize <? 9 * originalSize then
            Some (delete filePath fs1,
                  mkResult true originalSize compressedSize
                    (ratio compressedSize originalSize) (Some zipPath))
          else Some (delete zipPath fs1, not_compressed originalSize)
      | ArchiveError partial =>
          let fs1 :=
            match partial with
            | Some b => <[zipPath := b]> fs
            | None => fs
            end in
          Some (unlink_if_exists zipPath fs1, not_compressed originalSize)
      | SetupThrew opened =>
          Some (if opened then createWriteStream zipPath fs else fs,
                not_compressed originalSize)
      end
  end.

(** [compressFile]: images go to [compressImage], everything else is left
    as it is. *)
Definition compressFile (sharp : SharpOutcome) (filePath mimeType _originalName : string)
    (fs : gmap string Bytes) : option (gmap string Bytes * CompressionResult) :=
  if String.prefix "image/" mimeType then compressImage sharp filePath mimeType fs
  else
    match fs !! filePath with
    | None => None
    | Some original =>
        Some (fs, not_compressed (byte_size original))
    end.

(** ** [shareWithUser] between its awaits

    The handler awaits four store operations: [File.findById],
    [Share.findOne], then [save] or [Share.create], then the audit write.
    Each is atomic in the store; another request may run between two of
    them. One step below is one store operation together with the
    synchronous code that follows it up to the next await. *)

Record Grant := mkGrant {
  g_now : Date;
  g_fresh : ObjectId;
  g_req : AuthRequest;
  g_fileId : ObjectId;
  g_userId : ObjectId;
  g_permission : option Permission;
  g_expiresAt : option string
}.

Inductive GrantPc :=
  | AtFindFile
  | AtFindShare (user : IUser)
  | AtSave (updated : IShare)
  | AtCreate (user : IUser)
  | AtAudit (user : IUser) (share : IShare)
  | Finished (r : Response).

Definition grant_step (g : Grant) (pc : GrantPc) (w : World) : World * GrantPc :=
  match pc with
  | AtFindFile =>
      match req_errors (g_req g) with
      | msg :: _ => (w, Finished (fail 400 msg))
      | [] =>
      match req_user (g_req g) with
      | None => (w, Finished (fail 401 "Not authenticated"))
      | Some user =>
      match File_findById (g_fileId g) (files w) with
      | None => (w, Finished (fail 404 "File not found"))
      | Some file =>
          if negb (bool_decide (f_owner file = u_id user))
          then (w, Finished (fail 403 "Only the owner can share this file"))
          else if bool_decide (g_userId g = u_id user)
          then (w, Finished (fail 400 "Cannot share with yourself"))
          else (w, AtFindShare user)
      end
      end
      end
  | AtFindShare user =>
      match Share_findOne (user_share_query (g_fileId g) (g_userId g)) (shares w) with
      | Some existingShare =>
          (w, AtSave (regrant (g_now g) (g_permission g) (g_expiresAt g) existingShare))
      | None => (w, AtCreate user)
      end
  | AtSave updated =>
      match Share_save updated (shares w) with
      | None => (w, Finished (fail 500 "Failed to share file"))
      | Some l =>
          (with_shares w l,
           Finished (Json 200 true "Share updated successfully" (ShareData updated)))
      end
  | AtCreate user =>
      let share :=
        mkShare (g_fresh g) (g_fileId g) (u_id user) user_share (Some (g_userId g))
          None (default view (g_permission g))
          (parseExpiration (g_now g) (g_expiresAt g)) true in
      match Share_create share (shares w) with
      | None => (w, Finished (fail 500 "Failed to share file"))
      | Some l => (with_shares w l, AtAudit user share)
      end
  | AtAudit user share =>
      (logAudit (u_id user) file_share_user
         (mkOptions (Some (g_fileId g)) (Some (s_id share))
            (ShareUserDetails (g_userId g) (g_permission g) (g_expiresAt g))
            (req_ip (g_req g)) (req_userAgent (g_req g))) w,
       Finished (Json 201 true "File shared successfully" (ShareData share)))
  | Finished r => (w, Finished r)
  end.

(** One request on its own: [n] steps in a row. *)
Fixpoint grant_run (n : nat) (g : Grant) (pc : GrantPc) (w : World) : World * GrantPc :=
  match n with
  | O => (w, pc)
  | S k => let '(w', pc') := grant_step g pc w in grant_run k g pc' w'
  end.

(** Two requests in flight; the schedule says whose store operation is
    served next ([false]: the first request, [true]: the second). *)
Fixpoint interleave (schedule : list bool) (g1 g2 : Grant) (pc1 pc2 : GrantPc)
    (w : World) : World * GrantPc * GrantPc :=
  match schedule with
  | [] => (w, pc1, pc2)
  | false :: rest =>
      let '(w', pc1') := grant_step g1 pc1 w in interleave rest g1 g2 pc1' pc2 w'
  | true :: rest =>
      let '(w', pc2') := grant_step g2 pc2 w in interleave rest g1 g2 pc1 pc2' w'
  end.

(** The handler as a call on a [Grant]. *)
Definition shareWithUser_of (g : Grant) (w : World) : Handled :=
  shareWithUser (g_now g) (g_fresh g) (g_req g) (g_fileId g) (g_userId g)
    (g_permission g) (g_expiresAt g) w.

(** How many user-kind shares the store holds for a (file, principal) pair. *)
Definition user_share_count (fileId userId : ObjectId) (l : list IShare) : nat :=
  length (List.filter (user_share_query fileId userId) l).

(** The [_id] index: no two stored shares have the same [_id]. *)
Definition unique_ids (l : list IShare) : Prop := NoDup (map s_id l).



(** The invariant of the data model: at most one user-kind share per
    (file, principal) pair. *)
Definition at_most_one_user_share (l : list IShare) : Prop :=
  forall fileId userId, (user_share_count fileId userId l <= 1)%nat.

(** The schedule that serves the first request to its end and then the
    second. *)
Definition serial_schedule : list bool := replicate 5 false ++ replicate 5 true.

(** ** Listings, deletion and the remaining helpers *)

(** What a listing handler sends: an error with its status, or
    [{success: true, data}]. *)
Inductive Reply (A : Type) :=
  | Refused (status : Z) (error : string)
  | Answered (data : A).
#[global] Arguments Refused {A} status error.
#[global] Arguments Answered {A} data.

(** The [{items, total, page, limit, totalPages}] objects. *)
Record Paged (A : Type) := mkPaged {
  items : list A;
  total : Z;
  page : Z;
  limit : Z;
  totalPages : Z
}.
#[global] Arguments mkPaged {A}.
#[global] Arguments items {A}.
#[global] Arguments total {A}.
#[global] Arguments page {A}.
#[global] Arguments limit {A}.
#[global] Arguments totalPages {A}.

(** [parseInt(x) || d], on the result of [parseInt] ([None] is NaN): NaN
    and 0 are falsy. *)
Definition or_default (parsed : option Z) (d : Z) : Z :=
  match parsed with
  | Some 0 => d
  | Some n => n
  | None => d
  end.

(** [.sort({createdAt: -1})]: documents are stored in creation order, so
    newest first is the stored order reversed. *)
Definition newest_first {A} (l : list A) : list A := rev l.

(** [.skip(skip).limit(limit)] of the store: a negative skip is rejected by
    the server ([None]), a limit of 0 is no limit, a negative limit is its
    absolute value. *)
Definition skip_limit {A} (skip limit : Z) (l : list A) : option (list A) :=
  if skip <? 0 then None
  else
    let rest := drop (Z.to_nat skip) l in
    Some (if limit =? 0 then rest else take (Z.to_nat (Z.abs limit)) rest).

(** [Math.ceil(total / limit)] for a non-zero [limit] (exact on counts
    below 2^53). *)
Definition ceil_div (total limit : Z) : Z := - ((- total) / limit).

Definition paginate {A} (page limit : Z) (matching : list A) : option (Paged A) :=
  let skip := (page - 1) * limit in
  match skip_limit skip limit matching with
  | None => None
  | Some l =>
      Some (mkPaged l (Z.of_nat (length matching)) page limit
              (ceil_div (Z.of_nat (length matching)) limit))
  end.

(** [getFileAuditLogs] and [getUserAuditLogs] of the audit service, with
    the populated user or file beside each entry. *)
Definition getFileAuditLogs (fileId : ObjectId) (page limit : Z) (w : World)
    : option (Paged (IAuditLog * option IUser)) :=
  paginate page limit
    (newest_first
       (map (fun a => (a, User_findById (a_user a) (users w)))
          (List.filter (fun a => bool_decide (a_file a = Some fileId)) (auditlogs w)))).

Definition getUserAuditLogs (userId : ObjectId) (page limit : Z) (w : World)
    : option (Paged (IAuditLog * option IFile)) :=
  paginate page limit
    (newest_first
       (map (fun a => (a, a_file a ≫= fun f => File_findById f (files w)))
          (List.filter (fun a => bool_decide (a_user a = userId)) (auditlogs w)))).

(** [getFileAudit], GET /api/audit/file/:fileId. [page] and [limit] are
    what [parseInt] made of the query parameters. *)
Definition getFileAudit (req : AuthRequest) (fileId : ObjectId)
    (page limit : option Z) (w : World)
    : Reply (Paged (IAuditLog * option IUser)) :=
  match req_user req with
  | None => Refused 401 "Not authenticated"
  | Some user =>
  match File_findById fileId (files w) with
  | None => Refused 404 "File not found"
  | Some file =>
  if negb (bool_decide (f_owner file = u_id user))
  then Refused 403 "Only the owner can view file audit logs"
  else
    match getFileAuditLogs fileId (or_default page 1) (or_default limit 20) w with
    | None => Refused 500 "Failed to get audit logs"
    | Some auditData => Answered auditData
    end
  end
  end.

(** [getMyAudit], GET /api/audit/me. *)
Definition getMyAudit (req : AuthRequest) (page limit : option Z) (w : World)
    : Reply (Paged (IAuditLog * option IFile)) :=
  match req_user req with
  | None => Refused 401 "Not authenticated"
  | Some user =>
    match getUserAuditLogs (u_id user) (or_default page 1) (or_default limit 20) w with
    | None => Refused 500 "Failed to get audit logs"
    | Some auditData => Answered auditData
    end
  end.

(** [getFileShares], GET /api/shares/file/:fileId: the active shares of the
    file, newest first, each with its populated target. *)
Definition getFileShares (req : AuthRequest) (fileId : ObjectId) (w : World)
    : Reply (list (IShare * option IUser)) :=
  match req_user req with
  | None => Refused 401 "Not authenticated"
  | Some user =>
  match File_findById fileId (files w) with
  | None => Refused 404 "File not found"
  | Some file =>
  if negb (bool_decide (f_owner file = u_id user))
  then Refused 403 "Access denied"
  else
    Answered
      (newest_first
         (map (fun s => (s, s_sharedWith s ≫= fun u => User_findById u (users w)))
            (List.filter (fun s => bool_decide (s_file s = fileId) && s_isActive s)
               (shares w))))
  end
  end.

(** The query of [getSharedWithMe]. *)
Definition shared_with_query (now : Date) (userId : ObjectId) (s : IShare) : bool :=
  bool_decide (s_sharedWith s = Some userId)
  && bool_decide (s_shareType s = user_share)
  && s_isActive s
  && unexpired_query now s.

(** [getSharedWithMe], GET /api/files/shared, each share with its
    populated file and owner. *)
Definition getSharedWithMe (now : Date) (req : AuthRequest)
    (page limit : option Z) (w : World)
    : Reply (Paged (IShare * option IFile * option IUser)) :=
  match req_user req with
  | None => Refused 401 "Not authenticated"
  | Some user =>
    match paginate (or_default page 1) (or_default limit 20)
            (newest_first
               (map (fun s => (s, File_findById (s_file s) (files w),
                                 User_findById (s_owner s) (users w)))
                  (List.filter (shared_with_query now (u_id user)) (shares w)))) with
    | None => Refused 500 "Failed to get shared files"
    | Some data => Answered data
    end
  end.

(** [file.deleteOne()]: the stored document with that [_id] is removed. *)
Fixpoint File_deleteOne (id : ObjectId) (l : list IFile) : list IFile :=
  match l with
  | [] => []
  | f :: r => if bool_decide (f_id f = id) then r else f :: File_deleteOne id r
  end.

(** [deleteFile], DELETE /api/files/:id: the file on disk, every share of
    the file and the file document go, in that order, and the deletion is
    audited. *)
Definition deleteFile (req : AuthRequest) (id : ObjectId) (w : World) : Handled :=
  match req_user req with
  | None => (w, fail 401 "Not authenticated")
  | Some user =>
  match File_findById id (files w) with
  | None => (w, fail 404 "File not found")
  | Some file =>
  if negb (bool_decide (f_owner file = u_id user))
  then (w, fail 403 "Only the owner can delete this file")
  else
    let disk1 := unlink_if_exists (f_path file) (disk w) in
    let shares1 :=
      List.filter (fun s => negb (bool_decide (s_file s = id))) (shares w) in
    let files1 := File_deleteOne (f_id file) (files w) in
    let w1 := mkWorld (users w) files1 shares1 (auditlogs w) disk1 in
    let w2 :=
      logAudit (u_id user) file_delete
        (mkOptions (Some id) None (DeleteDetails (f_originalName file))
           (req_ip req) (req_userAgent req)) w1 in
    (w2, Json 200 true "File deleted successfully" NoData)
  end
  end.

(** The document [uploadFiles] passes to [File.create] for one uploaded
    file, from the result of [compressFile]. *)
Record MulterFile := mkMulter {
  m_filename : string;
  m_originalname : string;
  m_mimetype : string;
  m_size : Z;
  m_path : string
}.

Definition uploaded_document (fresh : ObjectId) (baseUrl : string)
    (owner : ObjectId) (file : MulterFile) (compressionResult : CompressionResult)
    : IFile :=
  mkFile fresh (m_filename file) (m_originalname file) (m_mimetype file)
    (if success compressionResult then compressedSize compressionResult
     else m_size file)
    (m_path file)
    (baseUrl +:+ "/uploads/" +:+ m_filename file)
    owner
    (success compressionResult)
    (if success compressionResult then Some (originalSize compressionResult)
     else None).

(** [sanitizeFilename]: [replace(/[^a-zA-Z0-9.-]/g, '_')], then
    [replace(/_{2,}/g, '_')], then [toLowerCase()]. A string is its
    sequence of code units; after the first replacement only ASCII is
    left, so the lower-casing is the ASCII one. *)
Definition is_upper (c : ascii) : bool :=
  (65 <=? nat_of_ascii c)%nat && (nat_of_ascii c <=? 90)%nat.
Definition is_lower (c : ascii) : bool :=
  (97 <=? nat_of_ascii c)%nat && (nat_of_ascii c <=? 122)%nat.
Definition is_digit (c : ascii) : bool :=
  (48 <=? nat_of_ascii c)%nat && (nat_of_ascii c <=? 57)%nat.

Definition is_filename_char (c : ascii) : bool :=
  is_lower c || is_upper c || is_digit c
  || Ascii.eqb c "."%char || Ascii.eqb c "-"%char.

Fixpoint replace_unsafe (s : string) : string :=
  match s with
  | EmptyString => EmptyString
  | String c r =>
      String (if is_filename_char c then c else "_"%char) (replace_unsafe r)
  end.

(** [replace(/_{2,}/g, '_')]; [after_underscore] says the previous code
    unit was an underscore of the run being collapsed. *)
Fixpoint collapse_underscores (after_underscore : bool) (s : string) : string :=
  match s with
  | EmptyString => EmptyString
  | String c r =>
      if Ascii.eqb c "_"%char
      then if after_underscore then collapse_underscores true r
           else String c (collapse_underscores true r)
      else String c (collapse_underscores false r)
  end.

Definition lower_ascii (c : ascii) : ascii :=
  if is_upper c then ascii_of_nat (nat_of_ascii c + 32) else c.

Fixpoint toLowerCase_ascii (s : string) : string :=
  match s with
  | EmptyString => EmptyString
  | String c r => String (lower_ascii c) (toLowerCase_ascii r)
  end.

Definition sanitizeFilename (filename : string) : string :=
  toLowerCase_ascii (collapse_underscores false (replace_unsafe filename)).

(** The characters a sanitized name is made of. *)
Definition is_sanitized_char (c : ascii) : bool :=
  is_lower c || is_digit c || Ascii.eqb c "."%char || Ascii.eqb c "-"%char
  || Ascii.eqb c "_"%char.

Fixpoint all_chars (q : ascii -> bool) (s : string) : bool :=
  match s with
  | EmptyString => true
  | String c r => q c && all_chars q r
  end.

Fixpoint has_double_underscore (s : string) : bool :=
  match s with
  | String c1 ((String c2 _) as r) =>
      (Ascii.eqb c1 "_"%char && Ascii.eqb c2 "_"%char) || has_double_underscore r
  | _ => false
  end.

Definition starts_with_underscore (s : string) : bool :=
  match s with
  | String c _ => Ascii.eqb c "_"%char
  | EmptyString => false
  end.

(** [haystack.includes(needle)]. *)
Fixpoint includes (needle haystack : string) : bool :=
  String.prefix needle haystack
  || match haystack with
     | EmptyString => false
     | String _ r => includes needle r
     end.

(** [getMimeTypeCategory]. *)
Definition getMimeTypeCategory (mimeType : string) : string :=
  if String.prefix "image/" mimeType then "image"
  else if String.prefix "video/" mimeType then "video"
  else if String.prefix "audio/" mimeType then "audio"
  else if bool_decide (mimeType = "application/pdf") then "pdf"
  else if includes "spreadsheet" mimeType || includes "csv" mimeType
          || includes "excel" mimeType then "spreadsheet"
  else if includes "document" mimeType || includes "word" mimeType then "document"
  else if includes "zip" mimeType || includes "compressed" mimeType then "archive"
  else "other".

(** The shape of the string [uuidv4()] returns: 36 characters, dashes
    exactly at positions 8, 13, 18 and 23. *)
Fixpoint dash_mask (s : string) : list bool :=
  match s with
  | EmptyString => []
  | String c r => Ascii.eqb c "-"%char :: dash_mask r
  end.

Definition uuid_mask : list bool :=
  replicate 8 false ++ [true] ++ replicate 4 false ++ [true]
  ++ replicate 4 false ++ [true] ++ replicate 4 false ++ [true]
  ++ replicate 12 false.

Definition uuid_shape (s : string) : bool := bool_decide (dash_mask s = uuid_mask).

(** Every share names a stored file and carries that file's owner. *)
Definition shares_follow_files (w : World) : Prop :=
  forall s, s ∈ shares w ->
    exists f, File_findById (s_file s) (files w) = Some f /\ f_owner f = s_owner s.

(** The [shareLink] index: a token names one stored share. *)
Definition unique_links (l : list IShare) : Prop :=
  forall s t k,
    s ∈ l -> t ∈ l -> s_shareLink s = Some k -> s_shareLink t = Some k -> s = t.

(** What the share handlers keep true of the store: the two unique
    indexes, one user-kind share per pair, and shares that follow their
    files. *)
Definition store_ok (w : World) : Prop :=
  unique_ids (shares w) /\ unique_links (shares w)
  /\ at_most_one_user_share (shares w) /\ shares_follow_files w.

(** The audit collection after a handler: what it was, with at most one
    entry added at the end. *)
Definition audit_extends (w w' : World) : Prop :=
  exists extra, auditlogs w' = auditlogs w ++ extra /\ (length extra <= 1)%nat.

(** What [save] makes of the store under the [_id] index (lemma
    [Share_save_map]): the document with that [_id] is replaced. *)
Definition replace_by_id (id : ObjectId) (doc : IShare) (l : list IShare) : list IShare :=
  map (fun s => if bool_decide (s_id s = id) then doc else s) l.

(** The link queries of [accessViaLink] and [downloadViaLink]. *)
Definition link_query (shareLink : string) (s : IShare) : bool :=
  bool_decide (s_shareLink s = Some shareLink)
  && bool_decide (s_shareType s = link_share)
  && s_isActive s.

Definition download_link_query (shareLink : string) (s : IShare) : bool :=
  bool_decide (s_shareLink s = Some shareLink)
  && bool_decide (s_shareType s = link_share)
  && s_isActive s
  && bool_decide (s_permission s = download).

(** ** Sample data used by the examples *)

Definition alice : IUser :=
  mkUser "64a000000000000000000001" "alice@example.com" "Alice".
Definition bob : IUser :=
  mkUser "64a000000000000000000002" "bob@example.com" "Bob".

Definition report : IFile :=
  mkFile "64f000000000000000000001" "1f0e.pdf" "report.pdf" "application/pdf"
    2048 "uploads/1f0e.pdf" "http://localhost:5000/uploads/1f0e.pdf"
    (u_id alice) false None.

Definition req_of (u : IUser) : AuthRequest := mkReq (Some u) [] None None.

(** [new Date(s).getTime()] on the strings the examples send. *)
Definition Date_parse_sample (s : string) : option Date :=
  if bool_decide (s = "2000-01-01T00:00:00.000Z") then Some 946684800000
  else if bool_decide (s = "2030-01-01T00:00:00.000Z") then Some 1893456000000
  else if bool_decide (s = "2031-01-01T00:00:00.000Z") then Some 1924992000000
  else None.

(** 2025-11-03T00:00:00.000Z. *)
Definition today : Date := 1762128000000.

Definition initial_world : World :=
  mkWorld [alice; bob] [report] [] [] {[ "uploads/1f0e.pdf" := [] ]}.

(** Bob's share of the report, view only, expiring 2030-01-01. *)
Definition bob_view_share : IShare :=
  mkShare "650000000000000000000001" (f_id report) (u_id alice) user_share
    (Some (u_id bob)) None view (Some 1893456000000) true.

(** A view-only link to the report. *)
Definition view_link : IShare :=
  mkShare "650000000000000000000002" (f_id report) (u_id alice) link_share
    None (Some "0123456789abcdef0123456789abcdef") view None true.

(** The store with Bob's view share and the view link in it. *)
Definition shared_world : World :=
  with_shares initial_world [bob_view_share; view_link].

(** Two grants of the report to Bob by Alice, sent at the same time. *)
Definition grantA : Grant :=
  mkGrant today "650000000000000000000011" (req_of alice) (f_id report)
    (u_id bob) (Some view) None.
Definition grantB : Grant :=
  mkGrant today "650000000000000000000012" (req_of alice) (f_id report)
    (u_id bob) (Some download) None.

(** Bob's share of the report with the [download] permission, and a
    download link; the store that holds them. *)
Definition bob_download_share : IShare :=
  mkShare "650000000000000000000003" (f_id report) (u_id alice) user_share
    (Some (u_id bob)) None download (Some 1893456000000) true.
Definition download_link : IShare :=
  mkShare "650000000000000000000004" (f_id report) (u_id alice) link_share
    None (Some "fedcba9876543210fedcba9876543210") download None true.
Definition download_world : World :=
  with_shares initial_world [bob_download_share; download_link].

(** A view link to the report that expires 2030-01-01, next to Bob's view
    share that expires at the same instant. *)
Definition expiring_link : IShare :=
  mkShare "650000000000000000000005" (f_id report) (u_id alice) link_share
    None (Some "00112233445566778899aabbccddeeff") view (Some 1893456000000) true.
Definition expiring_world : World :=
  with_shares initial_world [bob_view_share; expiring_link].

(** Both lookups are served before either insert. *)
Definition race_schedule : list bool :=
  [false; true; false; true; false; true; false; true].

(** Node's [path] functions on plain POSIX paths (relative, no trailing
    slash, no [.] or [..] segment), which is what the upload middleware
    produces: [uploads/<uuid><ext>]. *)
Fixpoint split_last (sep : ascii) (s : string) : option (string * string) :=
  match s with
  | EmptyString => None
  | String c r =>
      match split_last sep r with
      | Some (a, b) => Some (String c a, b)
      | None => if Ascii.eqb c sep then Some (EmptyString, r) else None
      end
  end.

Definition last_segment (p : string) : string :=
  match split_last "/"%char p with
  | Some (_, b) => b
  | None => p
  end.

Fixpoint strip_suffix (ext b : string) : option string :=
  if String.eqb b ext then Some EmptyString
  else match b with
       | EmptyString => None
       | String c r =>
           match strip_suffix ext r with
           | Some r' => Some (String c r')
           | None => None
           end
       end.

Definition posix_dirname (p : string) : string :=
  match split_last "/"%char p with
  | Some (EmptyString, _) => "/"
  | Some (d, _) => d
  | None => "."
  end.

Definition posix_extname (p : string) : string :=
  match split_last "."%char (last_segment p) with
  | Some (EmptyString, _) => ""
  | Some (_, e) => "." +:+ e
  | None => ""
  end.

Definition posix_basename (p ext : string) : string :=
  let b := last_segment p in
  if String.eqb b ext then b
  else match strip_suffix ext b with
       | Some stem => stem
       | None => b
       end.

Definition posix_join (dir name : string) : string := dir +:+ "/" +:+ name.

(** A disk that holds a 1000-byte archive uploaded as [uploads/7d2e.zip]. *)
Definition backup_bytes : Bytes := replicate 1000 Byte.x50.
Definition backup_disk : gmap string Bytes := {[ "uploads/7d2e.zip" := backup_bytes ]}.

(** A disk that holds a 100-byte archive at the same path. *)
Definition small_zip_bytes : Bytes := replicate 100 Byte.x50.
Definition small_zip_disk : gmap string Bytes :=
  {[ "uploads/7d2e.zip" := small_zip_bytes ]}.

(** The length of a zip archive with one entry: the local header (30 bytes
    and the name), the deflated data, the data descriptor (16), the central
    directory header (46 and the name) and the end record (22). *)
Definition zip_length (name : string) (deflated : nat) : nat :=
  30 + String.length name + deflated + 16 + 46 + String.length name + 22.

(** An archiver for the examples. Only the length of its output matters to
    [createZipArchive]. An empty entry deflates to 2 bytes, which gives the
    length [archiver] writes for it; other entries are taken as one stored
    block, 5 bytes longer than the data. The examples archive the empty
    entry only. *)
Definition archiver_sample (name : string) (content : Bytes) : Bytes :=
  match content with
  | [] => replicate (zip_length name 2) Byte.x50
  | _ => replicate (zip_length name (length content + 5)) Byte.x50
  end.

Definition photo_bytes : Bytes := replicate (Z.to_nat 200000) Byte.x00.
Definition encoded_bytes : Bytes := replicate (Z.to_nat 120000) Byte.x01.
Definition photo_disk : gmap string Bytes := {[ "uploads/9c1d.jpg" := photo_bytes ]}.

(** A store with two links to the report. *)
Definition two_link_world : World :=
  with_shares initial_world [view_link; download_link].

(** Bob's share of the report, expired since 2000-01-01. *)
Definition bob_expired_share : IShare :=
  mkShare "650000000000000000000006" (f_id report) (u_id alice) user_share
    (Some (u_id bob)) None view (Some 946684800000) true.
Definition expired_world : World :=
  with_shares initial_world [bob_expired_share].

(** Three audit entries for the report, oldest first. *)
Definition entry_upload : IAuditLog :=
  mkAudit (u_id alice) file_upload (Some (f_id report)) None NoDetails None None.
Definition entry_view : IAuditLog :=
  mkAudit (u_id alice) file_view (Some (f_id report)) None NoDetails None None.
Definition entry_download : IAuditLog :=
  mkAudit (u_id bob) file_download (Some (f_id report)) None NoDetails None None.
Definition audited_world : World :=
  with_auditlogs initial_world [entry_upload; entry_view; entry_download].

Definition uuid_a : string := "01234567-89ab-cdef-0123-456789abcdef".
Definition uuid_b : string := "fedcba98-7654-3210-fedc-ba9876543210".

(** The photo as the upload middleware hands it over. *)
Definition photo_upload : MulterFile :=
  mkMulter "9c1d.jpg" "holiday.jpg" "image/jpeg" 200000 "uploads/9c1d.jpg".

(** ** Properties *)

(** *** Store lemmas *)

Lemma find_some_elem {A} (q : A -> bool) (l : list A) (x : A) :
  find q l = Some x -> x ∈ l /\ q x = true.
Proof.
  intros H. apply find_some in H as [Hin Hq].
  split; [by apply list_elem_of_In | done].
Qed.

Lemma find_none_filter {A} (q : A -> bool) (l : list A) :
  find q l = None <-> List.filter q l = [].
Proof.
  induction l as [|a l IH]; simpl; [done|].
  destruct (q a); [split; discriminate | exact IH].
Qed.

Lemma Share_save_length doc l l' :
  Share_save doc l = Some l' -> length l' = length l.
Proof.
  revert l'. induction l as [|s r IH]; intros l'; simpl; [discriminate|].
  case_bool_decide.
  - intros [= <-]. done.
  - destruct (Share_save doc r) as [r'|]; [|discriminate].
    intros [= <-]. simpl. f_equal. by apply IH.
Qed.


(** Under the [_id] index, saving a document that is in the store rewrites
    exactly the stored document with that [_id]. *)
Lemma Share_save_map doc l :
  unique_ids l -> (exists s, s ∈ l /\ s_id s = s_id doc) ->
  Share_save doc l =
    Some (map (fun s => if bool_decide (s_id s = s_id doc) then doc else s) l).
Proof.
  unfold unique_ids. induction l as [|a r IH]; intros Hnd [s [Hin Hid]].
  - by apply elem_of_nil in Hin.
  - simpl in *. apply NoDup_cons in Hnd as [Hnotin Hnd].
    case_bool_decide as Ha.
    + f_equal. f_equal. symmetry.
      rewrite <- (map_id r) at 2. apply map_ext_in. intros x Hx.
      case_bool_decide as Hxid; [|done].
      exfalso. apply Hnotin. rewrite Ha, <- Hxid.
      apply list_elem_of_In. by apply in_map.
    + apply elem_of_cons in Hin as [->|Hin]; [done|].
      rewrite IH; [done | done | by exists s].
Qed.

Lemma Share_save_ids doc l l' :
  Share_save doc l = Some l' -> map s_id l' = map s_id l.
Proof.
  revert l'. induction l as [|s r IH]; intros l'; simpl; [discriminate|].
  case_bool_decide as Hs.
  - intros [= <-]. simpl. by rewrite Hs.
  - destruct (Share_save doc r) as [r'|]; [|discriminate].
    intros [= <-]. simpl. f_equal. by apply IH.
Qed.

(** A store with unique ids holds a found document once: the first document
    with its [_id] is the document itself. *)
Lemma unique_ids_same l (a b : IShare) :
  unique_ids l -> a ∈ l -> b ∈ l -> s_id a = s_id b -> a = b.
Proof.
  unfold unique_ids. induction l as [|x r IH]; intros Hnd Ha Hb Hid.
  - by apply elem_of_nil in Ha.
  - simpl in Hnd. apply NoDup_cons in Hnd as [Hnotin Hnd].
    apply elem_of_cons in Ha as [->|Ha]; apply elem_of_cons in Hb as [->|Hb].
    + done.
    + exfalso. apply Hnotin. rewrite Hid. apply list_elem_of_In. by apply in_map, list_elem_of_In.
    + exfalso. apply Hnotin. rewrite <- Hid. apply list_elem_of_In. by apply in_map, list_elem_of_In.
    + by apply IH.
Qed.

Lemma filter_map_replace (q : IShare -> bool) (doc e : IShare) l :
  unique_ids l -> e ∈ l -> s_id doc = s_id e -> q doc = q e ->
  length (List.filter q
    (map (fun s => if bool_decide (s_id s = s_id doc) then doc else s) l))
  = length (List.filter q l).
Proof.
  intros Hnd He Hid Hq.
  assert (Hall : forall x, x ∈ l ->
    q (if bool_decide (s_id x = s_id doc) then doc else x) = q x).
  { intros x Hx. case_bool_decide as Hxid; [|done].
    rewrite (unique_ids_same l x e Hnd Hx He); [done | congruence]. }
  clear Hnd He. induction l as [|a r IH]; simpl; [done|].
  rewrite (Hall a) by (apply elem_of_cons; by left).
  destruct (q a); simpl; rewrite IH; try done;
    intros x Hx; apply Hall, elem_of_cons; by right.
Qed.

(** *** Expiration *)

Lemma isExpired_iff now e : isExpired now (Some e) = true <-> now > e.
Proof. simpl. rewrite Z.gtb_ltb, Z.ltb_lt. lia. Qed.

Lemma share_isExpired_helper now s :
  share_isExpired now s = isExpired now (s_expiresAt s).
Proof. reflexivity. Qed.

Lemma share_isValid_helper now s :
  share_isValid now s = s_isActive s && negb (isExpired now (s_expiresAt s)).
Proof.
  unfold share_isValid, isExpired.
  destruct (s_isActive s), (s_expiresAt s) as [e|]; simpl; try done.
Qed.

(** The store queries keep a share exactly while [now < expiresAt]. *)
Lemma unexpired_query_iff now s e :
  s_expiresAt s = Some e -> (unexpired_query now s = true <-> now < e).
Proof.
  intros He. unfold unexpired_query. rewrite He, Z.gtb_ltb, Z.ltb_lt. done.
Qed.

(** C2. At the instant [now = expiresAt] the helper [isExpired] and the
    virtuals [isExpired]/[isValid] still take the share as unexpired (they
    test [now > expiresAt]), but the valid-share queries of the model and of
    the file controller test [expiresAt > now] and no longer match it: the
    boundary is not the same in the two families. *)
Theorem expiry_boundary_differs (t : Date) (s : IShare) (fileId userId : ObjectId)
    (shareLink : string) :
  let s' := set_isActive true (set_expiresAt (Some t) s) in
  isExpired t (s_expiresAt s') = false
  /\ share_isExpired t s' = false
  /\ share_isValid t s' = true
  /\ unexpired_query t s' = false
  /\ findValidShareForUser t fileId userId [s'] = None
  /\ findValidShareByLink t shareLink [s'] = None
  /\ Share_findOne (view_access_query t fileId userId) [s'] = None
  /\ Share_findOne (download_access_query t fileId userId) [s'] = None.
Proof.
  assert (Hgt : (t >? t) = false) by (rewrite Z.gtb_ltb; apply Z.ltb_irrefl).
  simpl. unfold share_isExpired, share_isValid, unexpired_query,
    view_access_query, download_access_query, unexpired_query. simpl.
  rewrite Hgt, !andb_false_r. done.
Qed.

(** *** [parseExpiration] *)

Lemma parseExpiration_some now expiration d :
  parseExpiration now expiration = Some d -> now < d.
Proof.
  unfold parseExpiration. destruct expiration as [[|c r]|]; try discriminate.
  destruct (Date_parse (String c r)) as [date|]; [|discriminate].
  destruct (date <=? now) eqn:Hle; [discriminate|].
  intros [= <-]. by apply Z.leb_gt.
Qed.


(** The early returns of [shareWithUser] (validation, authentication, file,
    owner, self-share), each closed by [tac]. *)
Ltac grant_guards req fileId w tac :=
  destruct (req_errors req); [|tac];
  destruct (req_user req) as [user|]; [|tac];
  destruct (File_findById fileId (files w)) as [file|]; [|tac];
  destruct (negb _); [tac|];
  case_bool_decide; [tac|].



(** *** Access resolution *)

(** C1. When the authenticated principal is the file's owner, [getFileById]
    answers with the file and [downloadFile] sends it (when it is on disk),
    whatever the Share collection holds: the outcome is the same for every
    list of shares, and the Share collection is left as it was. *)
Theorem owner_access_ignores_shares (now : Date) (req : AuthRequest)
    (id : ObjectId) (w : World) (user : IUser) (file : IFile) :
  req_user req = Some user ->
  User_findById (u_id user) (users w) = Some user ->
  File_findById id (files w) = Some file ->
  f_owner file = u_id user ->
  forall sh : list IShare,
    (getFileById now req id (with_shares w sh)).2
      = Json 200 true "" (FileData file user)
    /\ (downloadFile now req id (with_shares w sh)).2
      = match disk w !! f_path file with
        | Some _ => SendFile (f_path file) (f_originalName file)
        | None => fail 404 "File not found on server"
        end
    /\ shares (getFileById now req id (with_shares w sh)).1 = sh
    /\ shares (downloadFile now req id (with_shares w sh)).1 = sh.
Proof.
  intros Hreq Huser Hfile Howner sh.
  unfold getFileById, downloadFile. simpl. rewrite Hreq, Hfile, Howner, Huser.
  rewrite !bool_decide_eq_true_2 by done. simpl.
  destruct (disk w !! f_path file); done.
Qed.

Lemma find_none_forall {A} (q : A -> bool) (l : list A) :
  (forall x, x ∈ l -> q x = false) -> find q l = None.
Proof.
  intros H. induction l as [|a r IH]; simpl; [done|].
  rewrite (H a) by (apply elem_of_cons; by left).
  apply IH. intros x Hx. apply H, elem_of_cons. by right.
Qed.

Lemma find_is_some {A} (q : A -> bool) (l : list A) (x : A) :
  x ∈ l -> q x = true -> exists y, find q l = Some y /\ q y = true.
Proof.
  intros Hin Hq. destruct (find q l) as [y|] eqn:Hf.
  - exists y. split; [done|]. by apply find_some in Hf as [_ ?].
  - exfalso. apply list_elem_of_In in Hin.
    pose proof (find_none _ _ Hf x Hin) as Hn. congruence.
Qed.


(** *** Granting to a user *)

Lemma duplicate_key_false_id doc l :
  duplicate_key doc l = false -> s_id doc ∉ map s_id l.
Proof.
  unfold duplicate_key. induction l as [|a r IH]; simpl; intros H.
  - apply not_elem_of_nil.
  - apply orb_false_iff in H as [Ha Hr]. apply orb_false_iff in Ha as [Ha _].
    apply bool_decide_eq_false in Ha.
    apply not_elem_of_cons. split; [congruence | by apply IH].
Qed.

Lemma Share_create_unique_ids doc l l' :
  unique_ids l -> Share_create doc l = Some l' -> unique_ids l'.
Proof.
  unfold Share_create, unique_ids. intros Hnd.
  destruct (duplicate_key doc l) eqn:Hdup; [discriminate|]. intros [= <-].
  rewrite map_app. simpl. apply NoDup_app. split; [done|]. split.
  - intros x Hx Hin. apply list_elem_of_singleton in Hin as ->.
    by apply (duplicate_key_false_id doc l).
  - apply NoDup_singleton.
Qed.

Lemma regrant_same_query now permission expiresAt e fileId userId :
  user_share_query fileId userId (regrant now permission expiresAt e)
  = user_share_query fileId userId e.
Proof. reflexivity. Qed.

(** What the re-grant branch does to the store, given the [_id] index. *)
Lemma regrant_save now permission expiresAt existing l :
  unique_ids l -> existing ∈ l ->
  let updated := regrant now permission expiresAt existing in
  Share_save updated l
    = Some (map (fun s => if bool_decide (s_id s = s_id existing)
                          then updated else s) l).
Proof.
  intros Hnd Hin updated.
  rewrite (Share_save_map updated l Hnd); [done|]. by exists existing.
Qed.

Lemma regrant_count now permission expiresAt existing l fileId userId :
  unique_ids l -> existing ∈ l ->
  user_share_count fileId userId
    (map (fun s => if bool_decide (s_id s = s_id existing)
                   then regrant now permission expiresAt existing else s) l)
  = user_share_count fileId userId l.
Proof.
  intros Hnd Hin. unfold user_share_count.
  apply (filter_map_replace (user_share_query fileId userId)
           (regrant now permission expiresAt existing) existing l); done.
Qed.

(** [shareWithUser] keeps the [_id] index and the one-share-per-pair
    invariant, for every request. *)
Lemma shareWithUser_invariant now fresh req fileId userId permission expiresAt w :
  unique_ids (shares w) -> at_most_one_user_share (shares w) ->
  let w' := (shareWithUser now fresh req fileId userId permission expiresAt w).1 in
  unique_ids (shares w') /\ at_most_one_user_share (shares w').
Proof.
  intros Hnd Hone. unfold shareWithUser. grant_guards req fileId w ltac:(done).
  destruct (Share_findOne _ (shares w)) as [e|] eqn:Hfind.
  - apply find_some_elem in Hfind as [Hin _].
    rewrite (regrant_save now permission expiresAt e (shares w) Hnd Hin). simpl.
    split.
    + unfold unique_ids. rewrite map_map.
      rewrite (map_ext_in _ s_id); [done|].
      intros a _. by case_bool_decide.
    + intros f u. rewrite regrant_count by done. apply Hone.
  - destruct (Share_create _ (shares w)) as [l|] eqn:Hcreate; [|done].
    simpl. split; [by eapply Share_create_unique_ids|].
    unfold Share_create in Hcreate.
    destruct (duplicate_key _ _); [discriminate|]. injection Hcreate as <-.
    intros f u. unfold user_share_count. rewrite List.filter_app, length_app.
    simpl. unfold Share_findOne in Hfind. apply find_none_filter in Hfind.
    destruct (user_share_query f u _) eqn:Hq; simpl.
    + unfold user_share_query in Hq. simpl in Hq.
      apply andb_true_iff in Hq as [Hq _]. apply andb_true_iff in Hq as [Hf Hu].
      apply bool_decide_eq_true in Hf, Hu. injection Hu as <-. subst f.
      rewrite Hfind. simpl. lia.
    + specialize (Hone f u). unfold user_share_count in Hone. lia.
Qed.

(** C3 (amended). A grant by the owner to a principal who already has a
    user-kind share of the file answers 200, rewrites that share and adds
    none: the store keeps its length and the number of user-kind shares of
    every (file, principal) pair. The share keeps its identity, file,
    owner, kind, target and token; its permission is the one supplied, or
    the previous one when none is supplied; its expiration is the supplied
    one when that parses to an instant after the current time, and the
    previous one otherwise; it is active. *)
Theorem regrant_updates_in_place (now : Date) (fresh : ObjectId) (req : AuthRequest)
    (fileId userId : ObjectId) (permission : option Permission)
    (expiresAt : option string) (w : World) (user : IUser) (file : IFile)
    (existing : IShare) :
  req_errors req = [] ->
  req_user req = Some user ->
  File_findById fileId (files w) = Some file ->
  f_owner file = u_id user ->
  userId <> u_id user ->
  unique_ids (shares w) ->
  Share_findOne (user_share_query fileId userId) (shares w) = Some existing ->
  let r := shareWithUser now fresh req fileId userId permission expiresAt w in
  let updated := regrant now permission expiresAt existing in
  r.2 = Json 200 true "Share updated successfully" (ShareData updated)
  /\ shares r.1
     = map (fun s => if bool_decide (s_id s = s_id existing) then updated else s)
         (shares w)
  /\ length (shares r.1) = length (shares w)
  /\ (forall f u, user_share_count f u (shares r.1) = user_share_count f u (shares w))
  /\ (at_most_one_user_share (shares w) -> at_most_one_user_share (shares r.1))
  /\ updated ∈ shares r.1
  /\ (s_id updated, s_file updated, s_owner updated, s_shareType updated,
      s_sharedWith updated, s_shareLink updated)
     = (s_id existing, fileId, s_owner existing, user_share, Some userId,
        s_shareLink existing)
  /\ s_permission updated = default (s_permission existing) permission
  /\ (forall d, parseExpiration now expiresAt = Some d ->
        s_expiresAt updated = Some d)
  /\ (parseExpiration now expiresAt = None ->
        s_expiresAt updated = s_expiresAt existing)
  /\ s_isActive updated = true.
Proof.
  intros Herr Hreq Hfile Howner Hself Hnd Hfind r updated. subst updated.
  pose proof (find_some_elem _ _ _ Hfind) as [Hin Hq].
  assert (Hr : r = (with_shares w
            (map (fun s => if bool_decide (s_id s = s_id existing)
                           then regrant now permission expiresAt existing
                           else s) (shares w)),
          Json 200 true "Share updated successfully"
            (ShareData (regrant now permission expiresAt existing)))).
  { subst r. unfold shareWithUser.
    rewrite Herr, Hreq, Hfile, Howner, Hfind.
    rewrite bool_decide_eq_true_2 by done.
    rewrite bool_decide_eq_false_2 by done. simpl.
    by rewrite (regrant_save now permission expiresAt existing (shares w) Hnd Hin). }
  rewrite Hr. simpl.
  split; [done|]. split; [done|]. split; [by rewrite length_map|].
  split; [intros f u; by apply regrant_count|].
  split; [intros Hone f u; rewrite regrant_count by done; apply Hone|].
  split.
  { apply list_elem_of_In, in_map_iff. exists existing.
    rewrite bool_decide_eq_true_2 by done. split; [done|].
    by apply list_elem_of_In. }
  unfold user_share_query in Hq.
  apply andb_true_iff in Hq as [Hq Ht]. apply andb_true_iff in Hq as [Hf Hu].
  apply bool_decide_eq_true in Hf, Hu, Ht.
  split; [by rewrite Hf, Hu, Ht|].
  split; [done|].
  split; [by intros d ->|]. split; [by intros ->|done].
Qed.

(** One request served without interruption is the handler. *)
Lemma grant_run_alone g w :
  grant_run 5 g AtFindFile w
  = ((shareWithUser_of g w).1, Finished (shareWithUser_of g w).2).
Proof.
  unfold shareWithUser_of, shareWithUser. cbn [grant_run grant_step].
  grant_guards (g_req g) (g_fileId g) w ltac:(done). cbn [grant_run grant_step].
  destruct (Share_findOne _ (shares w)) as [e|]; cbn [grant_run grant_step].
  - by destruct (Share_save _ (shares w)).
  - by destruct (Share_create _ (shares w)).
Qed.

Lemma interleave_first n schedule g1 g2 pc1 pc2 w :
  interleave (replicate n false ++ schedule) g1 g2 pc1 pc2 w
  = let '(w', pc1') := grant_run n g1 pc1 w in
    interleave schedule g1 g2 pc1' pc2 w'.
Proof.
  revert pc1 w. induction n as [|n IH]; intros pc1 w; simpl; [done|].
  destruct (grant_step g1 pc1 w) as [w' pc1']. apply IH.
Qed.

Lemma interleave_second n g1 g2 pc1 pc2 w :
  interleave (replicate n true) g1 g2 pc1 pc2 w
  = let '(w', pc2') := grant_run n g2 pc2 w in (w', pc1, pc2').
Proof.
  revert pc2 w. induction n as [|n IH]; intros pc2 w; simpl; [done|].
  destruct (grant_step g2 pc2 w) as [w' pc2']. apply IH.
Qed.

(** C9 (amended). Two [shareWithUser] requests served one after the other
    leave the store with unique ids and at most one user-kind share per
    (file, principal) pair when it started so; the second request sees what
    the first wrote. Nothing in the handler or the indexes extends this to
    requests whose store operations interleave. *)
Theorem serial_grants_keep_one_share (g1 g2 : Grant) (w : World) :
  unique_ids (shares w) ->
  at_most_one_user_share (shares w) ->
  let r1 := shareWithUser_of g1 w in
  let r2 := shareWithUser_of g2 r1.1 in
  interleave serial_schedule g1 g2 AtFindFile AtFindFile w
    = (r2.1, Finished r1.2, Finished r2.2)
  /\ unique_ids (shares r2.1)
  /\ at_most_one_user_share (shares r2.1)
  /\ (user_share_count (g_fileId g1) (g_userId g1) (shares r2.1) <= 1)%nat.
Proof.
  intros Hnd Hone r1 r2.
  destruct (shareWithUser_invariant (g_now g1) (g_fresh g1) (g_req g1)
              (g_fileId g1) (g_userId g1) (g_permission g1) (g_expiresAt g1)
              w Hnd Hone) as [Hnd1 Hone1].
  destruct (shareWithUser_invariant (g_now g2) (g_fresh g2) (g_req g2)
              (g_fileId g2) (g_userId g2) (g_permission g2) (g_expiresAt g2)
              r1.1 Hnd1 Hone1) as [Hnd2 Hone2].
  split; [|split; [done|split; [done|apply Hone2]]].
  unfold serial_schedule. rewrite interleave_first, grant_run_alone.
  by rewrite interleave_second, grant_run_alone.
Qed.

(** *** Granting by link *)

Lemma duplicate_key_false doc l :
  (forall s, s ∈ l -> s_id s <> s_id doc /\ (s_shareLink doc = None \/ s_shareLink s <> s_shareLink doc)) ->
  duplicate_key doc l = false.
Proof.
  unfold duplicate_key. induction l as [|a r IH]; simpl; intros H; [done|].
  rewrite IH by (intros s Hs; apply H, elem_of_cons; by right).
  destruct (H a) as [Hid Hlink]; [apply elem_of_cons; by left|].
  rewrite bool_decide_eq_false_2 by done. simpl.
  destruct (s_shareLink doc) as [t|]; [|done].
  destruct Hlink as [|Hlink]; [done|]. by rewrite bool_decide_eq_false_2.
Qed.

Lemma duplicate_key_link doc l s t :
  s ∈ l -> s_shareLink doc = Some t -> s_shareLink s = Some t ->
  duplicate_key doc l = true.
Proof.
  intros Hin Hdoc Hs. unfold duplicate_key. apply existsb_exists.
  exists s. split; [by apply list_elem_of_In|].
  rewrite Hdoc. rewrite (bool_decide_eq_true_2 (s_shareLink s = Some t)) by done.
  apply orb_true_r.
Qed.

(** C4 (amended). [shareViaLink] by the owner issues one token. When no
    stored share has that token (and the new [_id] is unused) a new share
    with it is appended, audited and returned with status 201. When a
    stored share already has the token, the unique index rejects the
    insert: nothing is stored or audited, no other token is tried, and the
    caller gets status 500. *)
Theorem shareViaLink_single_attempt (now : Date) (fresh : ObjectId)
    (uuid frontend : string) (req : AuthRequest) (fileId : ObjectId)
    (permission : option Permission) (expiresAt : option string) (w : World)
    (user : IUser) (file : IFile) :
  req_errors req = [] ->
  req_user req = Some user ->
  File_findById fileId (files w) = Some file ->
  f_owner file = u_id user ->
  let token := generateShareLink uuid in
  let share :=
    mkShare fresh fileId (u_id user) link_share None (Some token)
      (default view permission) (parseExpiration now expiresAt) true in
  let r := shareViaLink now fresh uuid frontend req fileId permission expiresAt w in
  ((forall s, s ∈ shares w -> s_id s <> fresh /\ s_shareLink s <> Some token) ->
     r.2 = Json 201 true "Share link created successfully"
             (LinkData share (frontend +:+ "/shared/" +:+ token))
     /\ shares r.1 = shares w ++ [share]
     /\ auditlogs r.1
        = auditlogs w ++
          [mkAudit (u_id user) file_share_link (Some fileId) (Some fresh)
             (ShareLinkDetails permission expiresAt) (req_ip req)
             (req_userAgent req)])
  /\ ((exists s, s ∈ shares w /\ s_shareLink s = Some token) ->
     r = (w, fail 500 "Failed to create share link")).
Proof.
  intros Herr Hreq Hfile Howner token share r.
  subst r. unfold shareViaLink. rewrite Herr, Hreq, Hfile, Howner.
  rewrite bool_decide_eq_true_2 by done. simpl. fold token. fold share.
  unfold Share_create. split.
  - intros Hfresh. rewrite (duplicate_key_false share (shares w)); [done|].
    intros s Hs. destruct (Hfresh s Hs) as [Hid Hlink]. split; [done|].
    right. done.
  - intros [s [Hs Hlink]].
    by rewrite (duplicate_key_link share (shares w) s token).
Qed.

(** *** Updating the expiration *)

(** C8. [updateShareExpiration] by the share's owner answers 200 and
    rewrites the share with the new expiration and every other field,
    the active flag included, as it was; the other shares and the other
    collections are untouched. With no value, or an empty one, the share
    has no expiration afterwards: it is not expired at any instant, every
    valid-share query keeps it, and it is valid exactly when it is active. *)
Theorem updateExpiration_changes_only_expiration (now : Date) (req : AuthRequest)
    (id : ObjectId) (expiresAt : option string) (w : World) (user : IUser)
    (share : IShare) :
  req_user req = Some user ->
  Share_findById id (shares w) = Some share ->
  s_owner share = u_id user ->
  unique_ids (shares w) ->
  let r := updateShareExpiration now req id expiresAt w in
  let updated := set_expiresAt (parseExpiration now expiresAt) share in
  r = (with_shares w
         (map (fun s => if bool_decide (s_id s = id) then updated else s) (shares w)),
       Json 200 true "Share expiration updated" (ShareData updated))
  /\ updated
     = mkShare (s_id share) (s_file share) (s_owner share) (s_shareType share)
         (s_sharedWith share) (s_shareLink share) (s_permission share)
         (parseExpiration now expiresAt) (s_isActive share)
  /\ (forall s, s ∈ shares w -> s_id s <> id -> s ∈ shares r.1)
  /\ (expiresAt = None \/ expiresAt = Some "" ->
       s_expiresAt updated = None
       /\ forall t, isExpired t (s_expiresAt updated) = false
                  /\ share_isExpired t updated = false
                  /\ unexpired_query t updated = true
                  /\ share_isValid t updated = s_isActive share).
Proof.
  intros Hreq Hfind Howner Hnd r updated.
  pose proof (find_some_elem _ _ _ Hfind) as [Hin Hid].
  apply bool_decide_eq_true in Hid.
  assert (Hor : or_else (parseExpiration now expiresAt) None
                = parseExpiration now expiresAt)
    by (by destruct (parseExpiration now expiresAt)).
  assert (Hr : r = (with_shares w
         (map (fun s => if bool_decide (s_id s = id) then updated else s) (shares w)),
       Json 200 true "Share expiration updated" (ShareData updated))).
  { subst r. unfold updateShareExpiration. rewrite Hreq, Hfind, Howner.
    rewrite bool_decide_eq_true_2 by done. simpl. rewrite Hor. fold updated.
    rewrite (Share_save_map updated (shares w) Hnd); [|by exists share].
    subst updated. simpl. by rewrite Hid. }
  split; [done|]. split; [done|]. split.
  - intros s Hs Hne. rewrite Hr. simpl.
    apply list_elem_of_In, in_map_iff. exists s.
    rewrite bool_decide_eq_false_2 by done. split; [done|].
    by apply list_elem_of_In.
  - intros Hnone.
    assert (Hp : parseExpiration now expiresAt = None)
      by (destruct Hnone as [->| ->]; done).
    subst updated. unfold share_isExpired, share_isValid, unexpired_query.
    simpl. rewrite Hp. split; [done|]. intros t.
    by destruct (s_isActive share).
Qed.

(** *** Compression *)

Lemma compressImage_cases sharp filePath mimeType fs original :
  fs !! filePath = Some original ->
  compressedPathOf filePath <> filePath ->
  exists fs' res,
    compressImage sharp filePath mimeType fs = Some (fs', res)
    /\ ((exists out,
           sharp = Written out
           /\ 100 * 1024 <= byte_size original
           /\ sharp_supported mimeType = true
           /\ byte_size out < byte_size original
           /\ res = mkResult true (byte_size original) (byte_size out)
                      (ratio (byte_size out) (byte_size original)) (Some filePath)
           /\ fs' !! filePath = Some out
           /\ fs' !! compressedPathOf filePath = None)
        \/ (res = not_compressed (byte_size original)
            /\ fs' !! filePath = Some original
            /\ (byte_size original < 100 * 1024
                \/ sharp_supported mimeType = false
                \/ (exists p, sharp = SharpThrew p)
                \/ (exists out, sharp = Written out
                                /\ byte_size original <= byte_size out)))).
Proof.
  intros Hfile Hne. unfold compressImage. rewrite Hfile.
  destruct (byte_size original <? 100 * 1024) eqn:Hsmall.
  { eexists _, _. split; [done|]. right. apply Z.ltb_lt in Hsmall. eauto. }
  apply Z.ltb_ge in Hsmall.
  destruct (sharp_supported mimeType) eqn:Hsup; simpl.
  2: { eexists _, _. split; [done|]. right. eauto. }
  destruct sharp as [out|partial].
  - destruct (byte_size out <? byte_size original) eqn:Hlt.
    + apply Z.ltb_lt in Hlt.
      rewrite lookup_delete_ne by done. rewrite lookup_insert_eq.
      eexists _, _. split; [done|]. left. exists out.
      repeat (split; [done|]). unfold renameSync. split.
      * by rewrite lookup_insert_eq.
      * rewrite lookup_insert_ne by done. by rewrite lookup_delete_eq.
    + apply Z.ltb_ge in Hlt.
      eexists _, _. split; [done|]. right. split; [done|]. split.
      * rewrite lookup_delete_ne by done. by rewrite lookup_insert_ne.
      * right; right; right. by exists out.
  - eexists _, _. split; [done|]. right. split; [done|]. split.
    + unfold unlink_if_exists.
      destruct partial as [b|].
      * rewrite lookup_insert_eq. rewrite lookup_delete_ne by done.
        by rewrite lookup_insert_ne.
      * destruct (fs !! compressedPathOf filePath); [|done].
        by rewrite lookup_delete_ne.
    + right; right; left. by exists partial.
Qed.

Lemma archived_bytes_other zipPath filePath fs original :
  fs !! filePath = Some original ->
  zipPath <> filePath ->
  archived_bytes zipPath filePath fs = original.
Proof.
  intros Hfile Hne. unfold archived_bytes, createWriteStream.
  rewrite lookup_insert_ne by done. by rewrite Hfile.
Qed.

Lemma archived_bytes_own filePath fs :
  archived_bytes filePath filePath fs = [].
Proof.
  unfold archived_bytes, createWriteStream. by rewrite lookup_insert_eq.
Qed.

Lemma createZipArchive_cases archive filePath originalName fs original :
  fs !! filePath = Some original ->
  zipPathOf filePath <> filePath ->
  let zip := archiver_zip originalName original in
  exists fs' res,
    createZipArchive archive filePath originalName fs = Some (fs', res)
    /\ ((archive = Closed
         /\ 10 * byte_size zip < 9 * byte_size original
         /\ res = mkResult true (byte_size original) (byte_size zip)
                    (ratio (byte_size zip) (byte_size original))
                    (Some (zipPathOf filePath))
         /\ fs' !! zipPathOf filePath = Some zip
         /\ fs' !! filePath = None)
        \/ (res = not_compressed (byte_size original)
            /\ fs' !! filePath = Some original
            /\ ((exists o, archive = SetupThrew o)
                \/ (exists p, archive = ArchiveError p)
                \/ (archive = Closed
                    /\ 9 * byte_size original <= 10 * byte_size zip)))).
Proof.
  intros Hfile Hne zip. unfold createZipArchive. rewrite Hfile.
  destruct archive as [|partial|opened].
  - rewrite (archived_bytes_other _ _ _ _ Hfile Hne). fold zip.
    unfold createWriteStream.
    destruct (10 * byte_size zip <? 9 * byte_size original) eqn:Hlt.
    + apply Z.ltb_lt in Hlt. eexists _, _. split; [done|]. left.
      repeat (split; [done|]). split.
      * rewrite lookup_delete_ne by done. by rewrite lookup_insert_eq.
      * by rewrite lookup_delete_eq.
    + apply Z.ltb_ge in Hlt. eexists _, _. split; [done|]. right.
      split; [done|]. split.
      * rewrite lookup_delete_ne by done.
        by rewrite !lookup_insert_ne by done.
      * right; right. done.
  - eexists _, _. split; [done|]. right. split; [done|]. split.
    + unfold unlink_if_exists. destruct partial as [b|].
      * rewrite lookup_insert_eq. rewrite lookup_delete_ne by done.
        by rewrite lookup_insert_ne.
      * destruct (fs !! zipPathOf filePath); [|done].
        by rewrite lookup_delete_ne.
    + right; left. by exists partial.
  - eexists _, _. split; [done|]. right. split; [done|]. split.
    + destruct opened; [|done]. unfold createWriteStream.
      by rewrite lookup_insert_ne.
    + left. by exists opened.
Qed.

(** When the archive path is the file's own path, the stored bytes survive
    only a set-up that threw before the output stream was opened. The
    archive is that of the truncated file, and both branches of the close
    handler, and the error handler, unlink the one path; a set-up that
    threw with the stream opened leaves the file empty. *)
Lemma createZipArchive_own_path archive filePath originalName fs original :
  fs !! filePath = Some original ->
  zipPathOf filePath = filePath ->
  let zip := archiver_zip originalName [] in
  exists fs' res,
    createZipArchive archive filePath originalName fs = Some (fs', res)
    /\ match archive with
       | Closed =>
           fs' !! filePath = None
           /\ res = (if 10 * byte_size zip <? 9 * byte_size original
                     then mkResult true (byte_size original) (byte_size zip)
                            (ratio (byte_size zip) (byte_size original))
                            (Some filePath)
                     else not_compressed (byte_size original))
       | ArchiveError _ =>
           fs' !! filePath = None /\ res = not_compressed (byte_size original)
       | SetupThrew opened =>
           fs' !! filePath = Some (if opened then [] else original)
           /\ res = not_compressed (byte_size original)
       end.
Proof.
  intros Hfile Hown zip. unfold createZipArchive. rewrite Hfile, Hown.
  destruct archive as [|partial|opened].
  - rewrite archived_bytes_own. fold zip.
    destruct (10 * byte_size zip <? 9 * byte_size original);
      eexists _, _; (split; [done|]); by rewrite lookup_delete_eq.
  - eexists _, _. split; [done|]. split; [|done].
    unfold unlink_if_exists. destruct partial as [b|].
    + rewrite lookup_insert_eq. by rewrite lookup_delete_eq.
    + rewrite Hfile. by rewrite lookup_delete_eq.
  - eexists _, _. split; [done|]. split; [|done].
    destruct opened; [|done]. unfold createWriteStream.
    by rewrite lookup_insert_eq.
Qed.

(** The decision rule of the compression service, for a file whose
    temporary and archive paths are not its own path. [compressImage] and
    [createZipArchive] return a result for every such stored file. The
    result has [success = true], and the transformed bytes
    become the file of record, only when the transform finished and its
    output is strictly smaller than the original (image) or smaller than
    nine tenths of it (archive), and always then for an image of a
    supported type of at least 100 KiB and for any archive. In every other
    case, a transform that threw included, the original bytes stay at
    their path and the result is [success = false] with [compressedSize]
    equal to [originalSize] and ratio 1. *)
Theorem compression_keeps_only_smaller (sharp : SharpOutcome)
    (archive : ArchiveOutcome) (filePath mimeType originalName : string)
    (fs : gmap string Bytes) (original : Bytes) :
  fs !! filePath = Some original ->
  compressedPathOf filePath <> filePath ->
  zipPathOf filePath <> filePath ->
  (exists fs' res,
     compressImage sharp filePath mimeType fs = Some (fs', res)
     /\ originalSize res = byte_size original
     /\ (success res = true <->
          exists out, sharp = Written out
                      /\ byte_size out < byte_size original
                      /\ 100 * 1024 <= byte_size original
                      /\ sharp_supported mimeType = true)
     /\ (success res = true ->
          exists out, sharp = Written out
                      /\ fs' !! filePath = Some out
                      /\ compressedSize res = byte_size out
                      /\ compressedSize res < originalSize res)
     /\ (success res = false ->
          fs' !! filePath = Some original
          /\ compressedSize res = originalSize res
          /\ compressionRatio res = 1%Q))
  /\ (exists fs' res,
     createZipArchive archive filePath originalName fs = Some (fs', res)
     /\ originalSize res = byte_size original
     /\ (success res = true <->
          archive = Closed
          /\ 10 * byte_size (archiver_zip originalName original)
             < 9 * byte_size original)
     /\ (success res = true ->
          archive = Closed
          /\ newPath res = Some (zipPathOf filePath)
          /\ fs' !! zipPathOf filePath = Some (archiver_zip originalName original)
          /\ compressedSize res = byte_size (archiver_zip originalName original)
          /\ 10 * compressedSize res < 9 * originalSize res)
     /\ (success res = false ->
          fs' !! filePath = Some original
          /\ compressedSize res = originalSize res
          /\ compressionRatio res = 1%Q)).
Proof.
  intros Hfile Hc Hz. split.
  - destruct (compressImage_cases sharp filePath mimeType fs original Hfile Hc)
      as (fs' & res & Hrun & Hcases).
    exists fs', res. split; [done|].
    destruct Hcases as [(out & -> & Hbig & Hsup & Hlt & -> & Hrec & _)
                       |(-> & Hrec & Hwhy)]; simpl.
    + split; [done|]. split; [split; [|done]|].
      * intros _. by exists out.
      * split; [|done]. intros _. by exists out.
    + split; [done|]. split; [split; [done|]|split; [done|done]].
      intros (out & -> & Hlt & Hbig & Hsup).
      destruct Hwhy as [?|[?|[[p ?]|(out' & [= <-] & ?)]]];
        [lia | congruence | discriminate | lia].
  - destruct (createZipArchive_cases archive filePath originalName fs original
                Hfile Hz) as (fs' & res & Hrun & Hcases).
    exists fs', res. split; [done|].
    destruct Hcases as [(-> & Hlt & -> & Hrec & _)
                       |(-> & Hrec & Hwhy)]; simpl.
    + split; [done|]. split; [split; [|done]|].
      * intros _. done.
      * split; [|done]. intros _. done.
    + split; [done|]. split; [split; [done|]|split; [done|done]].
      intros (-> & Hlt).
      destruct Hwhy as [[o ?]|[[p ?]|(_ & ?)]];
        [discriminate | discriminate | lia].
Qed.

(** The audit collection grows by one [file_share_user] entry exactly when
    [shareWithUser] answers 201; on every other answer it is as before. *)
Lemma shareWithUser_audit now fresh req fileId userId permission expiresAt w :
  let r := shareWithUser now fresh req fileId userId permission expiresAt w in
  match r.2 with
  | Json 201 _ _ _ =>
      exists entry, auditlogs r.1 = auditlogs w ++ [entry]
                    /\ a_action entry = file_share_user
  | _ => auditlogs r.1 = auditlogs w
  end.
Proof.
  unfold shareWithUser. simpl. grant_guards req fileId w ltac:(done).
  destruct (Share_findOne _ (shares w)) as [e|].
  - by destruct (Share_save _ (shares w)).
  - destruct (Share_create _ (shares w)); [|done]. simpl. eauto.
Qed.

(** ** Further properties of the modelled code *)

(** *** Valid shares *)

Lemma unexpired_query_not_expired now s :
  unexpired_query now s = true -> isExpired now (s_expiresAt s) = false.
Proof.
  unfold unexpired_query, isExpired. destruct (s_expiresAt s) as [e|]; [|done].
  rewrite !Z.gtb_ltb. intros H%Z.ltb_lt. apply Z.ltb_ge. lia.
Qed.

(** What the statics [findValidShareForUser] and [findValidShareByLink]
    return is a stored share for the key asked for, and the model's own
    [isValid] virtual agrees that it is valid. *)
Theorem findValidShare_sound (now : Date) (l : list IShare) :
  (forall fileId userId s,
     findValidShareForUser now fileId userId l = Some s ->
     s ∈ l /\ s_file s = fileId /\ s_sharedWith s = Some userId
     /\ s_shareType s = user_share /\ share_isValid now s = true)
  /\ (forall shareLink s,
     findValidShareByLink now shareLink l = Some s ->
     s ∈ l /\ s_shareLink s = Some shareLink /\ s_shareType s = link_share
     /\ share_isValid now s = true).
Proof.
  split.
  - intros fileId userId s H. apply find_some_elem in H as [Hin Hq].
    repeat (apply andb_true_iff in Hq as [Hq ?]).
    apply bool_decide_eq_true in Hq.
    repeat match goal with
           | H : bool_decide _ = true |- _ => apply bool_decide_eq_true in H
           end.
    repeat (split; [done|]).
    rewrite share_isValid_helper, unexpired_query_not_expired by done.
    by rewrite andb_true_r.
  - intros shareLink s H. apply find_some_elem in H as [Hin Hq].
    repeat (apply andb_true_iff in Hq as [Hq ?]).
    apply bool_decide_eq_true in Hq.
    repeat match goal with
           | H : bool_decide _ = true |- _ => apply bool_decide_eq_true in H
           end.
    repeat (split; [done|]).
    rewrite share_isValid_helper, unexpired_query_not_expired by done.
    by rewrite andb_true_r.
Qed.

Lemma parseExpiration_unexpired now expiresAt s :
  s_expiresAt s = parseExpiration now expiresAt -> unexpired_query now s = true.
Proof.
  intros He. unfold unexpired_query. rewrite He.
  destruct (parseExpiration now expiresAt) as [d|] eqn:Hp; [|done].
  apply parseExpiration_some in Hp. rewrite Z.gtb_ltb. by apply Z.ltb_lt.
Qed.

(** A share that [shareWithUser] or [shareViaLink] has just created (answer
    201) is stored, active and not expired at the time of the call: a
    grant never produces a share that is dead on arrival. *)
Theorem created_share_is_valid (now : Date) (fresh : ObjectId)
    (uuid frontend : string) (req : AuthRequest) (fileId userId : ObjectId)
    (permission : option Permission) (expiresAt : option string) (w : World) :
  (forall t s,
     (shareWithUser now fresh req fileId userId permission expiresAt w).2
       = Json 201 true t (ShareData s) ->
     s ∈ shares (shareWithUser now fresh req fileId userId permission expiresAt w).1
     /\ share_isValid now s = true /\ unexpired_query now s = true
     /\ s_permission s = default view permission)
  /\ (forall t s link,
     (shareViaLink now fresh uuid frontend req fileId permission expiresAt w).2
       = Json 201 true t (LinkData s link) ->
     s ∈ shares (shareViaLink now fresh uuid frontend req fileId permission
                   expiresAt w).1
     /\ share_isValid now s = true /\ unexpired_query now s = true
     /\ s_permission s = default view permission).
Proof.
  split.
  - intros t s. unfold shareWithUser.
    grant_guards req fileId w ltac:(discriminate).
    destruct (Share_findOne _ (shares w)) as [e|].
    { destruct (Share_save _ (shares w)); discriminate. }
    unfold Share_create. destruct (duplicate_key _ _); [discriminate|].
    cbn [fst snd]. intros [= _ <-]. cbn [shares with_shares logAudit with_auditlogs].
    split; [apply elem_of_app; right; apply list_elem_of_here|].
    assert (Hq : unexpired_query now
              (mkShare fresh fileId (u_id user) user_share (Some userId) None
                 (default view permission) (parseExpiration now expiresAt) true)
              = true) by by apply (parseExpiration_unexpired now expiresAt).
    split; [|done].
    rewrite share_isValid_helper, unexpired_query_not_expired by done. done.
  - intros t s link. unfold shareViaLink.
    destruct (req_errors req); [|discriminate].
    destruct (req_user req) as [user|]; [|discriminate].
    destruct (File_findById fileId (files w)) as [file|]; [|discriminate].
    destruct (negb _); [discriminate|].
    unfold Share_create. destruct (duplicate_key _ _); [discriminate|].
    cbn [fst snd]. intros [= _ <- _]. cbn [shares with_shares logAudit with_auditlogs].
    split; [apply elem_of_app; right; apply list_elem_of_here|].
    assert (Hq : unexpired_query now
              (mkShare fresh fileId (u_id user) link_share None
                 (Some (generateShareLink uuid))
                 (default view permission) (parseExpiration now expiresAt) true)
              = true) by by apply (parseExpiration_unexpired now expiresAt).
    split; [|done].
    rewrite share_isValid_helper, unexpired_query_not_expired by done. done.
Qed.

(** *** Revocation *)

Lemma count_le_one_same (q : IShare -> bool) l a b :
  (length (List.filter q l) <= 1)%nat ->
  a ∈ l -> b ∈ l -> q a = true -> q b = true -> a = b.
Proof.
  induction l as [|x r IH]; intros Hlen Ha Hb Hqa Hqb.
  - by apply elem_of_nil in Ha.
  - simpl in Hlen. destruct (q x) eqn:Hqx.
    + simpl in Hlen.
      assert (Hnil : List.filter q r = []).
      { destruct (List.filter q r); [done|simpl in Hlen; lia]. }
      assert (Hnone : forall y, y ∈ r -> q y = true -> False).
      { intros y Hy Hqy. apply list_elem_of_In in Hy.
        assert (Hf : In y (List.filter q r)) by (apply filter_In; done).
        rewrite Hnil in Hf. done. }
      apply elem_of_cons in Ha as [->|Ha]; apply elem_of_cons in Hb as [->|Hb];
        try done; exfalso; eauto.
    + apply elem_of_cons in Ha as [->|Ha]; [congruence|].
      apply elem_of_cons in Hb as [->|Hb]; [congruence|].
      by apply IH.
Qed.

Lemma elem_of_replace_by_id id doc l x :
  x ∈ replace_by_id id doc l ->
  x = doc \/ (x ∈ l /\ s_id x <> id).
Proof.
  unfold replace_by_id. intros H. apply list_elem_of_In, in_map_iff in H as [s [Hs Hin]].
  case_bool_decide; [by left|]. subst. right. split; [by apply list_elem_of_In|done].
Qed.

Lemma replace_by_id_keeps id doc l x :
  x ∈ l -> s_id x <> id -> x ∈ replace_by_id id doc l.
Proof.
  intros Hin Hne. unfold replace_by_id. apply list_elem_of_In, in_map_iff.
  exists x. rewrite bool_decide_eq_false_2 by done. split; [done|].
  by apply list_elem_of_In.
Qed.

Lemma replace_by_id_has id doc l e :
  e ∈ l -> s_id e = id -> doc ∈ replace_by_id id doc l.
Proof.
  intros Hin Hid. unfold replace_by_id. apply list_elem_of_In, in_map_iff.
  exists e. rewrite bool_decide_eq_true_2 by done. split; [done|].
  by apply list_elem_of_In.
Qed.

Lemma replace_by_id_unique_ids id doc l :
  unique_ids l -> s_id doc = id -> unique_ids (replace_by_id id doc l).
Proof.
  unfold unique_ids, replace_by_id. intros Hnd Hid. rewrite map_map.
  rewrite (map_ext_in _ s_id); [done|].
  intros a _. case_bool_decide; congruence.
Qed.

Lemma revokeShare_eq req id w user share :
  req_user req = Some user ->
  Share_findById id (shares w) = Some share ->
  s_owner share = u_id user ->
  unique_ids (shares w) ->
  revokeShare req id w
  = (logAudit (u_id user) share_revoke
       (mkOptions (Some (s_file share)) (Some id) NoDetails
          (req_ip req) (req_userAgent req))
       (with_shares w (replace_by_id id (set_isActive false share) (shares w))),
     Json 200 true "Share revoked successfully" NoData).
Proof.
  intros Hreq Hfind Howner Hnd.
  pose proof (find_some_elem _ _ _ Hfind) as [Hin Hid].
  apply bool_decide_eq_true in Hid.
  unfold revokeShare. rewrite Hreq, Hfind, Howner.
  rewrite bool_decide_eq_true_2 by done. cbn [negb].
  rewrite (Share_save_map (set_isActive false share) (shares w) Hnd);
    [|by exists share].
  cbn [s_id set_isActive s_file]. unfold replace_by_id. by rewrite Hid.
Qed.

Lemma Share_findById_replace id doc l e :
  Share_findById id l = Some e -> s_id doc = id ->
  Share_findById id (replace_by_id id doc l) = Some doc.
Proof.
  unfold Share_findById, replace_by_id. intros Hfind Hid.
  induction l as [|a r IH]; simpl in *; [discriminate|].
  case_bool_decide as Ha.
  - simpl. by rewrite bool_decide_eq_true_2.
  - simpl. rewrite bool_decide_eq_false_2 by done. by apply IH.
Qed.

Lemma replace_by_id_idem id doc l :
  s_id doc = id -> replace_by_id id doc (replace_by_id id doc l) = replace_by_id id doc l.
Proof.
  intros Hid. unfold replace_by_id. rewrite map_map. apply map_ext.
  intros a. destruct (bool_decide (s_id a = id)) eqn:Ha.
  - by rewrite bool_decide_eq_true_2.
  - by rewrite Ha.
Qed.

(** Revoking is idempotent on the store: the owner's first [revokeShare]
    clears the active flag of that share and of no other, a second one
    succeeds again and leaves the Share collection exactly as the first
    left it. Each call writes its own [share_revoke] audit entry. *)
Theorem revokeShare_idempotent (req : AuthRequest) (id : ObjectId) (w : World)
    (user : IUser) (share : IShare) :
  req_user req = Some user ->
  Share_findById id (shares w) = Some share ->
  s_owner share = u_id user ->
  unique_ids (shares w) ->
  let r1 := revokeShare req id w in
  let r2 := revokeShare req id r1.1 in
  r1.2 = Json 200 true "Share revoked successfully" NoData
  /\ r2.2 = Json 200 true "Share revoked successfully" NoData
  /\ shares r1.1 = replace_by_id id (set_isActive false share) (shares w)
  /\ Share_findById id (shares r1.1) = Some (set_isActive false share)
  /\ shares r2.1 = shares r1.1
  /\ length (auditlogs r2.1) = (length (auditlogs w) + 2)%nat.
Proof.
  intros Hreq Hfind Howner Hnd r1 r2.
  pose proof (find_some_elem _ _ _ Hfind) as [Hin Hid].
  apply bool_decide_eq_true in Hid.
  assert (H1 := revokeShare_eq req id w user share Hreq Hfind Howner Hnd).
  fold r1 in H1.
  assert (Hfind1 : Share_findById id (shares r1.1) = Some (set_isActive false share)).
  { rewrite H1. cbn [fst shares logAudit with_auditlogs with_shares].
    by apply (Share_findById_replace id _ _ share). }
  assert (Hnd1 : unique_ids (shares r1.1)).
  { rewrite H1. cbn [fst shares logAudit with_auditlogs with_shares].
    by apply replace_by_id_unique_ids. }
  assert (H2 := revokeShare_eq req id r1.1 user (set_isActive false share)
                  Hreq Hfind1 Howner Hnd1).
  fold r2 in H2.
  split; [by rewrite H1|]. split; [by rewrite H2|].
  split; [by rewrite H1|]. split; [done|]. split.
  - rewrite H2. cbn [fst shares logAudit with_auditlogs with_shares].
    rewrite H1. cbn [fst shares logAudit with_auditlogs with_shares].
    by apply replace_by_id_idem.
  - rewrite H2. cbn [fst auditlogs logAudit with_auditlogs with_shares].
    rewrite H1. cbn [fst auditlogs logAudit with_auditlogs with_shares].
    rewrite !length_app. simpl. lia.
Qed.

Lemma find_map_same {A} (q : A -> bool) (g : A -> A) (l : list A) :
  (forall x, x ∈ l -> q (g x) = q x /\ (q x = true -> g x = x)) ->
  find q (map g l) = find q l.
Proof.
  induction l as [|a r IH]; intros H; simpl; [done|].
  destruct (H a) as [Hq Hg]; [apply elem_of_cons; by left|].
  rewrite Hq. destruct (q a) eqn:Hqa; [by rewrite Hg|].
  apply IH. intros x Hx. apply H, elem_of_cons. by right.
Qed.

Lemma view_access_is_user_share now f u s :
  view_access_query now f u s = true -> user_share_query f u s = true.
Proof.
  unfold view_access_query, user_share_query. intros H.
  repeat (apply andb_true_iff in H as [H ?]).
  repeat (apply andb_true_iff; split); done.
Qed.

Lemma download_access_is_view_access now f u s :
  download_access_query now f u s = true -> view_access_query now f u s = true.
Proof.
  unfold view_access_query, download_access_query. intros H.
  repeat (apply andb_true_iff in H as [H ?]).
  repeat (apply andb_true_iff; split); done.
Qed.

(** When the one user-kind share of a pair is replaced by a document the
    view query rejects, no stored share gives the pair access. *)
Lemma sole_share_denied now f u id doc e l :
  unique_ids l -> (user_share_count f u l <= 1)%nat ->
  e ∈ l -> s_id e = id -> user_share_query f u e = true ->
  view_access_query now f u doc = false ->
  find (view_access_query now f u) (replace_by_id id doc l) = None
  /\ find (download_access_query now f u) (replace_by_id id doc l) = None.
Proof.
  intros Hnd Hone He Hid Hq Hdoc.
  assert (Hview : forall x, x ∈ replace_by_id id doc l ->
                            view_access_query now f u x = false).
  { intros x Hx. apply elem_of_replace_by_id in Hx as [->|[Hx Hne]]; [done|].
    destruct (view_access_query now f u x) eqn:Hv; [|done].
    apply view_access_is_user_share in Hv.
    assert (x = e) by (by apply (count_le_one_same (user_share_query f u) l)).
    congruence. }
  split; apply find_none_forall; intros x Hx; [by apply Hview|].
  destruct (download_access_query now f u x) eqn:Hd; [|done].
  apply download_access_is_view_access in Hd. rewrite Hview in Hd; done.
Qed.

Lemma getFileById_denied now req id w user file owner :
  req_user req = Some user ->
  File_findById id (files w) = Some file ->
  User_findById (f_owner file) (users w) = Some owner ->
  f_owner file <> u_id user ->
  find (view_access_query now id (u_id user)) (shares w) = None ->
  getFileById now req id w = (w, fail 403 "Access denied").
Proof.
  intros Hreq Hfile Howner Hne Hfind.
  pose proof (find_some_elem _ _ _ Howner) as [_ Hoid].
  apply bool_decide_eq_true in Hoid.
  unfold getFileById, Share_findOne. rewrite Hreq, Hfile, Howner, Hfind.
  by rewrite bool_decide_eq_false_2 by congruence.
Qed.

Lemma downloadFile_denied now req id w user file :
  req_user req = Some user ->
  File_findById id (files w) = Some file ->
  f_owner file <> u_id user ->
  find (download_access_query now id (u_id user)) (shares w) = None ->
  downloadFile now req id w
  = (w, fail 403 "Access denied. You do not have download permission.").
Proof.
  intros Hreq Hfile Hne Hfind.
  unfold downloadFile, Share_findOne. rewrite Hreq, Hfile, Hfind.
  by rewrite bool_decide_eq_false_2 by done.
Qed.

(** Once the owner has revoked a principal's share of a file, that
    principal can neither view nor download the file: [getFileById] and
    [downloadFile] answer 403, at every later instant. *)
Theorem revoked_user_share_denies (req reqT : AuthRequest) (id fileId : ObjectId)
    (w : World) (user target fileOwner : IUser) (share : IShare) (file : IFile) :
  req_user req = Some user ->
  Share_findById id (shares w) = Some share ->
  s_owner share = u_id user ->
  unique_ids (shares w) ->
  at_most_one_user_share (shares w) ->
  user_share_query fileId (u_id target) share = true ->
  req_user reqT = Some target ->
  File_findById fileId (files w) = Some file ->
  User_findById (f_owner file) (users w) = Some fileOwner ->
  f_owner file <> u_id target ->
  let w1 := (revokeShare req id w).1 in
  forall now,
    getFileById now reqT fileId w1 = (w1, fail 403 "Access denied")
    /\ downloadFile now reqT fileId w1
       = (w1, fail 403 "Access denied. You do not have download permission.").
Proof.
  intros Hreq Hfind Howner Hnd Hone Hq HreqT Hfile Hfo Hne w1 now.
  pose proof (find_some_elem _ _ _ Hfind) as [Hin Hid].
  apply bool_decide_eq_true in Hid.
  assert (Hw1 : w1 = logAudit (u_id user) share_revoke
       (mkOptions (Some (s_file share)) (Some id) NoDetails
          (req_ip req) (req_userAgent req))
       (with_shares w (replace_by_id id (set_isActive false share) (shares w)))).
  { unfold w1. by rewrite (revokeShare_eq req id w user share). }
  destruct (sole_share_denied now fileId (u_id target) id
              (set_isActive false share) share (shares w)) as [Hv Hd]; try done.
  { unfold view_access_query. cbn [s_isActive set_isActive].
    by rewrite andb_false_r. }
  split.
  - apply (getFileById_denied now reqT fileId w1 target file fileOwner);
      try done; by rewrite Hw1.
  - apply (downloadFile_denied now reqT fileId w1 target file);
      try done; by rewrite Hw1.
Qed.

Lemma link_query_token k s : link_query k s = true -> s_shareLink s = Some k.
Proof.
  unfold link_query. intros H. repeat (apply andb_true_iff in H as [H ?]).
  by apply bool_decide_eq_true in H.
Qed.

(** A revoked link is dead: after the owner's [revokeShare] every
    authenticated bearer of its token gets 404 from [accessViaLink] and 403
    from [downloadViaLink], at every later instant, and nothing is
    recorded. *)
Theorem revoked_link_is_dead (req : AuthRequest) (id : ObjectId) (w : World)
    (user : IUser) (share : IShare) (shareLink : string) :
  req_user req = Some user ->
  Share_findById id (shares w) = Some share ->
  s_owner share = u_id user ->
  unique_ids (shares w) ->
  unique_links (shares w) ->
  s_shareLink share = Some shareLink ->
  let w1 := (revokeShare req id w).1 in
  forall now reqB bearer,
    req_user reqB = Some bearer ->
    accessViaLink now reqB shareLink w1
      = (w1, fail 404 "Share link not found or has been revoked")
    /\ downloadViaLink now reqB shareLink w1
      = (w1, fail 403 "Share link not found or does not have download permission").
Proof.
  intros Hreq Hfind Howner Hnd Hul Hlink w1 now reqB bearer HreqB.
  pose proof (find_some_elem _ _ _ Hfind) as [Hin Hid].
  apply bool_decide_eq_true in Hid.
  assert (Hw1 : shares w1 = replace_by_id id (set_isActive false share) (shares w)).
  { unfold w1. by rewrite (revokeShare_eq req id w user share). }
  assert (Hdead : forall x, x ∈ shares w1 -> link_query shareLink x = false).
  { intros x Hx. rewrite Hw1 in Hx.
    apply elem_of_replace_by_id in Hx as [->|[Hx Hne]].
    - unfold link_query. cbn [s_isActive set_isActive]. by rewrite andb_false_r.
    - destruct (link_query shareLink x) eqn:Hq; [|done].
      apply link_query_token in Hq.
      assert (x = share) by (by apply (Hul x share shareLink)). congruence. }
  unfold accessViaLink, downloadViaLink, Share_findOne. rewrite HreqB.
  rewrite (find_none_forall (fun s => bool_decide (s_shareLink s = Some shareLink)
            && bool_decide (s_shareType s = link_share) && s_isActive s)); [|exact Hdead].
  rewrite find_none_forall; [done|].
  intros x Hx. specialize (Hdead x Hx). unfold link_query in Hdead.
  by rewrite Hdead.
Qed.

(** Links are revoked one by one: revoking a share changes nothing for the
    bearers of any other token. [accessViaLink] and [downloadViaLink] answer
    them as they did before. *)
Theorem revokeShare_spares_other_links (req : AuthRequest) (id : ObjectId)
    (w : World) (user : IUser) (share : IShare) (other : string) :
  req_user req = Some user ->
  Share_findById id (shares w) = Some share ->
  s_owner share = u_id user ->
  unique_ids (shares w) ->
  s_shareLink share <> Some other ->
  let w1 := (revokeShare req id w).1 in
  forall now reqB,
    (accessViaLink now reqB other w1).2 = (accessViaLink now reqB other w).2
    /\ (downloadViaLink now reqB other w1).2 = (downloadViaLink now reqB other w).2.
Proof.
  intros Hreq Hfind Howner Hnd Hother w1 now reqB.
  pose proof (find_some_elem _ _ _ Hfind) as [Hin Hid].
  apply bool_decide_eq_true in Hid.
  assert (Hw1 : w1 = logAudit (u_id user) share_revoke
       (mkOptions (Some (s_file share)) (Some id) NoDetails
          (req_ip req) (req_userAgent req))
       (with_shares w (replace_by_id id (set_isActive false share) (shares w)))).
  { unfold w1. by rewrite (revokeShare_eq req id w user share). }
  assert (Hsame : forall q : IShare -> bool,
            (forall s, q s = true -> s_shareLink s = Some other) ->
            find q (shares w1) = find q (shares w)).
  { intros q Hq. rewrite Hw1.
    cbn [shares logAudit with_auditlogs with_shares]. unfold replace_by_id.
    apply find_map_same. intros x Hx. case_bool_decide as Hx_id; [|done].
    assert (x = share) by (apply (unique_ids_same (shares w)); congruence).
    subst x. split.
    - destruct (q share) eqn:H1; destruct (q (set_isActive false share)) eqn:H2;
        try done.
      + apply Hq in H1. done.
      + apply Hq in H2. done.
    - intros H1. apply Hq in H1. done. }
  assert (Hq1 : forall s, (bool_decide (s_shareLink s = Some other)
            && bool_decide (s_shareType s = link_share) && s_isActive s) = true ->
            s_shareLink s = Some other).
  { intros s H. repeat (apply andb_true_iff in H as [H ?]).
    by apply bool_decide_eq_true in H. }
  assert (Hq2 : forall s, (bool_decide (s_shareLink s = Some other)
            && bool_decide (s_shareType s = link_share) && s_isActive s
            && bool_decide (s_permission s = download)) = true ->
            s_shareLink s = Some other).
  { intros s H. repeat (apply andb_true_iff in H as [H ?]).
    by apply bool_decide_eq_true in H. }
  unfold accessViaLink, downloadViaLink, Share_findOne.
  rewrite (Hsame _ Hq1), (Hsame _ Hq2).
  rewrite Hw1. cbn [files users logAudit with_auditlogs with_shares].
  destruct (req_user reqB) as [bearer|]; [|done].
  split.
  - destruct (find _ (shares w)) as [s|]; [|done].
    destruct (isExpired now (s_expiresAt s)); [done|].
    by destruct (File_findById (s_file s) (files w)).
  - destruct (find _ (shares w)) as [s|]; [|done].
    destruct (isExpired now (s_expiresAt s)); [done|].
    by destruct (File_findById (s_file s) (files w)).
Qed.

(** *** Re-granting *)

Lemma shareWithUser_regrant_eq now fresh req fileId userId permission expiresAt
    w user file existing :
  req_errors req = [] ->
  req_user req = Some user ->
  File_findById fileId (files w) = Some file ->
  f_owner file = u_id user ->
  userId <> u_id user ->
  unique_ids (shares w) ->
  Share_findOne (user_share_query fileId userId) (shares w) = Some existing ->
  shareWithUser now fresh req fileId userId permission expiresAt w
  = (with_shares w
       (replace_by_id (s_id existing)
          (regrant now permission expiresAt existing) (shares w)),
     Json 200 true "Share updated successfully"
       (ShareData (regrant now permission expiresAt existing))).
Proof.
  intros Herr Hreq Hfile Howner Hself Hnd Hfind.
  pose proof (find_some_elem _ _ _ Hfind) as [Hin _].
  unfold shareWithUser. rewrite Herr, Hreq, Hfile, Howner, Hfind.
  rewrite bool_decide_eq_true_2 by done.
  rewrite bool_decide_eq_false_2 by done. cbn [negb].
  by rewrite (regrant_save now permission expiresAt existing (shares w) Hnd Hin).
Qed.



(** *** Expirations that are not in the future *)


(** Re-granting does not revive an expired share unless a usable expiration
    comes with it: when the stored share has expired and the grant carries
    no expiration that parses to a future instant, [shareWithUser] answers
    200 "Share updated successfully" and the principal is still refused by
    [getFileById] and [downloadFile]. *)
Theorem regrant_of_expired_share_stays_expired (now : Date) (fresh : ObjectId)
    (req reqT : AuthRequest) (fileId : ObjectId) (permission : option Permission)
    (expiresAt : option string) (w : World) (user target : IUser) (file : IFile)
    (existing : IShare) (e : Date) :
  req_errors req = [] ->
  req_user req = Some user ->
  File_findById fileId (files w) = Some file ->
  f_owner file = u_id user ->
  u_id target <> u_id user ->
  User_findById (u_id user) (users w) = Some user ->
  unique_ids (shares w) ->
  at_most_one_user_share (shares w) ->
  Share_findOne (user_share_query fileId (u_id target)) (shares w) = Some existing ->
  s_expiresAt existing = Some e ->
  e <= now ->
  parseExpiration now expiresAt = None ->
  req_user reqT = Some target ->
  let r := shareWithUser now fresh req fileId (u_id target) permission expiresAt w in
  r.2 = Json 200 true "Share updated successfully"
          (ShareData (regrant now permission expiresAt existing))
  /\ s_isActive (regrant now permission expiresAt existing) = true
  /\ getFileById now reqT fileId r.1 = (r.1, fail 403 "Access denied")
  /\ downloadFile now reqT fileId r.1
     = (r.1, fail 403 "Access denied. You do not have download permission.").
Proof.
  intros Herr Hreq Hfile Howner Hself Huser Hnd Hone Hfind He Hle Hparse HreqT r.
  pose proof (find_some_elem _ _ _ Hfind) as [Hin Hq].
  assert (Hr := shareWithUser_regrant_eq now fresh req fileId (u_id target)
                  permission expiresAt w user file existing
                  Herr Hreq Hfile Howner Hself Hnd Hfind).
  fold r in Hr.
  destruct (sole_share_denied now fileId (u_id target) (s_id existing)
              (regrant now permission expiresAt existing) existing (shares w))
    as [Hv Hd]; try done.
  { unfold view_access_query, unexpired_query, regrant. cbn [s_expiresAt].
    rewrite Hparse, He. cbn [or_else].
    assert ((e >? now) = false) as -> by (rewrite Z.gtb_ltb; apply Z.ltb_ge; lia).
    by rewrite andb_false_r. }
  split; [by rewrite Hr|]. split; [done|]. rewrite Hr. cbn [fst]. split.
  - apply (getFileById_denied now reqT fileId _ target file user); try done.
    + cbn [users with_shares]. by rewrite Howner.
    + congruence.
  - apply (downloadFile_denied now reqT fileId _ target file); try done.
    congruence.
Qed.

Lemma find_replace_by_id (q : IShare -> bool) doc e l :
  unique_ids l -> find q l = Some e -> q doc = true ->
  find q (replace_by_id (s_id e) doc l) = Some doc.
Proof.
  intros Hnd Hfind Hdoc.
  pose proof (find_some_elem _ _ _ Hfind) as [Hin _].
  unfold replace_by_id.
  induction l as [|a r IH]; simpl in *; [discriminate|].
  case_bool_decide as Ha.
  - simpl. by rewrite Hdoc.
  - destruct (q a) eqn:Hqa; [congruence|]. simpl.
    apply IH.
    + unfold unique_ids in *. simpl in Hnd. by apply NoDup_cons in Hnd as [_ ?].
    + done.
    + apply elem_of_cons in Hin as [->|Hin]; [done|done].
Qed.

(** Revoking and granting again: after the owner revokes a principal's
    share the principal is refused, and after the owner grants the file
    again, with an expiration that is in the future or to a share that had
    none, the principal can view the file once more. The grant re-uses the
    revoked record: the store has as many shares as before. *)
Theorem regrant_after_revoke_restores_access (now : Date) (fresh : ObjectId)
    (req reqT : AuthRequest) (fileId : ObjectId) (permission : option Permission)
    (expiresAt : option string) (w : World) (user target : IUser) (file : IFile)
    (share : IShare) :
  req_errors req = [] ->
  req_user req = Some user ->
  File_findById fileId (files w) = Some file ->
  f_owner file = u_id user ->
  u_id target <> u_id user ->
  User_findById (u_id user) (users w) = Some user ->
  unique_ids (shares w) ->
  at_most_one_user_share (shares w) ->
  Share_findOne (user_share_query fileId (u_id target)) (shares w) = Some share ->
  s_owner share = u_id user ->
  unexpired_query now (regrant now permission expiresAt share) = true ->
  req_user reqT = Some target ->
  let w1 := (revokeShare req (s_id share) w).1 in
  let r2 := shareWithUser now fresh req fileId (u_id target) permission expiresAt w1 in
  (getFileById now reqT fileId w1).2 = fail 403 "Access denied"
  /\ r2.2 = Json 200 true "Share updated successfully"
            (ShareData (regrant now permission expiresAt share))
  /\ length (shares r2.1) = length (shares w)
  /\ (getFileById now reqT fileId r2.1).2 = Json 200 true "" (FileData file user).
Proof.
  intros Herr Hreq Hfile Howner Hself Huser Hnd Hone Hfind Hso Hfuture HreqT w1 r2.
  pose proof (find_some_elem _ _ _ Hfind) as [Hin Hq].
  assert (Hbyid : Share_findById (s_id share) (shares w) = Some share).
  { unfold Share_findById.
    destruct (find_is_some (fun s => bool_decide (s_id s = s_id share))
                (shares w) share Hin) as [y [Hy Hyid]];
      [by apply bool_decide_eq_true_2|].
    rewrite Hy. f_equal. apply bool_decide_eq_true in Hyid.
    apply find_some_elem in Hy as [Hyin _].
    by apply (unique_ids_same (shares w)). }
  assert (Hw1 : w1 = logAudit (u_id user) share_revoke
       (mkOptions (Some (s_file share)) (Some (s_id share)) NoDetails
          (req_ip req) (req_userAgent req))
       (with_shares w (replace_by_id (s_id share) (set_isActive false share)
                         (shares w)))).
  { unfold w1. by rewrite (revokeShare_eq req (s_id share) w user share). }
  assert (Hs1 : shares w1
                = replace_by_id (s_id share) (set_isActive false share) (shares w))
    by (by rewrite Hw1).
  assert (Hf1 : files w1 = files w) by (by rewrite Hw1).
  assert (Hu1 : users w1 = users w) by (by rewrite Hw1).
  assert (Hne : f_owner file <> u_id target) by congruence.
  split.
  { destruct (sole_share_denied now fileId (u_id target) (s_id share)
                (set_isActive false share) share (shares w)) as [Hv _]; try done.
    { unfold view_access_query. cbn [s_isActive set_isActive].
      by rewrite andb_false_r. }
    rewrite (getFileById_denied now reqT fileId w1 target file user); try done.
    - by rewrite Hf1.
    - by rewrite Hu1, Howner.
    - by rewrite Hs1. }
  assert (Hfind1 : Share_findOne (user_share_query fileId (u_id target)) (shares w1)
                   = Some (set_isActive false share)).
  { rewrite Hs1. unfold Share_findOne. by apply find_replace_by_id. }
  assert (Hnd1 : unique_ids (shares w1)).
  { rewrite Hs1. by apply replace_by_id_unique_ids. }
  assert (Hr2 := shareWithUser_regrant_eq now fresh req fileId (u_id target)
                   permission expiresAt w1 user file (set_isActive false share)
                   Herr Hreq).
  rewrite Hf1 in Hr2. specialize (Hr2 Hfile Howner Hself Hnd1 Hfind1).
  fold r2 in Hr2.
  change (regrant now permission expiresAt (set_isActive false share))
    with (regrant now permission expiresAt share) in Hr2.
  split; [by rewrite Hr2|]. split.
  { rewrite Hr2. cbn [fst shares with_shares]. unfold replace_by_id.
    rewrite length_map, Hs1. unfold replace_by_id. by rewrite length_map. }
  assert (Hin2 : regrant now permission expiresAt share ∈ shares r2.1).
  { rewrite Hr2. cbn [fst shares with_shares].
    apply (replace_by_id_has _ _ _ (set_isActive false share)); [|done].
    rewrite Hs1. by apply (replace_by_id_has _ _ _ share). }
  assert (Hv2 : view_access_query now fileId (u_id target)
                  (regrant now permission expiresAt share) = true).
  { unfold view_access_query. rewrite Hfuture.
    unfold user_share_query in Hq.
    apply andb_true_iff in Hq as [Hq Ht]. apply andb_true_iff in Hq as [Hf Hu].
    cbn [s_file s_sharedWith s_shareType s_isActive regrant].
    by rewrite Hf, Hu, Ht. }
  destruct (find_is_some _ _ _ Hin2 Hv2) as [y [Hy _]].
  unfold getFileById, Share_findOne. rewrite HreqT, Hy.
  rewrite Hr2. cbn [fst files users with_shares]. rewrite Hf1, Hu1, Hfile, Howner, Huser.
  by rewrite bool_decide_eq_false_2 by congruence.
Qed.

(** *** Who can change what *)

Lemma Share_save_keeps doc l l' x :
  unique_ids l -> Share_save doc l = Some l' ->
  x ∈ l -> s_id x <> s_id doc -> x ∈ l'.
Proof.
  intros Hnd Hsave Hin Hne.
  assert (Hex : exists s, s ∈ l /\ s_id s = s_id doc).
  { clear -Hsave. revert l' Hsave. induction l as [|a r IH]; intros l'; simpl;
      [discriminate|].
    case_bool_decide as Ha.
    - intros _. exists a. split; [apply list_elem_of_here|done].
    - destruct (Share_save doc r) as [r'|] eqn:Hr; [|discriminate].
      intros _. destruct (IH r' eq_refl) as [s [Hs Hid]].
      exists s. split; [by apply list_elem_of_further|done]. }
  rewrite (Share_save_map doc l Hnd Hex) in Hsave. injection Hsave as <-.
  by apply (replace_by_id_keeps (s_id doc) doc l x).
Qed.

(** Nobody changes a share they do not own. Whatever a principal asks of
    the five mutating handlers, with whatever arguments, a stored share
    owned by someone else is still stored, unchanged, afterwards. The
    store is assumed to satisfy what the handlers themselves maintain:
    unique ids, and shares that carry the owner of their file. *)
Theorem foreign_shares_untouched (req : AuthRequest) (w : World) (user : IUser)
    (s : IShare) :
  unique_ids (shares w) ->
  shares_follow_files w ->
  req_user req = Some user ->
  s ∈ shares w ->
  s_owner s <> u_id user ->
  (forall id, s ∈ shares (revokeShare req id w).1)
  /\ (forall now id expiresAt,
        s ∈ shares (updateShareExpiration now req id expiresAt w).1)
  /\ (forall now fresh fileId userId permission expiresAt,
        s ∈ shares (shareWithUser now fresh req fileId userId permission
                      expiresAt w).1)
  /\ (forall now fresh uuid frontend fileId permission expiresAt,
        s ∈ shares (shareViaLink now fresh uuid frontend req fileId permission
                      expiresAt w).1)
  /\ (forall id, s ∈ shares (deleteFile req id w).1).
Proof.
  intros Hnd Hfollow Hreq Hin Hforeign.
  assert (Hother : forall sh, sh ∈ shares w -> s_owner sh = u_id user ->
                              s_id s <> s_id sh).
  { intros sh Hsh Hown Hid.
    assert (s = sh) by (by apply (unique_ids_same (shares w))). congruence. }
  split; [|split; [|split; [|split]]].
  - intros id. unfold revokeShare. rewrite Hreq.
    destruct (Share_findById id (shares w)) as [sh|] eqn:Hfind; [|exact Hin].
    case_bool_decide as Hown; cbn [negb]; [|exact Hin].
    destruct (Share_save _ (shares w)) as [l|] eqn:Hsave; [|exact Hin].
    cbn [fst shares logAudit with_auditlogs with_shares].
    apply (Share_save_keeps _ _ _ _ Hnd Hsave Hin).
    apply find_some_elem in Hfind as [Hsh _]. exact (Hother sh Hsh Hown).
  - intros now id expiresAt. unfold updateShareExpiration. rewrite Hreq.
    destruct (Share_findById id (shares w)) as [sh|] eqn:Hfind; [|exact Hin].
    case_bool_decide as Hown; cbn [negb]; [|exact Hin].
    destruct (Share_save _ (shares w)) as [l|] eqn:Hsave; [|exact Hin].
    cbn [fst shares with_shares].
    apply (Share_save_keeps _ _ _ _ Hnd Hsave Hin).
    apply find_some_elem in Hfind as [Hsh _]. exact (Hother sh Hsh Hown).
  - intros now fresh fileId userId permission expiresAt. unfold shareWithUser.
    rewrite Hreq. destruct (req_errors req); [|exact Hin].
    destruct (File_findById fileId (files w)) as [file|] eqn:Hfile; [|exact Hin].
    case_bool_decide as Hown; cbn [negb]; [|exact Hin].
    case_bool_decide; [exact Hin|].
    destruct (Share_findOne _ (shares w)) as [e|] eqn:Hfind.
    + destruct (Share_save _ (shares w)) as [l|] eqn:Hsave; [|exact Hin].
      cbn [fst shares with_shares].
      apply (Share_save_keeps _ _ _ _ Hnd Hsave Hin).
      apply find_some_elem in Hfind as [He Hq].
      change (s_id s <> s_id e). apply (Hother e He).
      destruct (Hfollow e He) as [f [Hf Hfo]].
      unfold user_share_query in Hq.
      apply andb_true_iff in Hq as [Hq _]. apply andb_true_iff in Hq as [Hq _].
      apply bool_decide_eq_true in Hq. rewrite Hq, Hfile in Hf.
      injection Hf as <-. congruence.
    + unfold Share_create. destruct (duplicate_key _ _); [exact Hin|].
      cbn [fst shares logAudit with_auditlogs with_shares].
      apply elem_of_app. by left.
  - intros now fresh uuid frontend fileId permission expiresAt.
    unfold shareViaLink. rewrite Hreq. destruct (req_errors req); [|exact Hin].
    destruct (File_findById fileId (files w)) as [file|]; [|exact Hin].
    destruct (negb _); [exact Hin|].
    unfold Share_create. destruct (duplicate_key _ _); [exact Hin|].
    cbn [fst shares logAudit with_auditlogs with_shares].
    apply elem_of_app. by left.
  - intros id. unfold deleteFile. rewrite Hreq.
    destruct (File_findById id (files w)) as [file|] eqn:Hfile; [|exact Hin].
    case_bool_decide as Hown; cbn [negb]; [|exact Hin].
    cbn [fst shares logAudit with_auditlogs].
    apply list_elem_of_In, filter_In. split; [by apply list_elem_of_In|].
    case_bool_decide as Hsf; [|done]. exfalso.
    destruct (Hfollow s Hin) as [f [Hf Hfo]].
    rewrite Hsf, Hfile in Hf. injection Hf as <-. congruence.
Qed.

(** *** What access always rests on *)

(** The access handlers never open a file without a reason in the store.
    [getFileById] answers 200 only to the owner or to the target of a
    stored user-kind share of that file that is active and unexpired;
    [downloadFile] sends the file only to the owner or to the target of
    such a share with the [download] permission; [accessViaLink] answers
    200 only for the token of a stored, active, unexpired link-kind share;
    [downloadViaLink] sends only when that share has the [download]
    permission. All four require an authenticated principal. *)
Theorem access_is_sound (now : Date) (req : AuthRequest) (w : World) :
  (forall id t d,
     (getFileById now req id w).2 = Json 200 true t d ->
     exists user file,
       req_user req = Some user /\ File_findById id (files w) = Some file
       /\ (f_owner file = u_id user
           \/ exists s, s ∈ shares w /\ view_access_query now id (u_id user) s = true))
  /\ (forall id p n,
     (downloadFile now req id w).2 = SendFile p n ->
     exists user file,
       req_user req = Some user /\ File_findById id (files w) = Some file
       /\ p = f_path file /\ is_Some (disk w !! p)
       /\ (f_owner file = u_id user
           \/ exists s, s ∈ shares w
                        /\ download_access_query now id (u_id user) s = true))
  /\ (forall shareLink t d,
     (accessViaLink now req shareLink w).2 = Json 200 true t d ->
     exists user s,
       req_user req = Some user /\ s ∈ shares w
       /\ link_query shareLink s = true /\ isExpired now (s_expiresAt s) = false)
  /\ (forall shareLink p n,
     (downloadViaLink now req shareLink w).2 = SendFile p n ->
     exists user s,
       req_user req = Some user /\ s ∈ shares w
       /\ download_link_query shareLink s = true
       /\ isExpired now (s_expiresAt s) = false).
Proof.
  split; [|split; [|split]].
  - intros id t d. unfold getFileById.
    destruct (req_user req) as [user|]; [|discriminate].
    destruct (File_findById id (files w)) as [file|]; [|discriminate].
    destruct (User_findById (f_owner file) (users w)) as [owner|] eqn:Ho;
      [|discriminate].
    apply find_some_elem in Ho as [_ Hoid]. apply bool_decide_eq_true in Hoid.
    case_bool_decide as Hown.
    + intros _. exists user, file. repeat (split; [done|]). left. congruence.
    + destruct (Share_findOne _ (shares w)) as [s|] eqn:Hs; [|discriminate].
      intros _. exists user, file. repeat (split; [done|]). right.
      exists s. by apply find_some_elem in Hs.
  - intros id p n. unfold downloadFile.
    destruct (req_user req) as [user|]; [|discriminate].
    destruct (File_findById id (files w)) as [file|]; [|discriminate].
    case_bool_decide as Hown.
    + destruct (disk w !! f_path file) eqn:Hd; [|discriminate].
      intros [= <- _]. exists user, file. rewrite Hd.
      repeat (split; [done || by eexists|]). by left.
    + destruct (Share_findOne _ (shares w)) as [s|] eqn:Hs; [|discriminate].
      destruct (disk w !! f_path file) eqn:Hd; [|discriminate].
      intros [= <- _]. exists user, file. rewrite Hd.
      repeat (split; [done || by eexists|]). right.
      exists s. by apply find_some_elem in Hs.
  - intros shareLink t d. unfold accessViaLink.
    destruct (req_user req) as [user|]; [|discriminate].
    destruct (Share_findOne _ (shares w)) as [s|] eqn:Hs; [|discriminate].
    destruct (isExpired now (s_expiresAt s)) eqn:He; [discriminate|].
    intros _. exists user, s. apply find_some_elem in Hs as [Hin Hq]. done.
  - intros shareLink p n. unfold downloadViaLink.
    destruct (req_user req) as [user|]; [|discriminate].
    destruct (Share_findOne _ (shares w)) as [s|] eqn:Hs; [|discriminate].
    destruct (isExpired now (s_expiresAt s)) eqn:He; [discriminate|].
    intros _. exists user, s. apply find_some_elem in Hs as [Hin Hq]. done.
Qed.

(** *** Invariants of the store *)

Lemma replace_store_ok w w' e doc :
  store_ok w -> e ∈ shares w ->
  s_id doc = s_id e -> s_file doc = s_file e -> s_owner doc = s_owner e ->
  s_shareType doc = s_shareType e -> s_sharedWith doc = s_sharedWith e ->
  s_shareLink doc = s_shareLink e ->
  files w' = files w ->
  shares w' = replace_by_id (s_id e) doc (shares w) ->
  store_ok w'.
Proof.
  intros (Hnd & Hul & Hone & Hfollow) He Hid Hfile Hown Htype Hwith Hlink Hf Hs.
  unfold store_ok. rewrite Hs. split; [|split; [|split]].
  - by apply replace_by_id_unique_ids.
  - intros x y k Hx Hy Hkx Hky.
    apply elem_of_replace_by_id in Hx as [->|[Hx Hxne]];
      apply elem_of_replace_by_id in Hy as [->|[Hy Hyne]]; try done.
    + assert (e = y) by (apply (Hul e y k); congruence). congruence.
    + assert (x = e) by (apply (Hul x e k); congruence). congruence.
    + by apply (Hul x y k).
  - intros f u. unfold user_share_count, replace_by_id. rewrite <- Hid.
    rewrite (filter_map_replace (user_share_query f u) doc e); try done.
    + apply Hone.
    + unfold user_share_query. by rewrite Hfile, Hwith, Htype.
  - intros x Hx. rewrite Hs in Hx. rewrite Hf.
    apply elem_of_replace_by_id in Hx as [->|[Hx _]]; [|by apply Hfollow].
    rewrite Hfile, Hown. by apply Hfollow.
Qed.

Lemma duplicate_key_false_link doc l t s :
  duplicate_key doc l = false -> s_shareLink doc = Some t -> s ∈ l ->
  s_shareLink s <> Some t.
Proof.
  unfold duplicate_key. intros Hdup Hdoc Hin Hs.
  assert (Hex : existsb (fun s0 => bool_decide (s_id s0 = s_id doc)
            || match s_shareLink doc with
               | Some t0 => bool_decide (s_shareLink s0 = Some t0)
               | None => false
               end) l = true).
  { apply existsb_exists. exists s. split; [by apply list_elem_of_In|].
    rewrite Hdoc. rewrite (bool_decide_eq_true_2 (s_shareLink s = Some t)) by done.
    apply orb_true_r. }
  congruence.
Qed.

Lemma append_store_ok w w' doc l' :
  store_ok w -> Share_create doc (shares w) = Some l' ->
  (exists f, File_findById (s_file doc) (files w) = Some f /\ f_owner f = s_owner doc) ->
  (forall f u, user_share_query f u doc = true ->
               user_share_count f u (shares w) = 0%nat) ->
  files w' = files w -> shares w' = l' ->
  store_ok w'.
Proof.
  intros (Hnd & Hul & Hone & Hfollow) Hcreate Hdoc Hcount Hf Hs.
  pose proof (Share_create_unique_ids _ _ _ Hnd Hcreate) as Hnd'.
  unfold Share_create in Hcreate.
  destruct (duplicate_key doc (shares w)) eqn:Hdup; [discriminate|].
  injection Hcreate as <-. unfold store_ok. rewrite Hs.
  split; [done|]. split; [|split].
  - intros x y k Hx Hy Hkx Hky.
    apply elem_of_app in Hx as [Hx|Hx]; apply elem_of_app in Hy as [Hy|Hy].
    + by apply (Hul x y k).
    + apply list_elem_of_singleton in Hy as ->.
      by destruct (duplicate_key_false_link doc (shares w) k x).
    + apply list_elem_of_singleton in Hx as ->.
      by destruct (duplicate_key_false_link doc (shares w) k y).
    + apply list_elem_of_singleton in Hx as ->.
      by apply list_elem_of_singleton in Hy as ->.
  - intros f u. unfold user_share_count. rewrite List.filter_app, length_app.
    simpl. destruct (user_share_query f u doc) eqn:Hq; simpl.
    + specialize (Hcount f u Hq). unfold user_share_count in Hcount. lia.
    + specialize (Hone f u). unfold user_share_count in Hone. lia.
  - intros x Hx. rewrite Hs in Hx. rewrite Hf.
    apply elem_of_app in Hx as [Hx|Hx]; [by apply Hfollow|].
    by apply list_elem_of_singleton in Hx as ->.
Qed.

Lemma File_findById_deleteOne k id l :
  k <> id -> File_findById k (File_deleteOne id l) = File_findById k l.
Proof.
  intros Hne. unfold File_findById. induction l as [|a r IH]; simpl; [done|].
  case_bool_decide as Ha.
  - by rewrite bool_decide_eq_false_2 by congruence.
  - simpl. by rewrite IH.
Qed.

Lemma NoDup_map_filter {A B} (f : A -> B) (q : A -> bool) (l : list A) :
  NoDup (map f l) -> NoDup (map f (List.filter q l)).
Proof.
  induction l as [|a r IH]; simpl; intros Hnd; [done|].
  apply NoDup_cons in Hnd as [Hnotin Hnd].
  destruct (q a); simpl; [|by apply IH].
  apply NoDup_cons. split; [|by apply IH].
  intros Hin. apply Hnotin. apply list_elem_of_In, in_map_iff in Hin as [x [Hx Hin]].
  apply filter_In in Hin as [Hin _].
  apply list_elem_of_In, in_map_iff. by exists x.
Qed.

Lemma filter_filter_length {A} (p q : A -> bool) (l : list A) :
  (length (List.filter p (List.filter q l)) <= length (List.filter p l))%nat.
Proof.
  induction l as [|a r IH]; simpl; [done|].
  destruct (q a), (p a) eqn:Hp; simpl; rewrite ?Hp; simpl; lia.
Qed.

(** One [shareWithUser] call, run from its first store operation to its
    last with nothing in between, keeps the store well formed. *)
Lemma shareWithUser_store_ok now fresh req fileId userId permission expiresAt w :
  store_ok w ->
  store_ok (shareWithUser now fresh req fileId userId permission expiresAt w).1.
Proof.
  intros Hok. pose proof Hok as (Hnd & Hul & Hone & Hfollow).
  unfold shareWithUser.
  destruct (req_errors req); [|exact Hok].
  destruct (req_user req) as [user|]; [|exact Hok].
  destruct (File_findById fileId (files w)) as [file|] eqn:Hfile; [|exact Hok].
  case_bool_decide as Hown; cbn [negb]; [|exact Hok].
  case_bool_decide; [exact Hok|].
  destruct (Share_findOne _ (shares w)) as [e|] eqn:Hfind.
  - apply find_some_elem in Hfind as [He _].
    rewrite (regrant_save now permission expiresAt e (shares w) Hnd He).
    by apply (replace_store_ok w _ e (regrant now permission expiresAt e)).
  - destruct (Share_create _ (shares w)) as [l|] eqn:Hcreate; [|exact Hok].
    apply (append_store_ok w _ _ l Hok Hcreate); try done.
    + exists file. by split.
    + intros f u Hq. unfold user_share_query in Hq. cbn in Hq.
      apply andb_true_iff in Hq as [Hq _]. apply andb_true_iff in Hq as [Hf Hu].
      apply bool_decide_eq_true in Hf, Hu. injection Hu as <-. subst f.
      unfold Share_findOne in Hfind. apply find_none_filter in Hfind.
      unfold user_share_count. by rewrite Hfind.
Qed.

(** Served one at a time, the handlers that write shares keep the store
    well formed. Each handler call below is one request run from its first
    store operation to its last with no other request's store operation in
    between; for such a call, whatever the request, ids and link tokens
    stay unique, no (file, principal) pair gets a second user-kind share,
    and every share still names a stored file and carries its owner. The
    same holds after two [shareWithUser] requests under the schedule that
    serves the first to its end and then the second. The statement does not
    extend to requests whose store operations interleave. *)
Theorem store_invariants_kept (req : AuthRequest) (w : World) :
  store_ok w ->
  (forall now fresh fileId userId permission expiresAt,
     store_ok (shareWithUser now fresh req fileId userId permission expiresAt w).1)
  /\ (forall now fresh uuid frontend fileId permission expiresAt,
     store_ok (shareViaLink now fresh uuid frontend req fileId permission
                 expiresAt w).1)
  /\ (forall id, store_ok (revokeShare req id w).1)
  /\ (forall now id expiresAt,
     store_ok (updateShareExpiration now req id expiresAt w).1)
  /\ (forall id, store_ok (deleteFile req id w).1)
  /\ (forall g1 g2,
     let r1 := shareWithUser_of g1 w in
     let r2 := shareWithUser_of g2 r1.1 in
     interleave serial_schedule g1 g2 AtFindFile AtFindFile w
       = (r2.1, Finished r1.2, Finished r2.2)
     /\ store_ok r1.1 /\ store_ok r2.1).
Proof.
  intros Hok. pose proof Hok as (Hnd & Hul & Hone & Hfollow).
  split; [|split; [|split; [|split; [|split]]]].
  - intros now fresh fileId userId permission expiresAt.
    by apply shareWithUser_store_ok.
  - intros now fresh uuid frontend fileId permission expiresAt. unfold shareViaLink.
    destruct (req_errors req); [|exact Hok].
    destruct (req_user req) as [user|]; [|exact Hok].
    destruct (File_findById fileId (files w)) as [file|] eqn:Hfile; [|exact Hok].
    case_bool_decide as Hown; cbn [negb]; [|exact Hok].
    destruct (Share_create _ (shares w)) as [l|] eqn:Hcreate; [|exact Hok].
    apply (append_store_ok w _ _ l Hok Hcreate); try done.
    + exists file. by split.
    + intros f u Hq. unfold user_share_query in Hq. cbn in Hq.
      by rewrite andb_false_r in Hq.
  - intros id. unfold revokeShare.
    destruct (req_user req) as [user|]; [|exact Hok].
    destruct (Share_findById id (shares w)) as [sh|] eqn:Hfind; [|exact Hok].
    case_bool_decide as Hown; cbn [negb]; [|exact Hok].
    apply find_some_elem in Hfind as [Hsh Hid].
    rewrite (Share_save_map _ (shares w) Hnd); [|by exists sh].
    by apply (replace_store_ok w _ sh (set_isActive false sh)).
  - intros now id expiresAt. unfold updateShareExpiration.
    destruct (req_user req) as [user|]; [|exact Hok].
    destruct (Share_findById id (shares w)) as [sh|] eqn:Hfind; [|exact Hok].
    case_bool_decide as Hown; cbn [negb]; [|exact Hok].
    apply find_some_elem in Hfind as [Hsh Hid].
    rewrite (Share_save_map _ (shares w) Hnd); [|by exists sh].
    by apply (replace_store_ok w _ sh
                (set_expiresAt (or_else (parseExpiration now expiresAt) None) sh)).
  - intros id. unfold deleteFile.
    destruct (req_user req) as [user|]; [|exact Hok].
    destruct (File_findById id (files w)) as [file|] eqn:Hfile; [|exact Hok].
    case_bool_decide as Hown; cbn [negb]; [|exact Hok].
    pose proof (find_some_elem _ _ _ Hfile) as [_ Hfid].
    apply bool_decide_eq_true in Hfid.
    unfold store_ok. cbn [fst shares files logAudit with_auditlogs].
    split; [|split; [|split]].
    + by apply NoDup_map_filter.
    + intros x y k Hx Hy. apply list_elem_of_In, filter_In in Hx as [Hx _].
      apply list_elem_of_In, filter_In in Hy as [Hy _].
      apply (Hul x y k); by apply list_elem_of_In.
    + intros f u. unfold user_share_count.
      etrans; [apply filter_filter_length|apply Hone].
    + unfold shares_follow_files.
      cbn [fst shares files logAudit with_auditlogs users auditlogs disk].
      intros x Hx. apply list_elem_of_In, filter_In in Hx as [Hx Hq].
      apply negb_true_iff, bool_decide_eq_false in Hq.
      rewrite File_findById_deleteOne by congruence.
      by apply Hfollow, list_elem_of_In.
  - intros g1 g2 r1 r2.
    assert (Hok1 : store_ok r1.1) by by apply shareWithUser_store_ok.
    assert (Hok2 : store_ok r2.1) by by apply shareWithUser_store_ok.
    split; [|done].
    unfold serial_schedule. rewrite interleave_first, grant_run_alone.
    by rewrite interleave_second, grant_run_alone.
Qed.

(** *** The audit trail and the read handlers *)

Ltac handler_cases :=
  repeat first [case_match | case_bool_decide]; cbn [fst negb] in *.

Ltac audit_step :=
  first
    [ by exists []; rewrite app_nil_r; split; [reflexivity | simpl; lia]
    | by eexists [_]; split; [reflexivity | simpl; lia] ].

(** The audit trail is append-only: no handler removes or rewrites an
    entry. Every handler leaves the audit collection as it was or adds one
    entry at its end. *)
Theorem audit_is_append_only (now : Date) (req : AuthRequest) (w : World) :
  (forall fresh fileId userId permission expiresAt,
     audit_extends w (shareWithUser now fresh req fileId userId permission
                        expiresAt w).1)
  /\ (forall fresh uuid frontend fileId permission expiresAt,
     audit_extends w (shareViaLink now fresh uuid frontend req fileId permission
                        expiresAt w).1)
  /\ (forall shareLink, audit_extends w (accessViaLink now req shareLink w).1)
  /\ (forall shareLink, audit_extends w (downloadViaLink now req shareLink w).1)
  /\ (forall id, audit_extends w (revokeShare req id w).1)
  /\ (forall id expiresAt,
     audit_extends w (updateShareExpiration now req id expiresAt w).1)
  /\ (forall id, audit_extends w (getFileById now req id w).1)
  /\ (forall id, audit_extends w (downloadFile now req id w).1)
  /\ (forall id, audit_extends w (deleteFile req id w).1).
Proof.
  repeat split; intros;
    unfold shareWithUser, shareViaLink, accessViaLink, downloadViaLink,
      revokeShare, updateShareExpiration, getFileById, downloadFile, deleteFile,
      Share_create;
    handler_cases; unfold audit_extends;
    cbn [fst auditlogs logAudit with_auditlogs with_shares]; audit_step.
Qed.

(** The four read handlers change nothing but the audit trail: users, files,
    shares and the disk are after the call what they were before it, also
    when access is granted. *)
Theorem read_handlers_change_nothing (now : Date) (req : AuthRequest) (w : World) :
  let same (w' : World) :=
    users w' = users w /\ files w' = files w /\ shares w' = shares w
    /\ disk w' = disk w in
  (forall id, same (getFileById now req id w).1)
  /\ (forall id, same (downloadFile now req id w).1)
  /\ (forall shareLink, same (accessViaLink now req shareLink w).1)
  /\ (forall shareLink, same (downloadViaLink now req shareLink w).1).
Proof.
  repeat split; intros;
    unfold getFileById, downloadFile, accessViaLink, downloadViaLink;
    handler_cases; reflexivity.
Qed.

(** *** Pagination *)

Lemma ceil_div_bounds t L :
  0 < L -> (ceil_div t L - 1) * L < t <= ceil_div t L * L.
Proof.
  intros HL. unfold ceil_div.
  pose proof (Z.div_mod (- t) L) as Hdm.
  pose proof (Z.mod_pos_bound (- t) L HL) as Hb. nia.
Qed.

Lemma paginate_spec {A} (page limit : Z) (l : list A) :
  1 <= page -> 1 <= limit ->
  exists pg,
    paginate page limit l = Some pg
    /\ total pg = Z.of_nat (length l)
    /\ totalPages pg = ceil_div (Z.of_nat (length l)) limit
    /\ (length (items pg) <= Z.to_nat limit)%nat
    /\ (forall j, (j < Z.to_nat limit)%nat ->
          items pg !! j = l !! (Z.to_nat ((page - 1) * limit) + j)%nat)
    /\ (totalPages pg < page -> items pg = [])
    /\ (page <= totalPages pg -> items pg <> []).
Proof.
  intros Hp HL. unfold paginate, skip_limit.
  assert (Hskip : 0 <= (page - 1) * limit) by nia.
  assert (((page - 1) * limit <? 0) = false) as -> by (apply Z.ltb_ge; lia).
  assert ((limit =? 0) = false) as -> by (apply Z.eqb_neq; lia).
  rewrite Z.abs_eq by lia.
  eexists. split; [reflexivity|]. cbn [total totalPages items].
  pose proof (ceil_div_bounds (Z.of_nat (length l)) limit ltac:(lia)) as Hc.
  split; [done|]. split; [done|]. split; [|split; [|split]].
  - rewrite length_take. lia.
  - intros j Hj. rewrite lookup_take_lt by done. by rewrite lookup_drop.
  - intros Hlast. rewrite drop_ge; [by destruct (Z.to_nat limit)|]. nia.
  - intros Hin Hnil. apply (f_equal length) in Hnil.
    rewrite length_take, length_drop in Hnil. simpl in Hnil. nia.
Qed.

(** The pages of a file's audit log. For a page number and a page size of
    at least 1, [getFileAuditLogs] returns at most [limit] entries; entry
    [j] of page [page] is entry [(page - 1) * limit + j] of the file's
    entries taken newest first, so the pages neither overlap nor skip an
    entry; [total] counts the file's entries, [totalPages] is the least
    number of pages that holds them, pages up to it are non-empty and
    pages beyond it are empty. *)
Theorem audit_log_pages (fileId : ObjectId) (page limit : Z) (w : World) :
  1 <= page -> 1 <= limit ->
  let entries :=
    newest_first
      (map (fun a => (a, User_findById (a_user a) (users w)))
         (List.filter (fun a => bool_decide (a_file a = Some fileId)) (auditlogs w))) in
  exists pg,
    getFileAuditLogs fileId page limit w = Some pg
    /\ total pg = Z.of_nat (length entries)
    /\ (length (items pg) <= Z.to_nat limit)%nat
    /\ (forall j, (j < Z.to_nat limit)%nat ->
          items pg !! j = entries !! (Z.to_nat ((page - 1) * limit) + j)%nat)
    /\ (totalPages pg - 1) * limit < total pg <= totalPages pg * limit
    /\ (totalPages pg < page -> items pg = [])
    /\ (page <= totalPages pg -> items pg <> []).
Proof.
  intros Hp HL entries. unfold getFileAuditLogs. fold entries.
  destruct (paginate_spec page limit entries Hp HL)
    as (pg & Hrun & Htotal & Hpages & Hlen & Hitems & Hpast & Hin).
  exists pg. repeat (split; [done|]).
  split; [|done]. rewrite Htotal, Hpages. apply ceil_div_bounds. lia.
Qed.

(** *** Deleting a file *)

Lemma File_findById_deleteOne_same id l :
  NoDup (map f_id l) -> File_findById id (File_deleteOne id l) = None.
Proof.
  unfold File_findById. induction l as [|a r IH]; simpl; intros Hnd; [done|].
  apply NoDup_cons in Hnd as [Hnotin Hnd]. case_bool_decide as Ha.
  - apply find_none_forall. intros x Hx. apply bool_decide_eq_false.
    intros Hxid. apply Hnotin. rewrite Ha, <- Hxid.
    apply list_elem_of_In, in_map. by apply list_elem_of_In.
  - simpl. rewrite bool_decide_eq_false_2 by done. by apply IH.
Qed.

(** [deleteFile] by the owner takes the file and everything reachable
    through it: the document and the bytes on disk are gone, exactly the
    shares of that file are removed, and afterwards [getFileById] and
    [downloadFile] answer 404 to everyone and every link to the file
    answers 404. Other files and their shares are as before. *)
Theorem deleteFile_cascades (req : AuthRequest) (id : ObjectId) (w : World)
    (user : IUser) (file : IFile) :
  req_user req = Some user ->
  File_findById id (files w) = Some file ->
  f_owner file = u_id user ->
  NoDup (map f_id (files w)) ->
  unique_links (shares w) ->
  let r := deleteFile req id w in
  r.2 = Json 200 true "File deleted successfully" NoData
  /\ File_findById id (files r.1) = None
  /\ (forall k, k <> id -> File_findById k (files r.1) = File_findById k (files w))
  /\ (forall s, s ∈ shares r.1 <-> s ∈ shares w /\ s_file s <> id)
  /\ disk r.1 !! f_path file = None
  /\ (forall now reqB bearer,
       req_user reqB = Some bearer ->
       getFileById now reqB id r.1 = (r.1, fail 404 "File not found")
       /\ downloadFile now reqB id r.1 = (r.1, fail 404 "File not found"))
  /\ (forall now reqB bearer s shareLink,
       req_user reqB = Some bearer ->
       s ∈ shares w -> s_file s = id -> s_shareLink s = Some shareLink ->
       accessViaLink now reqB shareLink r.1
         = (r.1, fail 404 "Share link not found or has been revoked")).
Proof.
  intros Hreq Hfile Howner Hnd Hul r.
  pose proof (find_some_elem _ _ _ Hfile) as [_ Hfid].
  apply bool_decide_eq_true in Hfid.
  assert (Hr : r = (logAudit (u_id user) file_delete
        (mkOptions (Some id) None (DeleteDetails (f_originalName file))
           (req_ip req) (req_userAgent req))
        (mkWorld (users w) (File_deleteOne id (files w))
           (List.filter (fun s => negb (bool_decide (s_file s = id))) (shares w))
           (auditlogs w) (unlink_if_exists (f_path file) (disk w))),
      Json 200 true "File deleted successfully" NoData)).
  { subst r. unfold deleteFile. rewrite Hreq, Hfile, Howner, Hfid.
    by rewrite bool_decide_eq_true_2. }
  assert (Hgone : File_findById id (files r.1) = None).
  { rewrite Hr. cbn. by apply File_findById_deleteOne_same. }
  assert (Hshares : forall s, s ∈ shares r.1 <-> s ∈ shares w /\ s_file s <> id).
  { intros s. rewrite Hr. cbn [fst shares logAudit with_auditlogs].
    rewrite list_elem_of_In, filter_In, <- list_elem_of_In.
    rewrite negb_true_iff, bool_decide_eq_false. done. }
  split; [by rewrite Hr|]. split; [done|]. split; [|split; [done|split; [|split]]].
  - intros k Hk. rewrite Hr. cbn. by apply File_findById_deleteOne.
  - rewrite Hr. cbn. unfold unlink_if_exists.
    destruct (disk w !! f_path file) eqn:Hd; [apply lookup_delete_eq|done].
  - intros now reqB bearer HreqB. unfold getFileById, downloadFile.
    by rewrite HreqB, Hgone.
  - intros now reqB bearer s shareLink HreqB Hs Hsf Hlink.
    unfold accessViaLink, Share_findOne. rewrite HreqB.
    rewrite find_none_forall; [done|].
    intros x Hx. apply Hshares in Hx as [Hx Hxf].
    destruct (bool_decide (s_shareLink x = Some shareLink)) eqn:Hk; [|done].
    apply bool_decide_eq_true in Hk.
    assert (x = s) by (by apply (Hul x s shareLink)). congruence.
Qed.

(** *** Listings *)

Lemma elem_of_skip_limit {A} (skip limit : Z) (l l' : list A) x :
  skip_limit skip limit l = Some l' -> x ∈ l' -> x ∈ l.
Proof.
  unfold skip_limit. destruct (skip <? 0); [discriminate|]. intros [= <-] Hx.
  destruct (limit =? 0).
  - by apply (subseteq_drop (Z.to_nat skip)).
  - by apply (subseteq_drop (Z.to_nat skip)), (subseteq_take (Z.to_nat (Z.abs limit))).
Qed.

(** What [getSharedWithMe] lists can be opened: for every share on any
    page of the listing, [getFileById] on its file answers the same
    principal with 200 (the file and its owner's account being stored).
    The listing and the access check apply the same conditions. *)
Theorem shared_with_me_can_be_opened (now : Date) (req : AuthRequest)
    (page limit : option Z) (w : World) data s f o fileOwner :
  getSharedWithMe now req page limit w = Answered data ->
  (s, Some f, o) ∈ items data ->
  User_findById (f_owner f) (users w) = Some fileOwner ->
  s ∈ shares w
  /\ (exists user, req_user req = Some user
                   /\ shared_with_query now (u_id user) s = true)
  /\ (getFileById now req (s_file s) w).2 = Json 200 true "" (FileData f fileOwner).
Proof.
  unfold getSharedWithMe. intros Hlist Hitem Hfo.
  destruct (req_user req) as [user|] eqn:Hreq; [|discriminate].
  unfold paginate in Hlist.
  destruct (skip_limit _ _ _) as [l|] eqn:Hsl; [|discriminate].
  injection Hlist as <-. cbn [items] in Hitem.
  apply (elem_of_skip_limit _ _ _ _ _ Hsl) in Hitem.
  unfold newest_first in Hitem.
  apply list_elem_of_In, in_rev, in_map_iff in Hitem as [x [Hx Hin]].
  injection Hx as -> Hf _. apply filter_In in Hin as [Hin Hq].
  apply list_elem_of_In in Hin.
  split; [done|]. split; [by exists user|].
  assert (Hv : view_access_query now (s_file s) (u_id user) s = true).
  { unfold shared_with_query in Hq. unfold view_access_query.
    repeat (apply andb_true_iff in Hq as [Hq ?]).
    repeat (apply andb_true_iff; split); try done. by apply bool_decide_eq_true_2. }
  destruct (find_is_some _ _ _ Hin Hv) as [y [Hy _]].
  unfold getFileById, Share_findOne. rewrite Hreq, Hf, Hfo, Hy.
  by destruct (bool_decide (u_id fileOwner = u_id user)).
Qed.

(** [getFileShares] shows the owner exactly the active shares of the file:
    a revoked share is never listed, and a share that has expired but was
    not revoked still is. Nobody but the owner gets the list. *)
Theorem getFileShares_lists_active_shares (req : AuthRequest) (fileId : ObjectId)
    (w : World) :
  (forall l, getFileShares req fileId w = Answered l ->
     (exists user file, req_user req = Some user
                        /\ File_findById fileId (files w) = Some file
                        /\ f_owner file = u_id user)
     /\ length l
        = length (List.filter (fun s => bool_decide (s_file s = fileId) && s_isActive s)
                    (shares w))
     /\ forall s, (exists target, (s, target) ∈ l)
                  <-> s ∈ shares w /\ s_file s = fileId /\ s_isActive s = true)
  /\ (forall user file,
       req_user req = Some user -> File_findById fileId (files w) = Some file ->
       f_owner file <> u_id user ->
       getFileShares req fileId w = Refused 403 "Access denied").
Proof.
  split.
  - intros l. unfold getFileShares.
    destruct (req_user req) as [user|]; [|discriminate].
    destruct (File_findById fileId (files w)) as [file|]; [|discriminate].
    case_bool_decide as Hown; [|discriminate]. cbn [negb]. intros [= <-].
    split; [by exists user, file|]. unfold newest_first.
    split; [by rewrite length_rev, length_map|].
    intros s. split.
    + intros [target Hin].
      apply list_elem_of_In, in_rev, in_map_iff in Hin as [x [Hx Hin]].
      injection Hx as -> _. apply filter_In in Hin as [Hin Hq].
      apply andb_true_iff in Hq as [Hf Ha]. apply bool_decide_eq_true in Hf.
      split; [by apply list_elem_of_In|done].
    + intros (Hin & Hf & Ha).
      exists (s_sharedWith s ≫= fun u => User_findById u (users w)).
      apply list_elem_of_In. rewrite <- in_rev. apply in_map_iff.
      exists s. split; [done|]. apply filter_In.
      split; [by apply list_elem_of_In|].
      by rewrite Ha, bool_decide_eq_true_2.
  - intros user file Hreq Hfile Hne. unfold getFileShares.
    rewrite Hreq, Hfile. by rewrite bool_decide_eq_false_2.
Qed.

(** *** File names *)

Ltac all_ascii c :=
  destruct c as [[] [] [] [] [] [] [] []]; vm_compute; try done.

Lemma replaced_char_safe c :
  is_filename_char (if is_filename_char c then c else "_"%char)
  || Ascii.eqb (if is_filename_char c then c else "_"%char) "_"%char = true.
Proof. all_ascii c. Qed.

Lemma lower_ascii_sanitized c :
  is_filename_char c || Ascii.eqb c "_"%char = true ->
  is_sanitized_char (lower_ascii c) = true.
Proof. all_ascii c. Qed.

Lemma lower_ascii_underscore c :
  Ascii.eqb (lower_ascii c) "_"%char = Ascii.eqb c "_"%char.
Proof. all_ascii c. Qed.

Lemma sanitized_char_fixed c :
  is_sanitized_char c = true ->
  (if is_filename_char c then c else "_"%char) = c /\ lower_ascii c = c.
Proof. all_ascii c. Qed.

Lemma replace_unsafe_safe s :
  all_chars (fun c => is_filename_char c || Ascii.eqb c "_"%char) (replace_unsafe s)
  = true.
Proof.
  induction s as [|c r IH]; [done|]. cbn [replace_unsafe all_chars].
  by rewrite (replaced_char_safe c), IH.
Qed.

Lemma collapse_all_chars q b s :
  all_chars q s = true -> all_chars q (collapse_underscores b s) = true.
Proof.
  revert b. induction s as [|c r IH]; intros b; [done|]. cbn [all_chars collapse_underscores].
  intros [Hc Hr]%andb_true_iff.
  destruct (Ascii.eqb c "_"%char); [destruct b|]; cbn [all_chars];
    rewrite ?Hc, ?IH; done.
Qed.

Lemma has_double_cons c r :
  has_double_underscore (String c r)
  = (Ascii.eqb c "_"%char && starts_with_underscore r) || has_double_underscore r.
Proof. destruct r; cbn; [by rewrite andb_false_r|done]. Qed.

Lemma collapse_no_double b s :
  has_double_underscore (collapse_underscores b s) = false
  /\ (b = true -> starts_with_underscore (collapse_underscores b s) = false).
Proof.
  revert b. induction s as [|c r IH]; intros b; [done|]. cbn [collapse_underscores].
  destruct (Ascii.eqb c "_"%char) eqn:Hc.
  - destruct (IH true) as [Hd Hs]. destruct b.
    + split; [done|]. intros _. by apply Hs.
    + split; [|done]. rewrite has_double_cons, Hc, Hd, Hs; done.
  - destruct (IH false) as [Hd _]. split.
    + by rewrite has_double_cons, Hc, Hd.
    + intros _. cbn. done.
Qed.

Lemma collapse_fixed b s :
  has_double_underscore s = false ->
  (b = true -> starts_with_underscore s = false) ->
  collapse_underscores b s = s.
Proof.
  revert b. induction s as [|c r IH]; intros b Hd Hs; [done|].
  rewrite has_double_cons in Hd. apply orb_false_iff in Hd as [Hcr Hd].
  cbn [collapse_underscores]. destruct (Ascii.eqb c "_"%char) eqn:Hc.
  - destruct b; [by specialize (Hs eq_refl); cbn in Hs; congruence|].
    f_equal. apply IH; [done|]. intros _. by destruct (starts_with_underscore r).
  - f_equal. apply IH; [done|discriminate].
Qed.

Lemma toLowerCase_double s :
  has_double_underscore (toLowerCase_ascii s) = has_double_underscore s.
Proof.
  induction s as [|c r IH]; [done|]. cbn [toLowerCase_ascii].
  rewrite !has_double_cons, IH, lower_ascii_underscore. f_equal. f_equal.
  destruct r; [done|]. cbn. apply lower_ascii_underscore.
Qed.

Lemma toLowerCase_sanitized s :
  all_chars (fun c => is_filename_char c || Ascii.eqb c "_"%char) s = true ->
  all_chars is_sanitized_char (toLowerCase_ascii s) = true.
Proof.
  induction s as [|c r IH]; [done|]. cbn [all_chars toLowerCase_ascii].
  intros [Hc Hr]%andb_true_iff. by rewrite (lower_ascii_sanitized c Hc), IH.
Qed.

Lemma collapse_length b s :
  (String.length (collapse_underscores b s) <= String.length s)%nat.
Proof.
  revert b. induction s as [|c r IH]; intros b; [done|]. cbn [collapse_underscores].
  destruct (Ascii.eqb c "_"%char); [destruct b|]; cbn [String.length];
    [specialize (IH true)|specialize (IH true)|specialize (IH false)]; lia.
Qed.

Lemma replace_unsafe_length s : String.length (replace_unsafe s) = String.length s.
Proof. induction s as [|c r IH]; [done|]. cbn. by rewrite IH. Qed.

Lemma toLowerCase_length s : String.length (toLowerCase_ascii s) = String.length s.
Proof. induction s as [|c r IH]; [done|]. cbn. by rewrite IH. Qed.

Lemma sanitizeFilename_output filename :
  all_chars is_sanitized_char (sanitizeFilename filename) = true
  /\ has_double_underscore (sanitizeFilename filename) = false.
Proof.
  unfold sanitizeFilename. split.
  - apply toLowerCase_sanitized, collapse_all_chars, replace_unsafe_safe.
  - rewrite toLowerCase_double. apply collapse_no_double.
Qed.

(** A sanitized file name is made of lower-case letters, digits, dots,
    dashes and underscores only (so it holds no path separator, space or
    control character), never has two underscores in a row, and is no
    longer than the name it came from. *)
Theorem sanitizeFilename_is_safe (filename : string) :
  all_chars is_sanitized_char (sanitizeFilename filename) = true
  /\ has_double_underscore (sanitizeFilename filename) = false
  /\ (String.length (sanitizeFilename filename) <= String.length filename)%nat.
Proof.
  destruct (sanitizeFilename_output filename) as [Hall Hd].
  split; [done|]. split; [done|]. unfold sanitizeFilename.
  rewrite toLowerCase_length, <- (replace_unsafe_length filename).
  apply collapse_length.
Qed.

Lemma sanitized_fixed s :
  all_chars is_sanitized_char s = true -> has_double_underscore s = false ->
  sanitizeFilename s = s.
Proof.
  intros Hall Hd. unfold sanitizeFilename.
  assert (Hr : replace_unsafe s = s).
  { clear Hd. induction s as [|c r IH]; [done|]. cbn [all_chars] in Hall.
    apply andb_true_iff in Hall as [Hc Hr]. cbn [replace_unsafe].
    destruct (sanitized_char_fixed c Hc) as [-> _]. by rewrite IH. }
  rewrite Hr, collapse_fixed by done.
  clear Hd Hr. induction s as [|c r IH]; [done|]. cbn [all_chars] in Hall.
  apply andb_true_iff in Hall as [Hc Hr]. cbn [toLowerCase_ascii].
  destruct (sanitized_char_fixed c Hc) as [_ ->]. by rewrite IH.
Qed.

(** Sanitizing is idempotent: a name that has been sanitized is left as it
    is by a second pass. *)
Theorem sanitizeFilename_idempotent (filename : string) :
  sanitizeFilename (sanitizeFilename filename) = sanitizeFilename filename.
Proof.
  destruct (sanitizeFilename_output filename) as [Hall Hd].
  by apply sanitized_fixed.
Qed.

(** *** Link tokens *)

Lemma remove_dashes_same_mask s t :
  dash_mask s = dash_mask t -> remove_dashes s = remove_dashes t -> s = t.
Proof.
  revert t. induction s as [|c r IH]; intros [|d t]; try discriminate; [done|].
  cbn [dash_mask remove_dashes]. intros [= Hc Hm].
  rewrite <- Hc. destruct (Ascii.eqb c "-"%char) eqn:Hcd.
  - intros Hr. apply Ascii.eqb_eq in Hcd. symmetry in Hc.
    apply Ascii.eqb_eq in Hc. subst. f_equal. by apply IH.
  - intros [= -> Hr]. f_equal. by apply IH.
Qed.

Lemma remove_dashes_length s :
  String.length (remove_dashes s) = length (List.filter negb (dash_mask s)).
Proof.
  induction s as [|c r IH]; [done|]. cbn [remove_dashes dash_mask List.filter].
  destruct (Ascii.eqb c "-"%char); cbn; by rewrite IH.
Qed.

Lemma remove_dashes_no_dash s :
  all_chars (fun c => negb (Ascii.eqb c "-"%char)) (remove_dashes s) = true.
Proof.
  induction s as [|c r IH]; [done|]. cbn [remove_dashes].
  destruct (Ascii.eqb c "-"%char) eqn:Hc; [done|]. cbn [all_chars].
  by rewrite Hc, IH.
Qed.

(** The token made from a uuid is the uuid without its dashes: 32
    characters, none of them a dash, and different uuids give different
    tokens, so no two uuids collide by losing their dashes. *)
Theorem generateShareLink_injective (uuid : string) :
  uuid_shape uuid = true ->
  String.length (generateShareLink uuid) = 32%nat
  /\ all_chars (fun c => negb (Ascii.eqb c "-"%char)) (generateShareLink uuid) = true
  /\ forall other, uuid_shape other = true ->
       generateShareLink other = generateShareLink uuid -> other = uuid.
Proof.
  unfold uuid_shape, generateShareLink. intros Hu%bool_decide_eq_true.
  split; [|split].
  - by rewrite remove_dashes_length, Hu.
  - apply remove_dashes_no_dash.
  - intros other Ho%bool_decide_eq_true. apply remove_dashes_same_mask. congruence.
Qed.

Lemma find_app_none {A} (q : A -> bool) (l l' : list A) :
  (forall x, x ∈ l -> q x = false) -> find q (l ++ l') = find q l'.
Proof.
  induction l as [|a r IH]; intros H; simpl; [done|].
  rewrite (H a) by (apply elem_of_cons; by left).
  apply IH. intros x Hx. apply H, elem_of_cons. by right.
Qed.

Lemma shareViaLink_created_eq now fresh uuid frontend req fileId permission
    expiresAt w user file :
  req_errors req = [] ->
  req_user req = Some user ->
  File_findById fileId (files w) = Some file ->
  f_owner file = u_id user ->
  let share :=
    mkShare fresh fileId (u_id user) link_share None (Some (generateShareLink uuid))
      (default view permission) (parseExpiration now expiresAt) true in
  duplicate_key share (shares w) = false ->
  shareViaLink now fresh uuid frontend req fileId permission expiresAt w
  = (logAudit (u_id user) file_share_link
       (mkOptions (Some fileId) (Some fresh)
          (ShareLinkDetails permission expiresAt) (req_ip req) (req_userAgent req))
       (with_shares w (shares w ++ [share])),
     Json 201 true "Share link created successfully"
       (LinkData share (frontend +:+ "/shared/" +:+ generateShareLink uuid))).
Proof.
  intros Herr Hreq Hfile Howner share Hdup.
  unfold shareViaLink, Share_create. rewrite Herr, Hreq, Hfile, Howner.
  rewrite bool_decide_eq_true_2 by done. cbn [negb]. fold share. by rewrite Hdup.
Qed.

(** Links are not deduplicated: two [shareViaLink] calls for the same file
    with two different uuids create two link shares with different tokens,
    and each token then opens the file through its own share. *)
Theorem two_links_coexist (now : Date) (fresh1 fresh2 : ObjectId)
    (uuid1 uuid2 frontend : string) (req : AuthRequest) (fileId : ObjectId)
    (permission : option Permission) (expiresAt : option string) (w : World)
    (user : IUser) (file : IFile) :
  req_errors req = [] ->
  req_user req = Some user ->
  File_findById fileId (files w) = Some file ->
  f_owner file = u_id user ->
  uuid_shape uuid1 = true -> uuid_shape uuid2 = true -> uuid1 <> uuid2 ->
  fresh1 <> fresh2 ->
  (forall s, s ∈ shares w ->
     s_id s <> fresh1 /\ s_id s <> fresh2
     /\ s_shareLink s <> Some (generateShareLink uuid1)
     /\ s_shareLink s <> Some (generateShareLink uuid2)) ->
  let link1 :=
    mkShare fresh1 fileId (u_id user) link_share None (Some (generateShareLink uuid1))
      (default view permission) (parseExpiration now expiresAt) true in
  let link2 :=
    mkShare fresh2 fileId (u_id user) link_share None (Some (generateShareLink uuid2))
      (default view permission) (parseExpiration now expiresAt) true in
  let r1 := shareViaLink now fresh1 uuid1 frontend req fileId permission expiresAt w in
  let r2 := shareViaLink now fresh2 uuid2 frontend req fileId permission expiresAt r1.1 in
  generateShareLink uuid1 <> generateShareLink uuid2
  /\ shares r2.1 = shares w ++ [link1; link2]
  /\ (forall reqB bearer,
       req_user reqB = Some bearer ->
       (accessViaLink now reqB (generateShareLink uuid1) r2.1).2
         = Json 200 true ""
             (AccessData link1 (Some file) (User_findById (u_id user) (users w)))
       /\ (accessViaLink now reqB (generateShareLink uuid2) r2.1).2
         = Json 200 true ""
             (AccessData link2 (Some file) (User_findById (u_id user) (users w)))).
Proof.
  intros Herr Hreq Hfile Howner Hu1 Hu2 Hdiff Hfresh Hnew link1 link2 r1 r2.
  assert (Htok : generateShareLink uuid1 <> generateShareLink uuid2).
  { intros Heq. apply Hdiff.
    unfold uuid_shape, generateShareLink in *.
    apply bool_decide_eq_true in Hu1, Hu2.
    apply remove_dashes_same_mask; congruence. }
  assert (Hd1 : duplicate_key link1 (shares w) = false).
  { apply duplicate_key_false. intros s Hs.
    destruct (Hnew s Hs) as (? & ? & ? & ?). split; [done|]. by right. }
  assert (Hr1 := shareViaLink_created_eq now fresh1 uuid1 frontend req fileId
                   permission expiresAt w user file Herr Hreq Hfile Howner Hd1).
  fold r1 in Hr1. fold link1 in Hr1.
  assert (Hs1 : shares r1.1 = shares w ++ [link1]) by (by rewrite Hr1).
  assert (Hf1 : files r1.1 = files w) by (by rewrite Hr1).
  assert (Hd2 : duplicate_key link2 (shares r1.1) = false).
  { apply duplicate_key_false. intros s Hs. rewrite Hs1 in Hs.
    apply elem_of_app in Hs as [Hs|Hs].
    - destruct (Hnew s Hs) as (? & ? & ? & ?). split; [done|]. by right.
    - apply list_elem_of_singleton in Hs as ->. split; [done|].
      right. cbn. congruence. }
  assert (Hr2 := shareViaLink_created_eq now fresh2 uuid2 frontend req fileId
                   permission expiresAt r1.1 user file Herr Hreq).
  rewrite Hf1 in Hr2. specialize (Hr2 Hfile Howner Hd2).
  fold r2 in Hr2. fold link2 in Hr2.
  assert (Hs2 : shares r2.1 = shares w ++ [link1; link2]).
  { rewrite Hr2. cbn [fst shares logAudit with_auditlogs with_shares].
    by rewrite Hs1, <- app_assoc. }
  assert (Hf2 : files r2.1 = files w) by (by rewrite Hr2).
  assert (Hu2' : users r2.1 = users w) by (by rewrite Hr2, Hr1).
  assert (Hexp : isExpired now (parseExpiration now expiresAt) = false).
  { apply (unexpired_query_not_expired now link1).
    by apply (parseExpiration_unexpired now expiresAt). }
  split; [done|]. split; [done|]. subst link1 link2.
  intros reqB bearer HreqB. unfold accessViaLink, Share_findOne.
  rewrite HreqB, Hs2, Hf2, Hu2'. split.
  - rewrite find_app_none.
    + cbn [find s_shareLink s_shareType s_isActive].
      rewrite !bool_decide_eq_true_2 by done. cbn [andb s_expiresAt s_file].
      by rewrite Hexp, Hfile.
    + intros x Hx. destruct (Hnew x Hx) as (_ & _ & Hk & _).
      by rewrite bool_decide_eq_false_2.
  - rewrite find_app_none.
    + cbn [find s_shareLink s_shareType s_isActive].
      rewrite (bool_decide_eq_false_2
                 (Some (generateShareLink uuid1) = Some (generateShareLink uuid2)))
        by congruence.
      rewrite !bool_decide_eq_true_2 by done. cbn [andb s_expiresAt s_file].
      by rewrite Hexp, Hfile.
    + intros x Hx. destruct (Hnew x Hx) as (_ & _ & _ & Hk).
      by rewrite bool_decide_eq_false_2.
Qed.

(** *** The upload pipeline *)

Lemma compressFile_cases sharp filePath mimeType name fs original :
  fs !! filePath = Some original ->
  compressedPathOf filePath <> filePath ->
  exists fs' res stored,
    compressFile sharp filePath mimeType name fs = Some (fs', res)
    /\ fs' !! filePath = Some stored
    /\ compressedSize res = byte_size stored
    /\ originalSize res = byte_size original
    /\ ((success res = true /\ byte_size stored < byte_size original)
        \/ (success res = false /\ stored = original))
    /\ (forall p, p <> filePath -> p <> compressedPathOf filePath ->
          fs' !! p = fs !! p)
    /\ (String.prefix "image/" mimeType = false -> fs' = fs).
Proof.
  intros Hfile Hne. unfold compressFile.
  destruct (String.prefix "image/" mimeType) eqn:Himg.
  2: { rewrite Hfile. exists fs, (not_compressed (byte_size original)), original.
       repeat (split; [done|]). split; [by right|]. done. }
  unfold compressImage. rewrite Hfile.
  assert (Hkeep : exists fs' res stored,
            Some (fs, not_compressed (byte_size original)) = Some (fs', res)
            /\ fs' !! filePath = Some stored
            /\ compressedSize res = byte_size stored
            /\ originalSize res = byte_size original
            /\ ((success res = true /\ byte_size stored < byte_size original)
                \/ (success res = false /\ stored = original))
            /\ (forall p, p <> filePath -> p <> compressedPathOf filePath ->
                  fs' !! p = fs !! p)
            /\ (true = false -> fs' = fs)).
  { exists fs, (not_compressed (byte_size original)), original.
    repeat (split; [done|]). split; [by right|]. done. }
  destruct (byte_size original <? 100 * 1024); [exact Hkeep|].
  destruct (sharp_supported mimeType); cbn [negb]; [|exact Hkeep].
  clear Hkeep. destruct sharp as [out|partial].
  - destruct (byte_size out <? byte_size original) eqn:Hlt.
    + apply Z.ltb_lt in Hlt.
      rewrite lookup_delete_ne by done. rewrite lookup_insert_eq.
      eexists _, _, out. split; [reflexivity|]. unfold renameSync.
      split; [by rewrite lookup_insert_eq|]. split; [done|]. split; [done|].
      split; [by left|]. split; [|done].
      intros p Hp Hpc. rewrite lookup_insert_ne by done.
      rewrite !lookup_delete_ne by done. by rewrite lookup_insert_ne.
    + eexists _, _, original. split; [reflexivity|].
      split; [rewrite lookup_delete_ne by done; by rewrite lookup_insert_ne|].
      split; [done|]. split; [done|]. split; [by right|]. split; [|done].
      intros p Hp Hpc. rewrite lookup_delete_ne by done. by rewrite lookup_insert_ne.
  - eexists _, _, original. split; [reflexivity|].
    unfold unlink_if_exists. destruct partial as [b|].
    + rewrite lookup_insert_eq.
      split; [rewrite lookup_delete_ne by done; by rewrite lookup_insert_ne|].
      split; [done|]. split; [done|]. split; [by right|]. split; [|done].
      intros p Hp Hpc. rewrite lookup_delete_ne by done. by rewrite lookup_insert_ne.
    + destruct (fs !! compressedPathOf filePath) eqn:Hc.
      * split; [by rewrite lookup_delete_ne|].
        split; [done|]. split; [done|]. split; [by right|]. split; [|done].
        intros p Hp Hpc. by rewrite lookup_delete_ne.
      * repeat (split; [done|]). split; [by right|]. done.
Qed.

(** [compressFile] keeps the books straight: the uploaded file is still at
    its path afterwards, the reported [compressedSize] is the size of the
    bytes now stored there and is never more than [originalSize],
    [success] is reported exactly when the stored bytes are fewer, and no
    path other than the file's own and its temporary one is touched;
    anything that is not an image leaves the disk as it was. *)
Theorem compressFile_accounts (sharp : SharpOutcome) (filePath mimeType name : string)
    (fs : gmap string Bytes) (original : Bytes) :
  fs !! filePath = Some original ->
  compressedPathOf filePath <> filePath ->
  exists fs' res stored,
    compressFile sharp filePath mimeType name fs = Some (fs', res)
    /\ fs' !! filePath = Some stored
    /\ compressedSize res = byte_size stored
    /\ originalSize res = byte_size original
    /\ compressedSize res <= originalSize res
    /\ (success res = true <-> compressedSize res < originalSize res)
    /\ (success res = false -> stored = original)
    /\ (forall p, p <> filePath -> p <> compressedPathOf filePath ->
          fs' !! p = fs !! p)
    /\ (String.prefix "image/" mimeType = false -> fs' = fs).
Proof.
  intros Hfile Hne.
  destruct (compressFile_cases sharp filePath mimeType name fs original Hfile Hne)
    as (fs' & res & stored & Hrun & Hat & Hc & Ho & Hcases & Hother & Hplain).
  exists fs', res, stored. repeat (split; [done|]). rewrite Hc, Ho.
  destruct Hcases as [[Hs Hlt]|[Hs ->]]; rewrite Hs.
  - split; [lia|]. split; [done|]. split; [done|]. done.
  - split; [lia|]. split; [split; [done|lia]|]. done.
Qed.

(** The document [uploadFiles] records for a file agrees with the disk:
    its [size] is the size of the bytes now stored at its [path]; it is
    marked compressed exactly when [originalSize] is recorded, and then
    [originalSize] is the uploaded size and [size] is smaller; otherwise
    [size] is the uploaded size and the bytes are the uploaded ones. *)
Theorem upload_records_disk_size (sharp : SharpOutcome) (fresh : ObjectId)
    (baseUrl : string) (owner : ObjectId) (file : MulterFile)
    (fs : gmap string Bytes) (original : Bytes) :
  fs !! m_path file = Some original ->
  m_size file = byte_size original ->
  compressedPathOf (m_path file) <> m_path file ->
  exists fs' res stored,
    compressFile sharp (m_path file) (m_mimetype file) (m_originalname file) fs
      = Some (fs', res)
    /\ let doc := uploaded_document fresh baseUrl owner file res in
       fs' !! f_path doc = Some stored
       /\ f_size doc = byte_size stored
       /\ (f_isCompressed doc = true ->
           f_originalSize doc = Some (m_size file) /\ f_size doc < m_size file)
       /\ (f_isCompressed doc = false ->
           f_originalSize doc = None /\ f_size doc = m_size file
           /\ stored = original).
Proof.
  intros Hfile Hsize Hne.
  destruct (compressFile_cases sharp (m_path file) (m_mimetype file)
              (m_originalname file) fs original Hfile Hne)
    as (fs' & res & stored & Hrun & Hat & Hc & Ho & Hcases & _).
  exists fs', res, stored. split; [done|].
  unfold uploaded_document. cbn [f_path f_size f_isCompressed f_originalSize].
  split; [done|].
  destruct Hcases as [[Hs Hlt]|[Hs ->]]; rewrite Hs.
  - split; [done|]. split; [|done]. intros _. rewrite Ho, Hc, Hsize. done.
  - split; [done|]. split; [done|]. done.
Qed.

(** Only what [getMimeTypeCategory] classes as an image is ever compressed:
    the category is [image] exactly for the types [compressFile] hands to
    [compressImage], and a file of any other category is reported as not
    compressed with the disk left as it was. *)
Theorem only_images_are_compressed (sharp : SharpOutcome)
    (filePath mimeType name : string) (fs : gmap string Bytes) :
  (getMimeTypeCategory mimeType = "image" <-> String.prefix "image/" mimeType = true)
  /\ (getMimeTypeCategory mimeType <> "image" ->
      compressFile sharp filePath mimeType name fs
      = match fs !! filePath with
        | Some original => Some (fs, not_compressed (byte_size original))
        | None => None
        end).
Proof.
  assert (Hiff : getMimeTypeCategory mimeType = "image"
                 <-> String.prefix "image/" mimeType = true).
  { unfold getMimeTypeCategory.
    destruct (String.prefix "image/" mimeType); [done|].
    repeat (case_match; [split; discriminate|]). split; discriminate. }
  split; [done|]. intros Hcat. unfold compressFile.
  destruct (String.prefix "image/" mimeType); [|done].
  exfalso. apply Hcat. by apply Hiff.
Qed.

(** The audit listings never show more than was asked for: every entry
    [getFileAudit] returns is a stored entry about that file, and only the
    file's owner gets an answer; every entry [getMyAudit] returns is a
    stored entry of the caller's own actions. *)
Theorem audit_listings_are_scoped (req : AuthRequest) (page limit : option Z)
    (w : World) :
  (forall fileId data,
     getFileAudit req fileId page limit w = Answered data ->
     (exists user file, req_user req = Some user
                        /\ File_findById fileId (files w) = Some file
                        /\ f_owner file = u_id user)
     /\ forall a u, (a, u) ∈ items data ->
          a ∈ auditlogs w /\ a_file a = Some fileId)
  /\ (forall data,
     getMyAudit req page limit w = Answered data ->
     exists user, req_user req = Some user
       /\ forall a f, (a, f) ∈ items data ->
            a ∈ auditlogs w /\ a_user a = u_id user).
Proof.
  split.
  - intros fileId data. unfold getFileAudit.
    destruct (req_user req) as [user|]; [|discriminate].
    destruct (File_findById fileId (files w)) as [file|]; [|discriminate].
    case_bool_decide as Hown; cbn [negb]; [|discriminate].
    unfold getFileAuditLogs, paginate.
    destruct (skip_limit _ _ _) as [l|] eqn:Hsl; [|discriminate].
    intros [= <-]. split; [by exists user, file|].
    intros a u Hin. cbn [items] in Hin.
    apply (elem_of_skip_limit _ _ _ _ _ Hsl) in Hin. unfold newest_first in Hin.
    apply list_elem_of_In, in_rev, in_map_iff in Hin as [x [Hx Hin]].
    injection Hx as -> _. apply filter_In in Hin as [Hin Hq].
    apply bool_decide_eq_true in Hq. split; [by apply list_elem_of_In|done].
  - intros data. unfold getMyAudit.
    destruct (req_user req) as [user|]; [|discriminate].
    unfold getUserAuditLogs, paginate.
    destruct (skip_limit _ _ _) as [l|] eqn:Hsl; [|discriminate].
    intros [= <-]. exists user. split; [done|].
    intros a f Hin. cbn [items] in Hin.
    apply (elem_of_skip_limit _ _ _ _ _ Hsl) in Hin. unfold newest_first in Hin.
    apply list_elem_of_In, in_rev, in_map_iff in Hin as [x [Hx Hin]].
    injection Hx as -> _. apply filter_In in Hin as [Hin Hq].
    apply bool_decide_eq_true in Hq. split; [by apply list_elem_of_In|done].
Qed.

End Model.

(** ** The handlers on the sample data *)

(** C5. A successful re-grant writes no audit entry: Alice grants Bob
    [download] on the report he already has a share of; the answer is 200
    "Share updated successfully", the stored share now has [download], and
    the audit collection is still empty. The same request on a store
    without the share answers 201 and writes the [file_share_user] entry. *)
Theorem regrant_writes_no_audit_entry :
  let w := with_shares initial_world [bob_view_share] in
  let r := shareWithUser Date_parse_sample today "650000000000000000000014"
             (req_of alice) (f_id report) (u_id bob) (Some download) None w in
  let r0 := shareWithUser Date_parse_sample today "650000000000000000000014"
             (req_of alice) (f_id report) (u_id bob) (Some download) None
             initial_world in
  r.2 = Json 200 true "Share updated successfully"
          (ShareData (mkShare (s_id bob_view_share) (f_id report) (u_id alice)
                        user_share (Some (u_id bob)) None download
                        (Some 1893456000000) true))
  /\ auditlogs r.1 = []
  /\ (exists share, r0.2 = Json 201 true "File shared successfully" (ShareData share))
  /\ auditlogs r0.1
     = [mkAudit (u_id alice) file_share_user (Some (f_id report))
          (Some "650000000000000000000014")
          (ShareUserDetails (u_id bob) (Some download) None) None None].
Proof. vm_compute. repeat split; eauto. Qed.

(** At the instant both expire, 2030-01-01T00:00:00.000Z, Bob's user share
    is valid by the model's [isValid] but the file controller's query no
    longer finds it, while the link with the same expiration still opens. *)
Example expiry_instant_user_share_and_link :
  share_isValid 1893456000000 bob_view_share = true
  /\ findValidShareForUser 1893456000000 (f_id report) (u_id bob)
       (shares expiring_world) = None
  /\ (getFileById 1893456000000 (req_of bob) (f_id report) expiring_world).2
     = fail 403 "Access denied"
  /\ (accessViaLink 1893456000000 (req_of bob) "00112233445566778899aabbccddeeff"
       expiring_world).2
     = Json 200 true "" (AccessData expiring_link (Some report) (Some alice))
  /\ (getFileById 1893455999999 (req_of bob) (f_id report) expiring_world).2
     = Json 200 true "" (FileData report alice).
Proof. repeat split; reflexivity. Qed.

(** A share or link with the [download] permission opens both the view and
    the download. *)
Example download_share_gives_view_and_download :
  (getFileById today (req_of bob) (f_id report) download_world).2
    = Json 200 true "" (FileData report alice)
  /\ (downloadFile today (req_of bob) (f_id report) download_world).2
    = SendFile "uploads/1f0e.pdf" "report.pdf"
  /\ (accessViaLink today (req_of bob) "fedcba9876543210fedcba9876543210"
       download_world).2
    = Json 200 true "" (AccessData download_link (Some report) (Some alice))
  /\ (downloadViaLink today (req_of bob) "fedcba9876543210fedcba9876543210"
       download_world).2
    = SendFile "uploads/1f0e.pdf" "report.pdf".
Proof. repeat split; vm_compute; reflexivity. Qed.

(** The path functions on an upload path, as Node computes them. *)
Example posix_paths_of_upload :
  posix_extname "uploads/9c1d.jpg" = ".jpg"
  /\ posix_dirname "uploads/9c1d.jpg" = "uploads"
  /\ posix_basename "uploads/9c1d.jpg" ".jpg" = "9c1d"
  /\ compressedPathOf posix_extname posix_dirname posix_basename posix_join
       "uploads/9c1d.jpg" = "uploads/9c1d_compressed.jpg"
  /\ zipPathOf posix_extname posix_dirname posix_basename posix_join
       "uploads/9c1d.jpg" = "uploads/9c1d.zip".
Proof. repeat split; reflexivity. Qed.

(** A 200000-byte JPEG that encodes to 120000 bytes is replaced; the same
    photo with an encoding of its own size is kept. *)
Example compressImage_photo :
  snd <$> compressImage posix_extname posix_dirname
            posix_basename posix_join (Written encoded_bytes)
            "uploads/9c1d.jpg" "image/jpeg" photo_disk
  = Some (mkResult true 200000 120000 (ratio 120000 200000)
            (Some "uploads/9c1d.jpg"))
  /\ snd <$> compressImage posix_extname posix_dirname
               posix_basename posix_join (Written photo_bytes)
               "uploads/9c1d.jpg" "image/jpeg" photo_disk
  = Some (not_compressed 200000).
Proof. split; vm_compute; reflexivity. Qed.

(** C7. [createZipArchive] on a file that is itself named [.zip]: the
    archive path is the file's own path, so the output stream truncates the
    file before the archiver reads it, and the archive is that of an empty
    entry. For the 100-byte file at [uploads/7d2e.zip] and every archiver
    whose archive of the empty entry [backup.zip] has 90 bytes or more (the
    fixed records of a zip archive alone take more; the archiver of the
    examples writes 136), the [else] branch unlinks the archive path, which
    removes the only file there, and the result is [success = false], as
    for a kept original. For the 1000-byte file at that path and every
    archiver whose archive of the empty entry is below 900 bytes, the first
    branch unlinks the file's path, and the result is [success = true] with
    [newPath] naming a file that is gone. *)
Theorem createZipArchive_zip_upload_loses_file :
  zipPathOf posix_extname posix_dirname posix_basename posix_join
    "uploads/7d2e.zip" = "uploads/7d2e.zip"
  /\ small_zip_disk !! "uploads/7d2e.zip" = Some small_zip_bytes
  /\ byte_size small_zip_bytes = 100
  /\ archived_bytes "uploads/7d2e.zip" "uploads/7d2e.zip" small_zip_disk = []
  /\ (forall archiver_zip : string -> Bytes -> Bytes,
        90 <= byte_size (archiver_zip "backup.zip" []) ->
        exists fs',
          createZipArchive posix_extname posix_dirname posix_basename
            posix_join archiver_zip Closed "uploads/7d2e.zip"
            "backup.zip" small_zip_disk
          = Some (fs', not_compressed 100)
          /\ fs' !! "uploads/7d2e.zip" = None)
  /\ byte_size (archiver_sample "backup.zip" []) = 136
  /\ (exists fs',
       createZipArchive posix_extname posix_dirname posix_basename
         posix_join archiver_sample Closed "uploads/7d2e.zip"
         "backup.zip" small_zip_disk
       = Some (fs', not_compressed 100)
       /\ fs' !! "uploads/7d2e.zip" = None)
  /\ backup_disk !! "uploads/7d2e.zip" = Some backup_bytes
  /\ (forall archiver_zip : string -> Bytes -> Bytes,
        byte_size (archiver_zip "backup.zip" []) < 900 ->
        exists fs',
          createZipArchive posix_extname posix_dirname posix_basename
            posix_join archiver_zip Closed "uploads/7d2e.zip"
            "backup.zip" backup_disk
          = Some (fs', mkResult true 1000
                         (byte_size (archiver_zip "backup.zip" []))
                         (ratio (byte_size (archiver_zip "backup.zip" [])) 1000)
                         (Some "uploads/7d2e.zip"))
          /\ fs' !! "uploads/7d2e.zip" = None).
Proof.
  assert (Hsmall : small_zip_disk !! "uploads/7d2e.zip" = Some small_zip_bytes)
    by apply lookup_singleton_eq.
  assert (Hbackup : backup_disk !! "uploads/7d2e.zip" = Some backup_bytes)
    by apply lookup_singleton_eq.
  assert (Hloss : forall archiver_zip : string -> Bytes -> Bytes,
            90 <= byte_size (archiver_zip "backup.zip" []) ->
            exists fs',
              createZipArchive posix_extname posix_dirname posix_basename
                posix_join archiver_zip Closed "uploads/7d2e.zip"
                "backup.zip" small_zip_disk
              = Some (fs', not_compressed 100)
              /\ fs' !! "uploads/7d2e.zip" = None).
  { intros archiver_zip Hsize.
    destruct (createZipArchive_own_path posix_extname posix_dirname
                posix_basename posix_join archiver_zip Closed
                "uploads/7d2e.zip" "backup.zip" small_zip_disk small_zip_bytes
                Hsmall eq_refl) as (fs' & res & Hrun & Hgone & Hres).
    exists fs'. split; [|exact Hgone]. rewrite Hrun, Hres.
    change (byte_size small_zip_bytes) with 100.
    destruct (Z.ltb_spec (10 * byte_size (archiver_zip "backup.zip" []))
                (9 * 100)); [lia|done]. }
  split; [reflexivity|]. split; [exact Hsmall|].
  split; [reflexivity|]. split; [apply archived_bytes_own|].
  split; [exact Hloss|]. split; [reflexivity|].
  split; [apply Hloss; vm_compute; discriminate|].
  split; [exact Hbackup|].
  intros archiver_zip Hsize.
  destruct (createZipArchive_own_path posix_extname posix_dirname
              posix_basename posix_join archiver_zip Closed
              "uploads/7d2e.zip" "backup.zip" backup_disk backup_bytes
              Hbackup eq_refl) as (fs' & res & Hrun & Hgone & Hres).
  exists fs'. split; [|exact Hgone]. rewrite Hrun, Hres.
  change (byte_size backup_bytes) with 1000.
  destruct (Z.ltb_spec (10 * byte_size (archiver_zip "backup.zip" []))
              (9 * 1000)); [done|lia].
Qed.

(** C3, as stated, fails: Alice re-grants Bob's share and supplies the
    expiration 2000-01-01, a well-formed instant in the past. The stored
    share keeps the expiration it had (2030-01-01): the supplied one does
    not replace it. *)
Lemma regrant_with_past_date_keeps_expiration :
  let w := with_shares initial_world [bob_view_share] in
  let r := shareWithUser Date_parse_sample today "650000000000000000000014"
             (req_of alice) (f_id report) (u_id bob) (Some download)
             (Some "2000-01-01T00:00:00.000Z") w in
  Date_parse_sample "2000-01-01T00:00:00.000Z" = Some 946684800000
  /\ r.2 = Json 200 true "Share updated successfully"
            (ShareData (mkShare (s_id bob_view_share) (f_id report) (u_id alice)
                          user_share (Some (u_id bob)) None download
                          (Some 1893456000000) true))
  /\ ~ (forall s, s ∈ shares r.1 -> s_expiresAt s = Some 946684800000).
Proof.
  split; [reflexivity|]. split; [reflexivity|].
  intros H. specialize (H (mkShare (s_id bob_view_share) (f_id report) (u_id alice)
                          user_share (Some (u_id bob)) None download
                          (Some 1893456000000) true)).
  assert (Hin : mkShare (s_id bob_view_share) (f_id report) (u_id alice)
                  user_share (Some (u_id bob)) None download
                  (Some 1893456000000) true
                ∈ shares (shareWithUser Date_parse_sample today
                            "650000000000000000000014" (req_of alice)
                            (f_id report) (u_id bob) (Some download)
                            (Some "2000-01-01T00:00:00.000Z")
                            (with_shares initial_world [bob_view_share])).1).
  { vm_compute. apply list_elem_of_here. }
  specialize (H Hin). discriminate H.
Qed.

(** C4, as stated, fails: the generator returns a uuid whose token a
    stored link already has. The insert is rejected and the caller gets
    status 500; no second token is tried and nothing is stored. *)
Lemma link_token_collision_is_surfaced :
  let w := with_shares initial_world [view_link] in
  generateShareLink "01234567-89ab-cdef-0123-456789abcdef"
    = "0123456789abcdef0123456789abcdef"
  /\ shareViaLink Date_parse_sample today "650000000000000000000015"
       "01234567-89ab-cdef-0123-456789abcdef" "http://localhost:5173"
       (req_of alice) (f_id report) (Some download) None w
     = (w, fail 500 "Failed to create share link")
  /\ ~ (exists share link,
         (shareViaLink Date_parse_sample today "650000000000000000000015"
            "01234567-89ab-cdef-0123-456789abcdef" "http://localhost:5173"
            (req_of alice) (f_id report) (Some download) None w).2
         = Json 201 true "Share link created successfully" (LinkData share link)).
Proof.
  split; [reflexivity|]. split; [reflexivity|].
  intros (share & link & H). discriminate H.
Qed.

(** C9, as stated, fails: two grants of the same file to the same
    principal whose lookups are both served before either insert. Both are
    answered 201 and the store ends with two user-kind shares for the
    pair. *)
Lemma interleaved_grants_store_two_shares :
  let '(w', pc1, pc2) :=
    interleave Date_parse_sample race_schedule grantA grantB
      AtFindFile AtFindFile initial_world in
  shares initial_world = []
  /\ (exists s1, pc1 = Finished (Json 201 true "File shared successfully" (ShareData s1)))
  /\ (exists s2, pc2 = Finished (Json 201 true "File shared successfully" (ShareData s2)))
  /\ user_share_count (f_id report) (u_id bob) (shares w') = 2%nat
  /\ ~ at_most_one_user_share (shares w').
Proof.
  vm_compute. split; [done|]. split; [eauto|]. split; [eauto|]. split; [done|].
  intros H. specialize (H (f_id report) (u_id bob)). vm_compute in H. lia.
Qed.

(** ** The theorems at the sample data *)

Lemma owner_access_ignores_shares_witness :
  (getFileById today (req_of alice) (f_id report) shared_world).2
    = Json 200 true "" (FileData report alice)
  /\ (downloadFile today (req_of alice) (f_id report) shared_world).2
    = SendFile "uploads/1f0e.pdf" "report.pdf".
Proof.
  destruct (owner_access_ignores_shares today (req_of alice) (f_id report)
              initial_world alice report eq_refl eq_refl eq_refl eq_refl
              [bob_view_share; view_link]) as (Hview & Hdown & _).
  split; [exact Hview | exact Hdown].
Defined.


Lemma regrant_updates_in_place_witness :
  let w := with_shares initial_world [bob_view_share] in
  let r := shareWithUser Date_parse_sample today "650000000000000000000014"
             (req_of alice) (f_id report) (u_id bob) (Some download)
             (Some "2031-01-01T00:00:00.000Z") w in
  shares r.1
    = [mkShare (s_id bob_view_share) (f_id report) (u_id alice) user_share
         (Some (u_id bob)) None download (Some 1924992000000) true]
  /\ length (shares r.1) = length (shares w)
  /\ user_share_count (f_id report) (u_id bob) (shares r.1) = 1%nat.
Proof.
  assert (Hself : u_id bob <> u_id alice) by discriminate.
  assert (Hnd : unique_ids (shares (with_shares initial_world [bob_view_share])))
    by apply NoDup_singleton.
  destruct (regrant_updates_in_place Date_parse_sample today
              "650000000000000000000014" (req_of alice) (f_id report) (u_id bob)
              (Some download) (Some "2031-01-01T00:00:00.000Z")
              (with_shares initial_world [bob_view_share]) alice report
              bob_view_share eq_refl eq_refl eq_refl eq_refl Hself Hnd eq_refl)
    as (_ & Hshares & Hlen & Hcount & _).
  split; [exact Hshares|]. split; [exact Hlen|].
  exact (Hcount (f_id report) (u_id bob)).
Defined.

Lemma shareViaLink_single_attempt_witness :
  let r := shareViaLink Date_parse_sample today "650000000000000000000015"
             "01234567-89ab-cdef-0123-456789abcdef" "http://localhost:5173"
             (req_of alice) (f_id report) (Some download) None initial_world in
  let share :=
    mkShare "650000000000000000000015" (f_id report) (u_id alice) link_share None
      (Some "0123456789abcdef0123456789abcdef") download None true in
  r.2 = Json 201 true "Share link created successfully"
          (LinkData share
             "http://localhost:5173/shared/0123456789abcdef0123456789abcdef")
  /\ shares r.1 = [share].
Proof.
  destruct (shareViaLink_single_attempt Date_parse_sample today
              "650000000000000000000015" "01234567-89ab-cdef-0123-456789abcdef"
              "http://localhost:5173" (req_of alice) (f_id report) (Some download)
              None initial_world alice report eq_refl eq_refl eq_refl eq_refl)
    as [Hfresh _].
  destruct Hfresh as (Hresp & Hshares & _).
  - intros s Hs. by apply elem_of_nil in Hs.
  - split; [exact Hresp | exact Hshares].
Defined.

Lemma updateExpiration_changes_only_expiration_witness :
  let w := with_shares initial_world [bob_view_share] in
  updateShareExpiration Date_parse_sample today (req_of alice)
    (s_id bob_view_share) None w
  = (with_shares initial_world
       [mkShare (s_id bob_view_share) (f_id report) (u_id alice) user_share
          (Some (u_id bob)) None view None true],
     Json 200 true "Share expiration updated"
       (ShareData (mkShare (s_id bob_view_share) (f_id report) (u_id alice)
                     user_share (Some (u_id bob)) None view None true))).
Proof.
  assert (Hnd : unique_ids (shares (with_shares initial_world [bob_view_share])))
    by apply NoDup_singleton.
  exact (proj1 (updateExpiration_changes_only_expiration Date_parse_sample today
                  (req_of alice) (s_id bob_view_share) None
                  (with_shares initial_world [bob_view_share]) alice
                  bob_view_share eq_refl eq_refl eq_refl Hnd)).
Defined.

Lemma serial_grants_keep_one_share_witness :
  let r1 := shareWithUser_of Date_parse_sample grantA initial_world in
  let r2 := shareWithUser_of Date_parse_sample grantB r1.1 in
  interleave Date_parse_sample serial_schedule grantA grantB
    AtFindFile AtFindFile initial_world
  = (r2.1, Finished r1.2, Finished r2.2)
  /\ (user_share_count (f_id report) (u_id bob) (shares r2.1) <= 1)%nat.
Proof.
  assert (Hnd : unique_ids (shares initial_world)) by apply NoDup_nil_2.
  assert (Hone : at_most_one_user_share (shares initial_world))
    by (intros f u; apply Nat.le_0_l).
  destruct (serial_grants_keep_one_share Date_parse_sample grantA grantB
              initial_world Hnd Hone) as (Hrun & _ & _ & Hcount).
  split; [exact Hrun | exact Hcount].
Defined.


Lemma compression_keeps_only_smaller_witness :
  exists fs' res,
    compressImage posix_extname posix_dirname posix_basename
      posix_join (Written encoded_bytes) "uploads/9c1d.jpg" "image/jpeg"
      photo_disk = Some (fs', res)
    /\ originalSize res = byte_size photo_bytes
    /\ (success res = false ->
         fs' !! "uploads/9c1d.jpg" = Some photo_bytes
         /\ compressedSize res = originalSize res
         /\ compressionRatio res = 1%Q).
Proof.
  assert (Hfile : photo_disk !! "uploads/9c1d.jpg" = Some photo_bytes)
    by apply lookup_singleton_eq.
  assert (Hc : compressedPathOf posix_extname posix_dirname
                 posix_basename posix_join "uploads/9c1d.jpg"
               <> "uploads/9c1d.jpg") by discriminate.
  assert (Hz : zipPathOf posix_extname posix_dirname
                 posix_basename posix_join "uploads/9c1d.jpg"
               <> "uploads/9c1d.jpg") by discriminate.
  destruct (compression_keeps_only_smaller posix_extname
              posix_dirname posix_basename posix_join archiver_sample
              (Written encoded_bytes) Closed "uploads/9c1d.jpg" "image/jpeg"
              "holiday.jpg" photo_disk photo_bytes Hfile Hc Hz)
    as [(fs' & res & Hrun & Hsize & _ & _ & Hkeep) _].
  exists fs', res. split; [exact Hrun|]. split; [exact Hsize | exact Hkeep].
Defined.

(** ** The further properties at the sample data *)

Example sanitizeFilename_samples :
  sanitizeFilename "My  Holiday (1).JPG" = "my_holiday_1_.jpg"
  /\ sanitizeFilename "../../etc/passwd" = ".._.._etc_passwd"
  /\ sanitizeFilename "a__b___c" = "a_b_c"
  /\ sanitizeFilename "" = "".
Proof. repeat split; reflexivity. Qed.

Example audit_pages_sample :
  items <$> getFileAuditLogs (f_id report) 1 2 audited_world
    = Some [(entry_download, Some bob); (entry_view, Some alice)]
  /\ items <$> getFileAuditLogs (f_id report) 2 2 audited_world
    = Some [(entry_upload, Some alice)]
  /\ totalPages <$> getFileAuditLogs (f_id report) 2 2 audited_world = Some 2.
Proof. repeat split; reflexivity. Qed.

Lemma shared_world_ok : store_ok shared_world.
Proof.
  split; [|split; [|split]].
  - apply NoDup_cons. split; [|apply NoDup_singleton].
    intros H. apply list_elem_of_singleton in H. discriminate H.
  - intros s t k Hs Ht Hks Hkt.
    apply elem_of_cons in Hs as [->|Hs]; [discriminate Hks|].
    apply list_elem_of_singleton in Hs as ->.
    apply elem_of_cons in Ht as [->|Ht]; [discriminate Hkt|].
    by apply list_elem_of_singleton in Ht as ->.
  - intros f u. unfold user_share_count. cbn [shares shared_world with_shares].
    cbn [List.filter]. destruct (user_share_query f u bob_view_share);
      destruct (user_share_query f u view_link) eqn:Hl; simpl; try lia.
    unfold user_share_query in Hl. cbn in Hl. by rewrite andb_false_r in Hl.
  - intros s Hs. exists report.
    apply elem_of_cons in Hs as [->|Hs]; [by split|].
    apply list_elem_of_singleton in Hs as ->. by split.
Qed.

Lemma revokeShare_idempotent_witness :
  let r1 := revokeShare (req_of alice) (s_id view_link) shared_world in
  let r2 := revokeShare (req_of alice) (s_id view_link) r1.1 in
  r2.2 = Json 200 true "Share revoked successfully" NoData
  /\ shares r2.1 = shares r1.1.
Proof.
  destruct (revokeShare_idempotent (req_of alice) (s_id view_link) shared_world
              alice view_link eq_refl eq_refl eq_refl (proj1 shared_world_ok))
    as (_ & H2 & _ & _ & Hsame & _).
  split; [exact H2 | exact Hsame].
Defined.

Lemma revoked_user_share_denies_witness :
  getFileById today (req_of bob) (f_id report)
    (revokeShare (req_of alice) (s_id bob_view_share) shared_world).1
  = ((revokeShare (req_of alice) (s_id bob_view_share) shared_world).1,
     fail 403 "Access denied").
Proof.
  assert (Hne : f_owner report <> u_id bob) by discriminate.
  exact (proj1 (revoked_user_share_denies (req_of alice) (req_of bob)
                  (s_id bob_view_share) (f_id report) shared_world alice bob alice
                  bob_view_share report eq_refl eq_refl eq_refl
                  (proj1 shared_world_ok) (proj1 (proj2 (proj2 shared_world_ok)))
                  eq_refl eq_refl eq_refl eq_refl Hne today)).
Defined.

Lemma revoked_link_is_dead_witness :
  accessViaLink today (req_of bob) "0123456789abcdef0123456789abcdef"
    (revokeShare (req_of alice) (s_id view_link) shared_world).1
  = ((revokeShare (req_of alice) (s_id view_link) shared_world).1,
     fail 404 "Share link not found or has been revoked").
Proof.
  exact (proj1 (revoked_link_is_dead (req_of alice) (s_id view_link) shared_world
                  alice view_link "0123456789abcdef0123456789abcdef"
                  eq_refl eq_refl eq_refl (proj1 shared_world_ok)
                  (proj1 (proj2 shared_world_ok)) eq_refl
                  today (req_of bob) bob eq_refl)).
Defined.

Lemma revokeShare_spares_other_links_witness :
  (accessViaLink today (req_of bob) "fedcba9876543210fedcba9876543210"
     (revokeShare (req_of alice) (s_id view_link) two_link_world).1).2
  = (accessViaLink today (req_of bob) "fedcba9876543210fedcba9876543210"
       two_link_world).2.
Proof.
  assert (Hnd : unique_ids (shares two_link_world)).
  { apply NoDup_cons. split; [|apply NoDup_singleton].
    intros H. apply list_elem_of_singleton in H. discriminate H. }
  assert (Hother : s_shareLink view_link <> Some "fedcba9876543210fedcba9876543210")
    by discriminate.
  exact (proj1 (revokeShare_spares_other_links (req_of alice) (s_id view_link)
                  two_link_world alice view_link "fedcba9876543210fedcba9876543210"
                  eq_refl eq_refl eq_refl Hnd Hother today (req_of bob))).
Defined.

Lemma expired_world_one_share : at_most_one_user_share (shares expired_world).
Proof.
  intros f u. unfold user_share_count. cbn [shares expired_world with_shares].
  cbn [List.filter]. destruct (user_share_query f u bob_expired_share); simpl; lia.
Qed.

Lemma regrant_of_expired_share_stays_expired_witness :
  let r := shareWithUser Date_parse_sample today "650000000000000000000014"
             (req_of alice) (f_id report) (u_id bob) (Some download) None
             expired_world in
  r.2 = Json 200 true "Share updated successfully"
          (ShareData (mkShare (s_id bob_expired_share) (f_id report) (u_id alice)
                        user_share (Some (u_id bob)) None download
                        (Some 946684800000) true))
  /\ getFileById today (req_of bob) (f_id report) r.1 = (r.1, fail 403 "Access denied").
Proof.
  assert (Hself : u_id bob <> u_id alice) by discriminate.
  assert (Hnd : unique_ids (shares expired_world)) by apply NoDup_singleton.
  assert (Hle : 946684800000 <= today) by (unfold today; lia).
  destruct (regrant_of_expired_share_stays_expired Date_parse_sample today
              "650000000000000000000014" (req_of alice) (req_of bob) (f_id report)
              (Some download) None expired_world alice bob report bob_expired_share
              946684800000 eq_refl eq_refl eq_refl eq_refl Hself eq_refl Hnd
              expired_world_one_share eq_refl eq_refl Hle eq_refl eq_refl)
    as (Hresp & _ & Hview & _).
  split; [exact Hresp | exact Hview].
Defined.

Lemma regrant_after_revoke_restores_access_witness :
  let w := with_shares initial_world [bob_view_share] in
  let w1 := (revokeShare (req_of alice) (s_id bob_view_share) w).1 in
  let r2 := shareWithUser Date_parse_sample today "650000000000000000000014"
              (req_of alice) (f_id report) (u_id bob) None None w1 in
  (getFileById today (req_of bob) (f_id report) w1).2 = fail 403 "Access denied"
  /\ (getFileById today (req_of bob) (f_id report) r2.1).2
     = Json 200 true "" (FileData report alice).
Proof.
  assert (Hself : u_id bob <> u_id alice) by discriminate.
  assert (Hnd : unique_ids (shares (with_shares initial_world [bob_view_share])))
    by apply NoDup_singleton.
  assert (Hone : at_most_one_user_share
                   (shares (with_shares initial_world [bob_view_share]))).
  { intros f u. unfold user_share_count. cbn [shares with_shares List.filter].
    destruct (user_share_query f u bob_view_share); simpl; lia. }
  destruct (regrant_after_revoke_restores_access Date_parse_sample today
              "650000000000000000000014" (req_of alice) (req_of bob) (f_id report)
              None None (with_shares initial_world [bob_view_share]) alice bob
              report bob_view_share eq_refl eq_refl eq_refl eq_refl Hself eq_refl
              Hnd Hone eq_refl eq_refl eq_refl eq_refl)
    as (Hdenied & _ & _ & Hopen).
  split; [exact Hdenied | exact Hopen].
Defined.

Lemma foreign_shares_untouched_witness :
  (forall id, bob_view_share ∈ shares (revokeShare (req_of bob) id shared_world).1)
  /\ (forall id, bob_view_share ∈ shares (deleteFile (req_of bob) id shared_world).1).
Proof.
  assert (Hforeign : s_owner bob_view_share <> u_id bob) by discriminate.
  assert (Hin : bob_view_share ∈ shares shared_world) by apply list_elem_of_here.
  destruct (foreign_shares_untouched Date_parse_sample (req_of bob) shared_world bob
              bob_view_share (proj1 shared_world_ok)
              (proj2 (proj2 (proj2 shared_world_ok))) eq_refl Hin Hforeign)
    as (Hrevoke & _ & _ & _ & Hdelete).
  split; [exact Hrevoke | exact Hdelete].
Defined.

Lemma store_invariants_kept_witness :
  (forall id, store_ok (revokeShare (req_of alice) id shared_world).1)
  /\ (forall id, store_ok (deleteFile (req_of alice) id shared_world).1)
  /\ store_ok (shareWithUser_of Date_parse_sample grantB
                 (shareWithUser_of Date_parse_sample grantA shared_world).1).1.
Proof.
  destruct (store_invariants_kept Date_parse_sample (req_of alice) shared_world
              shared_world_ok) as (_ & _ & Hrevoke & _ & Hdelete & Hserial).
  split; [exact Hrevoke|]. split; [exact Hdelete|].
  exact (proj2 (proj2 (Hserial grantA grantB))).
Defined.

Lemma audit_log_pages_witness :
  exists pg,
    getFileAuditLogs (f_id report) 2 2 audited_world = Some pg
    /\ total pg = 3
    /\ (length (items pg) <= 2)%nat.
Proof.
  assert (Hp : 1 <= 2) by lia.
  destruct (audit_log_pages (f_id report) 2 2 audited_world Hp Hp)
    as (pg & Hrun & Htotal & Hlen & _).
  exists pg. split; [exact Hrun|]. split; [exact Htotal | exact Hlen].
Defined.

Lemma deleteFile_cascades_witness :
  let r := deleteFile (req_of alice) (f_id report) shared_world in
  r.2 = Json 200 true "File deleted successfully" NoData
  /\ File_findById (f_id report) (files r.1) = None
  /\ disk r.1 !! "uploads/1f0e.pdf" = None.
Proof.
  assert (Hnd : NoDup (map f_id (files shared_world))) by apply NoDup_singleton.
  destruct (deleteFile_cascades (req_of alice) (f_id report) shared_world alice
              report eq_refl eq_refl eq_refl Hnd (proj1 (proj2 shared_world_ok)))
    as (Hresp & Hgone & _ & _ & Hdisk & _).
  split; [exact Hresp|]. split; [exact Hgone | exact Hdisk].
Defined.

Lemma shared_with_me_can_be_opened_witness :
  bob_view_share ∈ shares shared_world
  /\ (getFileById today (req_of bob) (f_id report) shared_world).2
     = Json 200 true "" (FileData report alice).
Proof.
  assert (Hitem : (bob_view_share, Some report, Some alice)
                  ∈ items (mkPaged [(bob_view_share, Some report, Some alice)]
                             1 1 20 1)) by apply list_elem_of_here.
  destruct (shared_with_me_can_be_opened today (req_of bob) None None shared_world
              (mkPaged [(bob_view_share, Some report, Some alice)] 1 1 20 1)
              bob_view_share report (Some alice) alice eq_refl Hitem eq_refl)
    as (Hin & _ & Hopen).
  split; [exact Hin | exact Hopen].
Defined.

Lemma generateShareLink_injective_witness :
  String.length (generateShareLink uuid_a) = 32%nat
  /\ (generateShareLink uuid_b = generateShareLink uuid_a -> uuid_b = uuid_a).
Proof.
  destruct (generateShareLink_injective uuid_a eq_refl) as (Hlen & _ & Hinj).
  split; [exact Hlen | exact (Hinj uuid_b eq_refl)].
Defined.

Lemma compressFile_accounts_witness :
  exists fs' res stored,
    compressFile posix_extname posix_dirname posix_basename posix_join
      (Written encoded_bytes) "uploads/9c1d.jpg" "image/jpeg" "holiday.jpg"
      photo_disk = Some (fs', res)
    /\ fs' !! "uploads/9c1d.jpg" = Some stored
    /\ compressedSize res = byte_size stored
    /\ compressedSize res <= originalSize res.
Proof.
  assert (Hfile : photo_disk !! "uploads/9c1d.jpg" = Some photo_bytes)
    by apply lookup_singleton_eq.
  assert (Hc : compressedPathOf posix_extname posix_dirname posix_basename
                 posix_join "uploads/9c1d.jpg" <> "uploads/9c1d.jpg")
    by discriminate.
  destruct (compressFile_accounts posix_extname posix_dirname posix_basename
              posix_join (Written encoded_bytes) "uploads/9c1d.jpg" "image/jpeg"
              "holiday.jpg" photo_disk photo_bytes Hfile Hc)
    as (fs' & res & stored & Hrun & Hat & Hsize & _ & Hle & _).
  exists fs', res, stored.
  split; [exact Hrun|]. split; [exact Hat|]. split; [exact Hsize | exact Hle].
Defined.

Lemma upload_records_disk_size_witness :
  exists fs' res stored,
    compressFile posix_extname posix_dirname posix_basename posix_join
      (Written encoded_bytes) "uploads/9c1d.jpg" "image/jpeg" "holiday.jpg"
      photo_disk = Some (fs', res)
    /\ fs' !! "uploads/9c1d.jpg" = Some stored
    /\ f_size (uploaded_document "64f000000000000000000002"
                 "http://localhost:5000" (u_id alice) photo_upload res)
       = byte_size stored.
Proof.
  assert (Hfile : photo_disk !! m_path photo_upload = Some photo_bytes)
    by apply lookup_singleton_eq.
  assert (Hsize : m_size photo_upload = byte_size photo_bytes)
    by (vm_compute; reflexivity).
  assert (Hc : compressedPathOf posix_extname posix_dirname posix_basename
                 posix_join (m_path photo_upload) <> m_path photo_upload)
    by discriminate.
  destruct (upload_records_disk_size posix_extname posix_dirname posix_basename
              posix_join (Written encoded_bytes) "64f000000000000000000002"
              "http://localhost:5000" (u_id alice) photo_upload photo_disk
              photo_bytes Hfile Hsize Hc)
    as (fs' & res & stored & Hrun & Hat & Hdoc & _).
  exists fs', res, stored. split; [exact Hrun|]. split; [exact Hat | exact Hdoc].
Defined.

Lemma two_links_coexist_witness :
  let r1 := shareViaLink Date_parse_sample today "650000000000000000000021" uuid_a
              "http://localhost:5173" (req_of alice) (f_id report) (Some view) None
              initial_world in
  let r2 := shareViaLink Date_parse_sample today "650000000000000000000022" uuid_b
              "http://localhost:5173" (req_of alice) (f_id report) (Some view) None
              r1.1 in
  generateShareLink uuid_a <> generateShareLink uuid_b
  /\ shares r2.1
     = [mkShare "650000000000000000000021" (f_id report) (u_id alice) link_share
          None (Some "0123456789abcdef0123456789abcdef") view None true;
        mkShare "650000000000000000000022" (f_id report) (u_id alice) link_share
          None (Some "fedcba9876543210fedcba9876543210") view None true].
Proof.
  assert (Hdiff : uuid_a <> uuid_b) by discriminate.
  assert (Hfresh : "650000000000000000000021" <> "650000000000000000000022")
    by discriminate.
  assert (Hnew : forall s, s ∈ shares initial_world ->
            s_id s <> "650000000000000000000021"
            /\ s_id s <> "650000000000000000000022"
            /\ s_shareLink s <> Some (generateShareLink uuid_a)
            /\ s_shareLink s <> Some (generateShareLink uuid_b)).
  { intros s Hs. by apply elem_of_nil in Hs. }
  destruct (two_links_coexist Date_parse_sample today "650000000000000000000021"
              "650000000000000000000022" uuid_a uuid_b "http://localhost:5173"
              (req_of alice) (f_id report) (Some view) None initial_world alice
              report eq_refl eq_refl eq_refl eq_refl eq_refl eq_refl Hdiff Hfresh
              Hnew) as (Htok & Hshares & _).
  split; [exact Htok | exact Hshares].
Defined.
